(** * Univo backend: a shallow embedding of the service code

    The development follows the Python sources of the backend:
    - [blockchain_service]: the mock ledger and its contract calls,
      verifiable credentials, the reputation system, identity
      creation and resolution, issuing and verifying credentials
      (services/blockchain_service.py);
    - [quantum_service]: BB84 key sifting, the lattice cipher, the AES
      layer, key generation, encryption and decryption on a channel,
      channel set-up, status and clean-up
      (services/quantum_service.py);
    - [ai_service]: emotion post-processing, the overall mood and text
      chunking (services/ai_service.py);
    - [video_service]: the hand and body gesture heuristics and the
      frame pipeline (services/video_service.py);
    - [main]: the REST wrappers and the WebSocket dispatcher (main.py).

    Python values are modelled as the code has them: unbounded [int]
    as [Z], [str] as [string], [dict] as a map or, where insertion
    order matters, as an association list, exceptions as a sum type,
    and every random draw or clock reading as an explicit input.

    The definitions come first, one module per source file, each
    closing with the vocabulary of its statements; the lemmas and
    theorems follow, in one module [<file>_properties] per source
    file. *)

From Stdlib Require Import ZArith QArith Floats List Bool Ascii String Lia.
From Stdlib Require Import Sorting.Sorted Sorting.Permutation.
From stdpp Require Import base option gmap strings list pretty.

Local Open Scope Z_scope.

(** ** Exceptions

    A Python call either returns a value or raises; [str(e)] of the
    raised exception is all the callers under study look at, next to
    its class. *)
Inductive exn_class :=
| ValueError | KeyError | IndexError | TypeError | AttributeError
| JSONDecodeError | WebSocketDisconnect | OtherError.

Record exn := Exn { exn_cls : exn_class; exn_str : string }.

Inductive result (A : Type) :=
| Ok (a : A)
| Raise (e : exn).
Arguments Ok {A} a.
Arguments Raise {A} e.

Definition bind {A B} (r : result A) (k : A -> result B) : result B :=
  match r with
  | Ok a => k a
  | Raise e => Raise e
  end.

Notation "'let!' x ':=' r 'in' k" := (bind r (fun x => k))
  (at level 10, x name, r at level 100, k at level 200).

(** ** Python values

    The payloads are untyped dictionaries. [PDict] is a [dict] all of
    whose keys are [str], as in every dictionary the services build
    and every object [json.loads] returns, in insertion order.
    [PDictAny] is a [dict] that has other keys as well, of the types
    the encoder accepts: a caller can pass one inside its claims or its
    profile. A [float] key, which the encoder orders by its value, is
    left out. [PFloat] carries the text the
    encoder prints for the float, which is all that is read of it. [PObject] stands
    for any value [json.dumps] has no encoder for ([datetime], [bytes],
    [set], an instance of a class); it carries the name of its type. *)
Inductive pykey :=
| KStr (s : string)
| KInt (z : Z)
| KBool (b : bool)
| KNone.

#[local] Unset Elimination Schemes.
Inductive pyval :=
| PNone
| PBool (b : bool)
| PInt (z : Z)
| PFloat (repr : string)
| PStr (s : string)
| PList (items : list pyval)
| PDict (items : list (string * pyval))
| PDictAny (items : list (pykey * pyval))
| PObject (type_name : string).
#[local] Set Elimination Schemes.

(** Induction over a value and, through [Forall], over the values
    nested in its lists and dictionaries. *)
Section pyval_induction.
Variable P : pyval -> Prop.
Hypothesis HNone : P PNone.
Hypothesis HBool : forall b, P (PBool b).
Hypothesis HInt : forall z, P (PInt z).
Hypothesis HFloat : forall r, P (PFloat r).
Hypothesis HStr : forall s, P (PStr s).
Hypothesis HList : forall items, Forall P items -> P (PList items).
Hypothesis HDict :
  forall items, Forall (fun kv => P (snd kv)) items -> P (PDict items).
Hypothesis HDictAny :
  forall items, Forall (fun kv => P (snd kv)) items -> P (PDictAny items).
Hypothesis HObject : forall t, P (PObject t).

Fixpoint pyval_ind (v : pyval) : P v :=
  match v with
  | PNone => HNone
  | PBool b => HBool b
  | PInt z => HInt z
  | PFloat r => HFloat r
  | PStr s => HStr s
  | PList items =>
      HList items
        ((fix all (l : list pyval) : Forall P l :=
            match l with
            | [] => List.Forall_nil P
            | x :: l' => List.Forall_cons P x l' (pyval_ind x) (all l')
            end) items)
  | PDict items =>
      HDict items
        ((fix all (l : list (string * pyval))
            : Forall (fun kv => P (snd kv)) l :=
            match l with
            | [] => List.Forall_nil _
            | kv :: l' =>
                List.Forall_cons _ kv l' (pyval_ind (snd kv)) (all l')
            end) items)
  | PDictAny items =>
      HDictAny items
        ((fix all (l : list (pykey * pyval))
            : Forall (fun kv => P (snd kv)) l :=
            match l with
            | [] => List.Forall_nil _
            | kv :: l' =>
                List.Forall_cons _ kv l' (pyval_ind (snd kv)) (all l')
            end) items)
  | PObject t => HObject t
  end.

End pyval_induction.

(** *** Dictionaries: [d.get(k)], [d[k] = v], [del d[k]], [{**d, **e}] *)
Definition dict_get {V} (k : string) (d : list (string * V)) : option V :=
  snd <$> List.find (fun kv => String.eqb (fst kv) k) d.

Definition dict_has {V} (k : string) (d : list (string * V)) : bool :=
  existsb (fun kv => String.eqb (fst kv) k) d.

(** Assigning to a key that is present keeps its position. *)
Fixpoint dict_set {V} (k : string) (v : V) (d : list (string * V))
  : list (string * V) :=
  match d with
  | [] => [(k, v)]
  | (k', v') :: d' =>
      if String.eqb k' k then (k, v) :: d' else (k', v') :: dict_set k v d'
  end.

Definition dict_del {V} (k : string) (d : list (string * V))
  : list (string * V) :=
  List.filter (fun kv => negb (String.eqb (fst kv) k)) d.

Definition dict_update {V} (d extra : list (string * V)) : list (string * V) :=
  fold_left (fun acc kv => dict_set (fst kv) (snd kv) acc) extra d.

(** The same on a dictionary with keys of any type, for a [str] key:
    a [str] is equal to no [int], [bool] or [None]. *)
Definition is_key (k : string) (key : pykey) : bool :=
  match key with
  | KStr s => String.eqb s k
  | _ => false
  end.

Definition keyed_get {V} (k : string) (d : list (pykey * V)) : option V :=
  snd <$> List.find (fun kv => is_key k (fst kv)) d.

Definition keyed_has {V} (k : string) (d : list (pykey * V)) : bool :=
  existsb (fun kv => is_key k (fst kv)) d.

Definition keyed_del {V} (k : string) (d : list (pykey * V))
  : list (pykey * V) :=
  List.filter (fun kv => negb (is_key k (fst kv))) d.

(** *** [json.dumps]

    The encoder with [ensure_ascii=True] (the default); [None] is the
    [TypeError] it raises on a value it cannot encode or, with
    [sort_keys=True], on a dictionary whose keys [sorted] cannot
    compare. Characters are the code points below 256. *)
Definition dquote : ascii := "034"%char.
Definition backslash : ascii := "092"%char.

Definition hex_digit (n : N) : ascii :=
  nth (N.to_nat n) (list_ascii_of_string "0123456789abcdef") "0"%char.

Definition escape_char (c : ascii) : string :=
  let n := N_of_ascii c in
  if Ascii.eqb c dquote then String backslash (String dquote EmptyString)
  else if Ascii.eqb c backslash then
    String backslash (String backslash EmptyString)
  else if (n =? 10)%N then String backslash "n"
  else if (n =? 13)%N then String backslash "r"
  else if (n =? 9)%N then String backslash "t"
  else if (n =? 12)%N then String backslash "f"
  else if (n =? 8)%N then String backslash "b"
  else if ((32 <=? n) && (n <=? 126))%N then String c EmptyString
  else String backslash
         ("u00" ++ String (hex_digit (n / 16))
                     (String (hex_digit (n mod 16)) EmptyString)).

Fixpoint escape_string (s : string) : string :=
  match s with
  | EmptyString => EmptyString
  | String c s' => escape_char c ++ escape_string s'
  end.

Definition encode_basestring_ascii (s : string) : string :=
  String dquote (escape_string s ++ String dquote EmptyString).

(** [sort_keys=True]: the encoded items in the order of their keys. *)
Fixpoint insert_item (kv : string * string) (l : list (string * string))
  : list (string * string) :=
  match l with
  | [] => [kv]
  | kv' :: l' =>
      if String.leb (fst kv') (fst kv) then kv' :: insert_item kv l'
      else kv :: l
  end.

Definition sorted_items (l : list (string * string))
  : list (string * string) :=
  fold_left (fun acc kv => insert_item kv acc) l [].

(** A key as the encoder writes it: [str(n)] for an [int], and the
    JSON literals for [True], [False] and [None]. *)
Definition key_text (key : pykey) : string :=
  match key with
  | KStr s => s
  | KInt z => pretty z
  | KBool true => "true"
  | KBool false => "false"
  | KNone => "null"
  end.

(** [sorted(dct.items())] compares the keys, which are distinct, with
    [<]: two [str] by their characters, [int] and [bool] by their
    value, and it raises [TypeError] on a [str] with a number and on
    [None] with anything. A list of fewer than two items is compared
    with nothing. *)
Definition key_number (key : pykey) : option Z :=
  match key with
  | KInt z => Some z
  | KBool b => Some (if b then 1 else 0)
  | _ => None
  end.

Definition is_str_key (key : pykey) : bool :=
  match key with
  | KStr _ => true
  | _ => false
  end.

Definition is_number_key (key : pykey) : bool :=
  match key_number key with
  | Some _ => true
  | None => false
  end.

Definition sortable_keys (keys : list pykey) : bool :=
  match keys with
  | [] | [_] => true
  | _ => forallb is_str_key keys || forallb is_number_key keys
  end.

Definition key_leb (a b : pykey) : bool :=
  match a, b with
  | KStr s, KStr t => String.leb s t
  | _, _ =>
      match key_number a, key_number b with
      | Some x, Some y => x <=? y
      | _, _ => true
      end
  end.

Fixpoint insert_keyed (kv : pykey * string) (l : list (pykey * string))
  : list (pykey * string) :=
  match l with
  | [] => [kv]
  | kv' :: l' =>
      if key_leb (fst kv') (fst kv) then kv' :: insert_keyed kv l'
      else kv :: l
  end.

Definition sorted_keyed (l : list (pykey * string))
  : option (list (pykey * string)) :=
  if sortable_keys (List.map fst l)
  then Some (fold_left (fun acc kv => insert_keyed kv acc) l [])
  else None.

Fixpoint json_dumps (sort_keys : bool) (item_sep key_sep : string) (v : pyval)
  : option string :=
  match v with
  | PNone => Some "null"%string
  | PBool true => Some "true"%string
  | PBool false => Some "false"%string
  | PInt z => Some (pretty z)
  | PFloat repr => Some repr
  | PStr s => Some (encode_basestring_ascii s)
  | PList items =>
      parts ← mapM (json_dumps sort_keys item_sep key_sep) items;
      Some ("[" ++ String.concat item_sep parts ++ "]")%string
  | PDict items =>
      parts ← mapM (fun kv =>
                      s ← json_dumps sort_keys item_sep key_sep (snd kv);
                      Some (fst kv, s)) items;
      let parts := if sort_keys then sorted_items parts else parts in
      Some ("{" ++ String.concat item_sep
                     (List.map (fun ks => encode_basestring_ascii (fst ks)
                                            ++ key_sep ++ snd ks) parts)
                ++ "}")%string
  | PDictAny items =>
      parts ← mapM (fun kv =>
                      s ← json_dumps sort_keys item_sep key_sep (snd kv);
                      Some (fst kv, s)) items;
      parts ← (if sort_keys then sorted_keyed parts else Some parts);
      Some ("{" ++ String.concat item_sep
                     (List.map (fun ks =>
                                  encode_basestring_ascii (key_text (fst ks))
                                    ++ key_sep ++ snd ks) parts)
                ++ "}")%string
  | PObject _ => None
  end.

(** [json.dumps(v)] with the default separators, and the canonical
    form the credentials are signed in:
    [json.dumps(v, sort_keys=True, separators=(',', ':'))]. *)
Definition json_dumps_default : pyval -> option string :=
  json_dumps false ", " ": ".
Definition json_dumps_canonical : pyval -> option string :=
  json_dumps true "," ":".

(** The values the encoder accepts: no [PObject] at any depth. *)
Fixpoint serialisable (v : pyval) : bool :=
  match v with
  | PList items => forallb serialisable items
  | PDict items => forallb (fun kv => serialisable (snd kv)) items
  | PDictAny items => forallb (fun kv => serialisable (snd kv)) items
  | PObject _ => false
  | _ => true
  end.

(** The values whose dictionaries [sort_keys=True] can sort, at every
    depth. *)
Fixpoint sortable (v : pyval) : bool :=
  match v with
  | PList items => forallb sortable items
  | PDict items => forallb (fun kv => sortable (snd kv)) items
  | PDictAny items =>
      sortable_keys (List.map fst items)
      && forallb (fun kv => sortable (snd kv)) items
  | _ => true
  end.

(** *** Truth value, keys and subscription

    [type(v).__name__], for the messages of the interpreter. *)
Definition type_name_of (v : pyval) : string :=
  match v with
  | PNone => "NoneType"
  | PBool _ => "bool"
  | PInt _ => "int"
  | PFloat _ => "float"
  | PStr _ => "str"
  | PList _ => "list"
  | PDict _ => "dict"
  | PDictAny _ => "dict"
  | PObject type_name => type_name
  end.

(** [bool(v)], as [if v:] and [if not v:] take it. A float is printed
    ["0.0"] or ["-0.0"] exactly when it is zero. An object that
    [json.dumps] cannot encode counts as true, as an instance is unless
    its class says otherwise. *)
Definition truthy (v : pyval) : bool :=
  match v with
  | PNone => false
  | PBool b => b
  | PInt z => negb (z =? 0)
  | PFloat repr => negb (String.eqb repr "0.0" || String.eqb repr "-0.0")
  | PStr s => negb (String.eqb s "")
  | PList items => match items with [] => false | _ => true end
  | PDict items => match items with [] => false | _ => true end
  | PDictAny items => match items with [] => false | _ => true end
  | PObject _ => true
  end.

(** A value used as a key of a dictionary all of whose keys are [str]:
    a [str] is looked up, a list or a dictionary cannot be hashed, any
    other value is a key that is not there. *)
Definition str_key (key : pyval) : result (option string) :=
  match key with
  | PStr s => Ok (Some s)
  | PList _ => Raise (Exn TypeError "unhashable type: 'list'")
  | PDict _ => Raise (Exn TypeError "unhashable type: 'dict'")
  | PDictAny _ => Raise (Exn TypeError "unhashable type: 'dict'")
  | _ => Ok None
  end.

(** [v.get(key)]: only a dictionary has [get]. *)
Definition py_get (key : string) (v : pyval) : result (option pyval) :=
  match v with
  | PDict items => Ok (dict_get key items)
  | PDictAny items => Ok (keyed_get key items)
  | _ =>
      Raise (Exn AttributeError
               ("'" ++ type_name_of v ++ "' object has no attribute 'get'"))
  end.

(** [v[key]] for a [str] key: [KeyError] on a dictionary without the
    key, [TypeError] on any other value. *)
Definition subscript (key : string) (v : pyval) : result pyval :=
  match v with
  | PDict items =>
      match dict_get key items with
      | Some value => Ok value
      | None => Raise (Exn KeyError ("'" ++ key ++ "'"))
      end
  | PDictAny items =>
      match keyed_get key items with
      | Some value => Ok value
      | None => Raise (Exn KeyError ("'" ++ key ++ "'"))
      end
  | PList _ =>
      Raise (Exn TypeError "list indices must be integers or slices, not str")
  | PStr _ => Raise (Exn TypeError "string indices must be integers")
  | _ =>
      Raise (Exn TypeError
               ("'" ++ type_name_of v ++ "' object is not subscriptable"))
  end.

Module blockchain_service.

(** [datetime.utcnow()] is read from the clock; the instant is an
    input of every operation that reads it. *)
Definition datetime := Z.

(** One entry of [ReputationSystem.reputation_scores]. *)
Record reputation := Reputation {
  score : Z;
  meeting_count : Z;
  positive_feedback : Z;
  negative_feedback : Z;
  credentials_verified : Z;
  last_updated : datetime
}.

(** The record both [calculate_reputation] and [update_reputation]
    install for an identity they have not seen. *)
Definition default_reputation (now : datetime) : reputation :=
  {| score := 50;
     meeting_count := 0;
     positive_feedback := 0;
     negative_feedback := 0;
     credentials_verified := 0;
     last_updated := now |}.

Record breakdown := Breakdown {
  base_score : Z;
  meeting_bonus : Z;
  feedback_score : Z;
  credential_bonus : Z
}.

(** The dictionary [calculate_reputation] returns. *)
Record reputation_report := ReputationReport {
  rr_identity_id : string;
  reputation_score : Z;
  rr_breakdown : breakdown;
  statistics : reputation;
  rr_last_updated : datetime
}.

(** [ReputationSystem.calculate_reputation], lines 223-256: the store
    is threaded through, since a missing identity is installed. *)
Definition calculate_reputation (now : datetime) (identity_id : string)
    (reputation_scores : gmap string reputation)
  : gmap string reputation * reputation_report :=
  let reputation_scores :=
    match reputation_scores !! identity_id with
    | None => <[identity_id := default_reputation now]> reputation_scores
    | Some _ => reputation_scores
    end in
  let reputation :=
    default (default_reputation now) (reputation_scores !! identity_id) in
  let base_score := 50 in
  let meeting_bonus := Z.min (meeting_count reputation * 2) 30 in
  let feedback_score :=
    (positive_feedback reputation - negative_feedback reputation) * 5 in
  let credential_bonus := Z.min (credentials_verified reputation * 10) 20 in
  let final_score :=
    Z.max 0 (Z.min 100
      (base_score + meeting_bonus + feedback_score + credential_bonus)) in
  (reputation_scores,
   {| rr_identity_id := identity_id;
      reputation_score := final_score;
      rr_breakdown :=
        {| base_score := base_score;
           meeting_bonus := meeting_bonus;
           feedback_score := feedback_score;
           credential_bonus := credential_bonus |};
      statistics := reputation;
      rr_last_updated := last_updated reputation |}).

(** [ReputationSystem.update_reputation], lines 258-281. *)
Definition update_reputation (now : datetime) (identity_id : string)
    (event_type : string) (reputation_scores : gmap string reputation)
  : gmap string reputation :=
  let reputation :=
    default (default_reputation now) (reputation_scores !! identity_id) in
  let reputation :=
    if String.eqb event_type "meeting_completed" then
      {| score := score reputation;
         meeting_count := meeting_count reputation + 1;
         positive_feedback := positive_feedback reputation;
         negative_feedback := negative_feedback reputation;
         credentials_verified := credentials_verified reputation;
         last_updated := last_updated reputation |}
    else if String.eqb event_type "positive_feedback" then
      {| score := score reputation;
         meeting_count := meeting_count reputation;
         positive_feedback := positive_feedback reputation + 1;
         negative_feedback := negative_feedback reputation;
         credentials_verified := credentials_verified reputation;
         last_updated := last_updated reputation |}
    else if String.eqb event_type "negative_feedback" then
      {| score := score reputation;
         meeting_count := meeting_count reputation;
         positive_feedback := positive_feedback reputation;
         negative_feedback := negative_feedback reputation + 1;
         credentials_verified := credentials_verified reputation;
         last_updated := last_updated reputation |}
    else if String.eqb event_type "credential_verified" then
      {| score := score reputation;
         meeting_count := meeting_count reputation;
         positive_feedback := positive_feedback reputation;
         negative_feedback := negative_feedback reputation;
         credentials_verified := credentials_verified reputation + 1;
         last_updated := last_updated reputation |}
    else reputation in
  <[identity_id :=
      {| score := score reputation;
         meeting_count := meeting_count reputation;
         positive_feedback := positive_feedback reputation;
         negative_feedback := negative_feedback reputation;
         credentials_verified := credentials_verified reputation;
         last_updated := now |}]> reputation_scores.

(** *** The packages behind the service

    [cryptography] (RSA keys, their PEM forms, RSA-PSS with MGF1 and
    SHA-256 at the maximal salt length), [base64], [hashlib] and
    [datetime.isoformat] are used through their interface. Byte strings
    are [string]s. A signature draws a random salt, which is an input
    of [pss_sign]; [pss_verify] is [true] where [verify] returns and
    [false] where it raises [InvalidSignature]; a loader or decoder
    that raises is [None]. *)
Class Library := {
  rsa_key : Type;
  rsa_pub : Type;
  public_key : rsa_key -> rsa_pub;
  private_bytes : rsa_key -> string;
  public_bytes : rsa_pub -> string;
  load_pem_private_key : string -> option rsa_key;
  load_pem_public_key : string -> option rsa_pub;
  pss_sign : rsa_key -> string -> string -> string;
  pss_verify : rsa_pub -> string -> string -> bool;
  b64encode : string -> string;
  b64decode : string -> option string;
  sha256_hexdigest : string -> string;
  isoformat : datetime -> string
}.


Section VerifiableCredential.
Context {L : Library}.

(** [self.context] *)
Definition context : pyval :=
  PList [PStr "https://www.w3.org/2018/credentials/v1";
         PStr "https://univo.app/credentials/v1"].

Definition one_year : Z := 365 * 86400 * 1000000.

(** [_sign_credential], lines 155-183: every exception is caught and
    turned into the empty signature. *)
Definition _sign_credential (salt : string) (credential : pyval)
    (private_key_pem : string) : string :=
  match load_pem_private_key private_key_pem with
  | None => ""
  | Some private_key =>
      match json_dumps_canonical credential with
      | None => ""
      | Some canonical_json =>
          b64encode (pss_sign private_key salt canonical_json)
      end
  end.

(** The credential before it is signed, lines 113-123. *)
Definition unsigned_credential (now1 now2 : datetime)
    (issuer subject : string) (claims : list (string * pyval))
  : list (string * pyval) :=
  [("@context", context);
   ("type", PList [PStr "VerifiableCredential"]);
   ("issuer", PStr issuer);
   ("issuanceDate", PStr (isoformat now1 ++ "Z"));
   ("expirationDate", PStr (isoformat (now2 + one_year) ++ "Z"));
   ("credentialSubject", PDict (dict_update [("id", PStr subject)] claims))].

(** [create_credential], lines 110-135. The three clock readings and
    the salt of the signature are inputs. [claims] is a
    [Dict[str, Any]]: its own keys are [str], its values are any. *)
Definition create_credential (now1 now2 now3 : datetime) (salt : string)
    (issuer subject : string) (claims : list (string * pyval))
    (private_key : string) : pyval :=
  let credential := unsigned_credential now1 now2 issuer subject claims in
  let signature := _sign_credential salt (PDict credential) private_key in
  PDict (dict_set "proof"
           (PDict [("type", PStr "RsaSignature2018");
                   ("created", PStr (isoformat now3 ++ "Z"));
                   ("verificationMethod", PStr (issuer ++ "#keys-1"));
                   ("proofPurpose", PStr "assertionMethod");
                   ("jws", PStr signature)])
           credential).

(** [_verify_signature], lines 185-214: [False] on any exception. A
    [jws] that is not a [str] makes [b64decode] raise. *)
Definition _verify_signature (credential : pyval) (signature : pyval)
    (public_key_pem : string) : bool :=
  match load_pem_public_key public_key_pem with
  | None => false
  | Some public_key =>
      match json_dumps_canonical credential with
      | None => false
      | Some canonical_json =>
          match signature with
          | PStr signature =>
              match b64decode signature with
              | None => false
              | Some signature_bytes =>
                  pss_verify public_key signature_bytes canonical_json
              end
          | _ => false
          end
      end
  end.

(** [verify_credential], lines 137-153. [credential.get] and
    [proof.get] raise on a value that is no dictionary, [del] raises
    [KeyError] when there is no proof; all of it ends in [False]. *)
Definition verify_credential (credential : pyval) (public_key : string)
  : bool :=
  match credential with
  | PDict items =>
      match default (PDict []) (dict_get "proof" items) with
      | PDict proof =>
          let signature := default (PStr "") (dict_get "jws" proof) in
          if dict_has "proof" items then
            _verify_signature (PDict (dict_del "proof" items))
              signature public_key
          else false
      | PDictAny proof =>
          let signature := default (PStr "") (keyed_get "jws" proof) in
          if dict_has "proof" items then
            _verify_signature (PDict (dict_del "proof" items))
              signature public_key
          else false
      | _ => false
      end
  | PDictAny items =>
      match default (PDict []) (keyed_get "proof" items) with
      | PDict proof =>
          let signature := default (PStr "") (dict_get "jws" proof) in
          if keyed_has "proof" items then
            _verify_signature (PDictAny (keyed_del "proof" items))
              signature public_key
          else false
      | PDictAny proof =>
          let signature := default (PStr "") (keyed_get "jws" proof) in
          if keyed_has "proof" items then
            _verify_signature (PDictAny (keyed_del "proof" items))
              signature public_key
          else false
      | _ => false
      end
  | _ => false
  end.

End VerifiableCredential.

(** *** MockBlockchain and BlockchainService *)

(** One entry of [MockBlockchain.accounts]. *)
Record account := Account {
  acc_private_key : string;
  acc_balance : Z;
  acc_nonce : Z
}.

(** One entry of [MockBlockchain.contracts]. *)
Record contract := Contract {
  contract_code : string;
  contract_deployer : string;
  contract_storage : list (string * pyval);
  deployed_at : datetime
}.

Record MockBlockchain := {
  accounts : gmap string account;
  contracts : gmap string contract
}.

(** One entry of [BlockchainService.identity_registry]. *)
Record identity_info := IdentityInfo {
  identity_id : string;
  did_document : pyval;
  private_key : string;
  public_key_pem : string;
  blockchain_address : string;
  blockchain_private_key : string;
  profile : pyval;
  created_at : datetime
}.

(** The service object. [web3_available] is [WEB3_AVAILABLE and
    self.web3]; without Web3 the ledger is the mock one. *)
Record BlockchainService := {
  web3_available : bool;
  blockchain : MockBlockchain;
  reputation_scores : gmap string reputation;
  identity_registry : gmap string identity_info;
  contract_addresses : gmap string string
}.

(** [BlockchainService.__init__] *)
Definition new_service (web3 : bool) : BlockchainService :=
  {| web3_available := web3;
     blockchain := {| accounts := ∅; contracts := ∅ |};
     reputation_scores := ∅;
     identity_registry := ∅;
     contract_addresses := ∅ |}.

(** What one call of [create_identity] draws from outside: the RSA key
    that [rsa.generate_private_key] returns, the account key
    ([secrets.token_hex(32)] on the mock ledger, [account.privateKey.hex()]
    with Web3), the address [Account.create()] gives with Web3, and the
    clock readings in the order they are taken. *)
Record draws {L : Library} := Draws {
  drawn_key : rsa_key;
  drawn_account_key : string;
  drawn_eth_address : string;
  now_record : datetime;
  now_deployed : datetime;
  now_registry : datetime;
  now_reputation : datetime;
  now_response : datetime
}.

Section BlockchainService.
Context {L : Library}.

(** [str.__getitem__] with the slice [[:40]] *)
Definition first40 (s : string) : string := String.substring 0 40 s.

(** [MockBlockchain.create_account], lines 42-57. *)
Definition create_account (private_key : string) (chain : MockBlockchain)
  : MockBlockchain * (string * string) :=
  let address := ("0x" ++ first40 (sha256_hexdigest private_key))%string in
  ({| accounts :=
        <[address := {| acc_private_key := private_key;
                        acc_balance := 1000;
                        acc_nonce := 0 |}]> (accounts chain);
      contracts := contracts chain |},
   (address, private_key)).

(** [MockBlockchain.deploy_contract], lines 59-72. *)
Definition deploy_contract (now : datetime) (code deployer : string)
    (chain : MockBlockchain) : MockBlockchain * string :=
  let contract_address :=
    ("0x" ++ first40 (sha256_hexdigest
              (code ++ deployer
                 ++ pretty (Z.of_nat (size (contracts chain))))))%string in
  ({| accounts := accounts chain;
      contracts :=
        <[contract_address := {| contract_code := code;
                                 contract_deployer := deployer;
                                 contract_storage := [];
                                 deployed_at := now |}]> (contracts chain) |},
   contract_address).

(** [MockBlockchain.call_contract], lines 74-99, for the two methods
    that write: both hash [json.dumps(params)] and store [params] under
    the digest. *)
Definition call_contract_store (contract_address : string) (params : pyval)
    (chain : MockBlockchain) : MockBlockchain * result string :=
  match contracts chain !! contract_address with
  | None => (chain, Raise (Exn ValueError "Contract not found"))
  | Some c =>
      match json_dumps_default params with
      | None =>
          (chain, Raise (Exn TypeError "Object is not JSON serializable"))
      | Some text =>
          let id := sha256_hexdigest text in
          ({| accounts := accounts chain;
              contracts :=
                <[contract_address :=
                    {| contract_code := contract_code c;
                       contract_deployer := contract_deployer c;
                       contract_storage := dict_set id params (contract_storage c);
                       deployed_at := deployed_at c |}]> (contracts chain) |},
           Ok id)
      end
  end.

(** The source of the mock identity contract, lines 590-607. *)
Definition identity_contract_code : string := "
            contract IdentityRegistry {
                mapping(bytes32 => Identity) public identities;
                
                struct Identity {
                    string did;
                    string didDocument;
                    address owner;
                    uint256 createdAt;
                }
                
                function createIdentity(string memory did, string memory didDocument) public returns (bytes32) {
                    bytes32 identityId = keccak256(abi.encodePacked(did, block.timestamp));
                    identities[identityId] = Identity(did, didDocument, msg.sender, block.timestamp);
                    return identityId;
                }
            }
            ".

Definition with_blockchain (chain : MockBlockchain) (self : BlockchainService)
  : BlockchainService :=
  {| web3_available := web3_available self;
     blockchain := chain;
     reputation_scores := reputation_scores self;
     identity_registry := identity_registry self;
     contract_addresses := contract_addresses self |}.

(** [_get_identity_contract], lines 586-612. *)
Definition _get_identity_contract (now : datetime) (self : BlockchainService)
  : BlockchainService * string :=
  match contract_addresses self !! "identity" with
  | Some contract_address => (self, contract_address)
  | None =>
      let '(chain, contract_address) :=
        deploy_contract now identity_contract_code "system" (blockchain self) in
      ({| web3_available := web3_available self;
          blockchain := chain;
          reputation_scores := reputation_scores self;
          identity_registry := identity_registry self;
          contract_addresses :=
            <["identity" := contract_address]> (contract_addresses self) |},
       contract_address)
  end.

(** [_deploy_identity_to_blockchain], lines 614-619. *)
Definition _deploy_identity_to_blockchain (identity_record : pyval)
  : result string :=
  match json_dumps_default identity_record with
  | None => Raise (Exn TypeError "Object is not JSON serializable")
  | Some text => Ok (sha256_hexdigest text)
  end.

(** The DID document of lines 348-367. *)
Definition make_did_document (did public_pem blockchain_address : string)
  : pyval :=
  PDict
    [("@context", PList [PStr "https://www.w3.org/ns/did/v1";
                         PStr "https://univo.app/did/v1"]);
     ("id", PStr did);
     ("verificationMethod",
        PList [PDict [("id", PStr (did ++ "#keys-1"));
                      ("type", PStr "RsaVerificationKey2018");
                      ("controller", PStr did);
                      ("publicKeyPem", PStr public_pem)]]);
     ("authentication", PList [PStr (did ++ "#keys-1")]);
     ("assertionMethod", PList [PStr (did ++ "#keys-1")]);
     ("service",
        PList [PDict [("id", PStr (did ++ "#univo-profile"));
                      ("type", PStr "UnivoProfile");
                      ("serviceEndpoint",
                         PStr ("https://univo.app/profiles/"
                                 ++ blockchain_address))]])].

(** The dictionary [create_identity] returns, lines 404-414. *)
Definition identity_response (now : datetime)
    (did id : string) (document : pyval) (blockchain_address public_pem : string)
  : pyval :=
  PDict [("did", PStr did);
         ("identity_id", PStr id);
         ("did_document", document);
         ("blockchain_address", PStr blockchain_address);
         ("verification_keys", PDict [("public_key", PStr public_pem)]);
         ("created_at", PStr (isoformat now))].

(** "Create blockchain account", lines 334-342. *)
Definition open_account (d : draws) (self : BlockchainService)
  : BlockchainService * (string * string) :=
  if web3_available self then
    (self, (drawn_eth_address d, drawn_account_key d))
  else
    let '(chain, account_data) :=
      create_account (drawn_account_key d) (blockchain self) in
    (with_blockchain chain self, account_data).

(** "Store on blockchain", lines 378-387. *)
Definition store_identity (now : datetime) (identity_record : pyval)
    (self : BlockchainService) : BlockchainService * result string :=
  if web3_available self then
    (self, _deploy_identity_to_blockchain identity_record)
  else
    let '(self, contract_address) := _get_identity_contract now self in
    let '(chain, stored) :=
      call_contract_store contract_address identity_record (blockchain self) in
    (with_blockchain chain self, stored).

(** [BlockchainService.create_identity], lines 310-418. The service
    object is threaded through; an exception leaves it as it was when
    the exception was raised, and is re-raised to the caller. *)
Definition create_identity (identity_data : pyval) (d : draws)
    (self : BlockchainService) : BlockchainService * result pyval :=
  let private_pem := private_bytes (drawn_key d) in
  let public_pem := public_bytes (public_key (drawn_key d)) in
  let '(self, (blockchain_address, blockchain_private_key)) :=
    open_account d self in
  let did := ("did:univo:" ++ blockchain_address)%string in
  let document := make_did_document did public_pem blockchain_address in
  let identity_record :=
    PDict [("did", PStr did);
           ("did_document", document);
           ("profile", identity_data);
           ("created_at", PStr (isoformat (now_record d)));
           ("blockchain_address", PStr blockchain_address)] in
  let '(self, stored) :=
    store_identity (now_deployed d) identity_record self in
  match stored with
  | Raise e => (self, Raise e)
  | Ok id =>
      let registry :=
        <[did := {| identity_id := id;
                    did_document := document;
                    private_key := private_pem;
                    public_key_pem := public_pem;
                    blockchain_address := blockchain_address;
                    blockchain_private_key := blockchain_private_key;
                    profile := identity_data;
                    created_at := now_registry d |}]>
          (identity_registry self) in
      let '(scores, _) :=
        calculate_reputation (now_reputation d) id (reputation_scores self) in
      ({| web3_available := web3_available self;
          blockchain := blockchain self;
          reputation_scores := scores;
          identity_registry := registry;
          contract_addresses := contract_addresses self |},
       Ok (identity_response (now_response d) did id document
             blockchain_address public_pem))
  end.

End BlockchainService.

(** *** The rest of MockBlockchain and BlockchainService *)

(** [datetime.fromisoformat]: the wall-clock instant of the text, or
    the [ValueError] raised on a text that is no ISO date. Comparing
    [utcnow().replace(tzinfo=exp_date.tzinfo)] with [exp_date] compares
    two wall-clock instants at the same offset. *)
Class Dates := {
  fromisoformat : string -> result datetime
}.

(** [s.replace('Z', '+00:00')] *)
Fixpoint replace_Z (s : string) : string :=
  match s with
  | EmptyString => EmptyString
  | String c s' =>
      if Ascii.eqb c "Z"%char then ("+00:00" ++ replace_Z s')%string
      else String c (replace_Z s')
  end.

Definition with_reputation_scores (scores : gmap string reputation)
    (self : BlockchainService) : BlockchainService :=
  {| web3_available := web3_available self;
     blockchain := blockchain self;
     reputation_scores := scores;
     identity_registry := identity_registry self;
     contract_addresses := contract_addresses self |}.


(** The dictionary [BlockchainService.update_reputation] returns. *)
Record update_response := {
  up_did : string;
  up_event_type : string;
  updated_reputation : reputation_report;
  updated_at : string
}.

(** What [issue_credential] reads from outside, in the order it does:
    the three clock readings and the salt of [create_credential], the
    instant the identity contract is deployed at if it is not yet, the
    instant of the reputation update and the one of the response. *)
Record issue_draws := {
  now_issuance : datetime;
  now_expiration : datetime;
  now_proof : datetime;
  pss_salt : string;
  now_contract : datetime;
  now_subject : datetime;
  now_issued : datetime
}.

Section BlockchainService_operations.
Context {L : Library} {D : Dates}.

(** [contract['storage'].get(key)]: the keys of the storage are the
    digests the contract made. *)
Definition storage_get (key : pyval) (storage : list (string * pyval))
  : result (option pyval) :=
  let! key := str_key key in
  Ok (key ≫= fun k => dict_get k storage).

(** [MockBlockchain.call_contract], lines 74-99. *)
Definition call_contract (contract_address method : string) (params : pyval)
    (chain : MockBlockchain) : MockBlockchain * result pyval :=
  match contracts chain !! contract_address with
  | None => (chain, Raise (Exn ValueError "Contract not found"))
  | Some contract =>
      if String.eqb method "createIdentity" then
        let '(chain, stored) :=
          call_contract_store contract_address params chain in
        (chain, let! identity_id := stored in Ok (PStr identity_id))
      else if String.eqb method "getIdentity" then
        (chain,
         let! key := subscript "identity_id" params in
         let! found := storage_get key (contract_storage contract) in
         Ok (default PNone found))
      else if String.eqb method "issueCredential" then
        let '(chain, stored) :=
          call_contract_store contract_address params chain in
        (chain, let! credential_id := stored in Ok (PStr credential_id))
      else if String.eqb method "verifyCredential" then
        (chain,
         let! key := subscript "credential_id" params in
         let! found := storage_get key (contract_storage contract) in
         let credential := default PNone found in
         Ok (PDict [("valid", PBool (match credential with
                                     | PNone => false
                                     | _ => true
                                     end));
                    ("credential", credential)]))
      else (chain, Ok PNone)
  end.

(** [_verify_on_blockchain], lines 621-625. *)
Definition _verify_on_blockchain (credential : pyval) : bool := true.

(** [_store_credential_on_blockchain], lines 627-643. *)
Definition _store_credential_on_blockchain (now : datetime)
    (credential : pyval) (self : BlockchainService)
  : BlockchainService * result string :=
  match json_dumps_default credential with
  | None => (self, Raise (Exn TypeError "Object is not JSON serializable"))
  | Some text =>
      let credential_hash := sha256_hexdigest text in
      if web3_available self then (self, Ok credential_hash)
      else
        let '(self, contract_address) := _get_identity_contract now self in
        let '(chain, called) :=
          call_contract contract_address "issueCredential"
            (PDict [("credential_hash", PStr credential_hash);
                    ("credential", credential)])
            (blockchain self) in
        (with_blockchain chain self, let! _ := called in Ok credential_hash)
  end.

(** [self.reputation.update_reputation(info['identity_id'],
    'credential_verified', ...)] where the subject is registered, lines
    455-463 and 502-508. *)
Definition credit_subject (now : datetime) (subject_info : option identity_info)
    (self : BlockchainService) : BlockchainService :=
  match subject_info with
  | Some info =>
      with_reputation_scores
        (update_reputation now (identity_id info) "credential_verified"
           (reputation_scores self)) self
  | None => self
  end.

(** [BlockchainService.issue_credential], lines 478-518. *)
Definition issue_credential (d : issue_draws)
    (issuer_did subject_did credential_type : string)
    (claims : list (string * pyval)) (self : BlockchainService)
  : BlockchainService * result pyval :=
  match identity_registry self !! issuer_did with
  | None => (self, Raise (Exn ValueError "Issuer not found"))
  | Some issuer_info =>
      let credential :=
        create_credential (now_issuance d) (now_expiration d) (now_proof d)
          (pss_salt d) issuer_did subject_did
          (dict_update [("type", PStr credential_type)] claims)
          (private_key issuer_info) in
      let '(self, stored) :=
        _store_credential_on_blockchain (now_contract d) credential self in
      match stored with
      | Raise e => (self, Raise e)
      | Ok credential_id =>
          (credit_subject (now_subject d)
             (identity_registry self !! subject_did) self,
           Ok (PDict [("credential_id", PStr credential_id);
                      ("credential", credential);
                      ("issued_at", PStr (isoformat (now_issued d)))]))
      end
  end.

(** [{'valid': False, 'reason': reason}] *)
Definition invalid (reason : string) : pyval :=
  PDict [("valid", PBool false); ("reason", PStr reason)].

(** [self.identity_registry.get(key)] *)
Definition registry_get (key : pyval) (self : BlockchainService)
  : result (option identity_info) :=
  let! key := str_key key in
  Ok (key ≫= fun did => identity_registry self !! did).

(** "Check expiration", lines 444-449: [true] when the credential has
    expired. Only a [str] has the [replace] the code calls; an object
    [json.dumps] cannot encode does not get here, the signature check
    before has encoded the credential. *)
Definition expired (now : datetime) (expiration_date : pyval) : result bool :=
  if truthy expiration_date then
    match expiration_date with
    | PStr text =>
        let! exp_date := fromisoformat (replace_Z text) in
        Ok (now >? exp_date)
    | _ =>
        Raise (Exn AttributeError
                 ("'" ++ type_name_of expiration_date
                      ++ "' object has no attribute 'replace'"))
    end
  else Ok false.

(** The outcome of the checks of [verify_credential], lines 423-449:
    an early [return], or the issuer the credential passed under. *)
Inductive checked :=
| Rejected (response : pyval)
| Passed (credential issuer_did : pyval).

Definition check_credential (now : datetime)
    (credential_data : list (string * pyval)) (self : BlockchainService)
  : result checked :=
  let! credential := subscript "credential" (PDict credential_data) in
  let! issuer_did := py_get "issuer" credential in
  let issuer_did := default PNone issuer_did in
  if negb (truthy issuer_did) then Ok (Rejected (invalid "No issuer specified"))
  else
    let! issuer_info := registry_get issuer_did self in
    match issuer_info with
    | None => Ok (Rejected (invalid "Issuer not found"))
    | Some issuer_info =>
        if negb (verify_credential credential (public_key_pem issuer_info))
        then Ok (Rejected (invalid "Invalid signature"))
        else
          let! expiration_date := py_get "expirationDate" credential in
          let! is_expired := expired now (default PNone expiration_date) in
          if is_expired then Ok (Rejected (invalid "Credential expired"))
          else Ok (Passed credential issuer_did)
    end.

(** "Update reputation for successful verification", lines 455-463:
    the subject id read from the credential and the registry entry it
    names, if any. *)
Definition subject_of (credential : pyval) (self : BlockchainService)
  : result (pyval * option identity_info) :=
  let! subject := py_get "credentialSubject" credential in
  let! subject_did := py_get "id" (default (PDict []) subject) in
  let subject_did := default PNone subject_did in
  if truthy subject_did then
    let! subject_info := registry_get subject_did self in
    Ok (subject_did, subject_info)
  else Ok (subject_did, None).

(** The body of the [try] of [BlockchainService.verify_credential],
    lines 423-472. Every exception is raised before the reputation is
    updated. *)
Definition verify_credential_body (now_check now_subject now_verified : datetime)
    (credential_data : list (string * pyval)) (self : BlockchainService)
  : result (BlockchainService * pyval) :=
  let! outcome := check_credential now_check credential_data self in
  match outcome with
  | Rejected response => Ok (self, response)
  | Passed credential issuer_did =>
      let blockchain_verification := _verify_on_blockchain credential in
      let! subject := subject_of credential self in
      let '(subject_did, subject_info) := subject in
      Ok (credit_subject now_subject subject_info self,
          PDict [("valid", PBool true);
                 ("credential", credential);
                 ("issuer_did", issuer_did);
                 ("subject_did", subject_did);
                 ("blockchain_verified", PBool blockchain_verification);
                 ("verified_at", PStr (isoformat now_verified))])
  end.

(** [BlockchainService.verify_credential], lines 420-476: an exception
    becomes a response. The request body is a dictionary, as the
    framework passes it to the handler. *)
Definition service_verify_credential
    (now_check now_subject now_verified : datetime)
    (credential_data : list (string * pyval)) (self : BlockchainService)
  : BlockchainService * pyval :=
  match verify_credential_body now_check now_subject now_verified
          credential_data self with
  | Ok (self, response) => (self, response)
  | Raise e => (self, invalid ("Verification error: " ++ exn_str e))
  end.


(** [BlockchainService.update_reputation], lines 539-566. *)
Definition service_update_reputation (now_event now_default now_updated : datetime)
    (identity_did event_type : string) (self : BlockchainService)
  : BlockchainService * result update_response :=
  match identity_registry self !! identity_did with
  | None => (self, Raise (Exn ValueError "Identity not found"))
  | Some identity_info =>
      let scores :=
        update_reputation now_event (identity_id identity_info) event_type
          (reputation_scores self) in
      let '(scores, updated) :=
        calculate_reputation now_default (identity_id identity_info) scores in
      (with_reputation_scores scores self,
       Ok {| up_did := identity_did;
             up_event_type := event_type;
             updated_reputation := updated;
             updated_at := isoformat now_updated |})
  end.

(** [BlockchainService.resolve_did], lines 568-583. *)
Definition resolve_did (now : datetime) (did : string)
    (self : BlockchainService) : pyval :=
  match identity_registry self !! did with
  | None => PDict [("found", PBool false)]
  | Some identity_info =>
      PDict [("found", PBool true);
             ("did_document", did_document identity_info);
             ("resolved_at", PStr (isoformat now))]
  end.

End BlockchainService_operations.

(** *** Vocabulary of the statements, and sample inputs *)

(** The score of the claim, written as the spec words it. *)
Definition linear_score (r : reputation) : Z :=
  Z.max 0 (Z.min 100
    (50 + Z.min (2 * meeting_count r) 30
        + 5 * (positive_feedback r - negative_feedback r)
        + Z.min (10 * credentials_verified r) 20)).

(** A small instance of the interface, to run the definitions on
    concrete inputs: a private key is a public name together with one
    secret bit, a signature is the public name followed by the message,
    base64 is the identity, and the digest adds up the character codes. *)
Definition toy_digest (s : string) : string :=
  pretty (fold_right (fun c acc => (Z.of_N (N_of_ascii c) + acc) mod 65536) 0
            (list_ascii_of_string s)).

Definition toy_library : Library := {|
  rsa_key := bool * string;
  rsa_pub := string;
  public_key := fun k => snd k;
  private_bytes := fun k =>
    String (if fst k then "1"%char else "0"%char) (snd k);
  public_bytes := fun p => p;
  load_pem_private_key := fun pem =>
    match pem with
    | String c name => Some (Ascii.eqb c "1"%char, name)
    | EmptyString => None
    end;
  load_pem_public_key := fun pem => Some pem;
  pss_sign := fun k salt m => (snd k ++ "|" ++ m)%string;
  pss_verify := fun p sig m => String.eqb sig (p ++ "|" ++ m);
  b64encode := fun b => b;
  b64decode := fun s => Some s;
  sha256_hexdigest := toy_digest;
  isoformat := fun t => pretty t
|}.

(** The claim C2 fails on: one claims dictionary on which creating and
    then verifying a credential yields [False] under every key pair of
    every implementation of the packages. *)
Definition rejected_under_every_key (claims : list (string * pyval)) : Prop :=
  forall (L : Library) (k : rsa_key) now1 now2 now3 salt issuer subject,
    verify_credential
      (create_credential now1 now2 now3 salt issuer subject claims
         (private_bytes k))
      (public_bytes (public_key k)) = false.

(** Claims [json.dumps] encodes and [sort_keys=True] does not: the
    inner dictionary [{1: 'A', 'final': 'B'}] has an [int] and a [str]
    key. *)
Definition claims_with_mixed_keys : list (string * pyval) :=
  [("grades", PDictAny [(KInt 1, PStr "A"); (KStr "final", PStr "B")])].

(** *** What an observer without the private keys sees of the service

    [public_view] blanks the private key kept with each ledger account
    and the two private keys kept with each registry entry. *)
Definition redact_account (a : account) : account :=
  {| acc_private_key := "";
     acc_balance := acc_balance a;
     acc_nonce := acc_nonce a |}.

Definition redact_info (i : identity_info) : identity_info :=
  {| identity_id := identity_id i;
     did_document := did_document i;
     private_key := "";
     public_key_pem := public_key_pem i;
     blockchain_address := blockchain_address i;
     blockchain_private_key := "";
     profile := profile i;
     created_at := created_at i |}.

Definition public_view (self : BlockchainService) : BlockchainService :=
  {| web3_available := web3_available self;
     blockchain :=
       {| accounts := redact_account <$> accounts (blockchain self);
          contracts := contracts (blockchain self) |};
     reputation_scores := reputation_scores self;
     identity_registry := redact_info <$> identity_registry self;
     contract_addresses := contract_addresses self |}.

(** The same draws with another RSA key and another account key. *)
Definition redraw {L : Library} (d : draws) (k : rsa_key)
    (account_key : string) : draws :=
  {| drawn_key := k;
     drawn_account_key := account_key;
     drawn_eth_address := drawn_eth_address d;
     now_record := now_record d;
     now_deployed := now_deployed d;
     now_registry := now_registry d;
     now_reputation := now_reputation d;
     now_response := now_response d |}.

(** The address of the account [create_identity] creates. *)
Definition account_address {L : Library} (web3 : bool) (d : draws) : string :=
  if web3 then drawn_eth_address d
  else ("0x" ++ first40 (sha256_hexdigest (drawn_account_key d)))%string.

Definition response_keys (response : pyval) : list string :=
  match response with
  | PDict items => List.map fst items
  | _ => []
  end.

Definition response_get (key : string) (response : pyval) : option pyval :=
  match response with
  | PDict items => dict_get key items
  | _ => None
  end.

(** The service with another account table. *)
Definition with_accounts (accs : gmap string account)
    (self : BlockchainService) : BlockchainService :=
  with_blockchain
    {| accounts := accs; contracts := contracts (blockchain self) |} self.

(** The claim C9 fails on: on the mock ledger the account's private key
    ends up in the ledger's account table, outside the registry. *)
Definition account_key_kept_in_ledger (data : pyval) : Prop :=
  forall (L : Library) (d : draws) (self : BlockchainService),
    web3_available self = false ->
    exists address acc,
      accounts (blockchain (fst (create_identity data d self))) !! address
      = Some acc /\
      acc_private_key acc = drawn_account_key d.

(** Two runs on the mock ledger that differ in the secret bit of the
    RSA key and in the account key ("ab" and "ba" have the same digest
    under [toy_digest]). *)
Definition sample_profile : pyval :=
  PDict [("name", PStr "Ada"); ("age", PInt 36)].

Definition toy_key (secret : bool) (name : string) : @rsa_key toy_library :=
  (secret, name).

Definition sample_draws : @draws toy_library :=
  @Draws toy_library (toy_key true "alice") "ab" "0xe7h" 1 2 3 4 5.

(** The calls made on a [ReputationSystem], each with the instant the
    clock shows during the call. *)
Inductive reputation_call :=
| Calculate (now : datetime) (identity_id : string)
| Update (now : datetime) (identity_id event_type : string).

Definition run_call (call : reputation_call) (scores : gmap string reputation)
  : gmap string reputation :=
  match call with
  | Calculate now identity_id => fst (calculate_reputation now identity_id scores)
  | Update now identity_id event_type =>
      update_reputation now identity_id event_type scores
  end.

Definition run_calls (calls : list reputation_call)
    (scores : gmap string reputation) : gmap string reputation :=
  fold_left (fun scores call => run_call call scores) calls scores.

(** The number of [Update] calls of one event type for one identity. *)
Definition is_event (identity_id event_type : string) (call : reputation_call)
  : bool :=
  match call with
  | Update _ id e => String.eqb id identity_id && String.eqb e event_type
  | Calculate _ _ => false
  end.

Definition events (identity_id event_type : string)
    (calls : list reputation_call) : Z :=
  Z.of_nat (length (List.filter (is_event identity_id event_type) calls)).







(** Dates written as the decimal number of the instant, for
    [toy_library]: the digits up to the sign of the offset. *)
Fixpoint toy_instant (acc : Z) (s : string) : result datetime :=
  match s with
  | EmptyString => Ok acc
  | String c s' =>
      let n := Z.of_N (N_of_ascii c) in
      if (48 <=? n) && (n <=? 57) then toy_instant (10 * acc + (n - 48)) s'
      else if Ascii.eqb c "+"%char then Ok acc
      else Raise (Exn ValueError "Invalid isoformat string")
  end.

Definition toy_dates : Dates :=
  {| fromisoformat := fun s =>
       match s with
       | EmptyString => Raise (Exn ValueError "Invalid isoformat string")
       | _ => toy_instant 0 s
       end |}.

Definition sample_issue_draws : issue_draws :=
  {| now_issuance := 10; now_expiration := 11; now_proof := 12;
     pss_salt := "salt"; now_contract := 13; now_subject := 14;
     now_issued := 15 |}.

(** The service after one identity was created on the mock ledger. *)
Definition sample_service : BlockchainService :=
  fst (create_identity (L := toy_library) sample_profile sample_draws
         (new_service false)).

(** What [create_identity] answered when [sample_service] was made,
    and a credential that identity issues to itself. *)
Definition sample_response : pyval :=
  match snd (create_identity (L := toy_library) sample_profile sample_draws
               (new_service false)) with
  | Ok response => response
  | Raise _ => PNone
  end.

Definition sample_did : string := "did:univo:0x195".

Definition sample_credential : pyval :=
  match snd (issue_credential (L := toy_library) sample_issue_draws
               sample_did sample_did "Degree" [("year", PInt 2024)]
               sample_service) with
  | Ok (PDict items) => default PNone (dict_get "credential" items)
  | _ => PNone
  end.



End blockchain_service.

Module quantum_service.

(** *** Numbers as text: [int(s, 2)], [hex(n)[2:]], [str.zfill] *)

(** [hex(n)[2:]] for [n >= 0]: the digits, least significant first.
    A number of [b] bits has at most [b] hexadecimal digits. *)
Fixpoint hex_le (fuel : nat) (n : N) : list N :=
  match fuel with
  | O => []
  | S fuel' =>
      if (n =? 0)%N then [] else (n mod 16)%N :: hex_le fuel' (n / 16)%N
  end.

Definition py_hex (n : N) : string :=
  if (n =? 0)%N then "0"
  else string_of_list_ascii
         (List.map hex_digit (List.rev (hex_le (N.to_nat (N.size n)) n))).

(** [s.zfill(width)] for a string without a sign. *)
Definition zfill (width : Z) (s : string) : string :=
  (string_of_list_ascii
     (List.repeat "0"%char (Z.to_nat width - String.length s)) ++ s)%string.

(** [int(s, 2)] on a string of the characters 0 and 1; the empty
    string is not a literal. *)
Definition binary_digit (c : ascii) : option N :=
  if Ascii.eqb c "0"%char then Some 0%N
  else if Ascii.eqb c "1"%char then Some 1%N
  else None.

Fixpoint int_base2_go (acc : N) (s : string) : option N :=
  match s with
  | EmptyString => Some acc
  | String c s' =>
      match binary_digit c with
      | Some d => int_base2_go (2 * acc + d)%N s'
      | None => None
      end
  end.

Definition int_base2 (s : string) : result N :=
  match s with
  | EmptyString =>
      Raise (Exn ValueError "invalid literal for int() with base 2: ''")
  | _ =>
      match int_base2_go 0 s with
      | Some n => Ok n
      | None => Raise (Exn ValueError "invalid literal for int() with base 2")
      end
  end.

(** [secrets.token_hex(nbytes)]: two digits for each random byte;
    a negative count makes [os.urandom] raise. *)
Definition byte_hex (b : ascii) : list ascii :=
  [hex_digit (N_of_ascii b / 16); hex_digit (N_of_ascii b mod 16)].

Definition token_hex (random_byte : nat -> ascii) (nbytes : Z) : result string :=
  if nbytes <? 0 then Raise (Exn ValueError "negative argument not allowed")
  else Ok (string_of_list_ascii
             (List.flat_map (fun i => byte_hex (random_byte i))
                (seq 0 (Z.to_nat nbytes)))).

(** *** QuantumKeyDistribution *)

(** [l[:stop]] *)
Definition slice_to {A} (stop : Z) (l : list A) : list A :=
  if 0 <=? stop then firstn (Z.to_nat stop) l
  else firstn (length l - Z.to_nat (- stop)) l.

(** [secrets.randbelow(2) for _ in range(n)], from the [start]-th draw
    on; a draw is 0 or 1, kept as a [bool]. *)
Definition randbelow2 (coin : nat -> bool) (start : nat) (n : Z) : list bool :=
  List.map coin (seq start (Z.to_nat n)).

(** The one-qubit circuit of lines 57-75 run for one shot: X on a 1
    bit, H on Alice's diagonal basis, H on Bob's, measurement. With
    equal bases the qubit is back in its prepared state; otherwise the
    outcome is the simulator's [shot]. *)
Definition measure (bit alice_basis bob_basis shot : bool) : bool :=
  if Bool.eqb alice_basis bob_basis then bit else shot.

Definition measured (shot : nat -> bool)
    (alice_bits alice_bases bob_bases : list bool) : list bool :=
  List.map
    (fun i => measure (nth i alice_bits false) (nth i alice_bases false)
                (nth i bob_bases false) (shot i))
    (seq 0 (length alice_bits)).

(** "Sift key (keep bits where bases match)", lines 78-81: the loop
    over [range(len(alice_bits))] appends [alice_bits[i]] where
    [alice_bases[i] == bob_bases[i]]. The three lists have one
    length, so no index is out of range. *)
Definition sift (alice_bits alice_bases bob_bases : list bool) : list bool :=
  List.flat_map
    (fun i =>
       if Bool.eqb (nth i alice_bases false) (nth i bob_bases false)
       then [nth i alice_bits false] else [])
    (seq 0 (length alice_bits)).

Definition str_of_bit (b : bool) : ascii := if b then "1"%char else "0"%char.

(** [generate_bb84_key], lines 40-87. [qiskit_available] is the module
    flag; [coin] gives the draws of [secrets.randbelow(2)] in order,
    [shot] the simulator's outcomes and [random_byte] the bytes behind
    [secrets.token_hex]. *)
Definition generate_bb84_key (qiskit_available : bool)
    (coin shot : nat -> bool) (random_byte : nat -> ascii) (key_length : Z)
  : result (string * list bool * list bool) :=
  if negb qiskit_available then
    let! key := token_hex random_byte (key_length / 8) in
    Ok (key, [], [])
  else
    let n := Z.to_nat (key_length * 2) in
    let alice_bits := randbelow2 coin 0 (key_length * 2) in
    let alice_bases := randbelow2 coin n (key_length * 2) in
    let bob_bases := randbelow2 coin (n + n) (key_length * 2) in
    let measured_bits := measured shot alice_bits alice_bases bob_bases in
    let sifted_key := sift alice_bits alice_bases bob_bases in
    let key_string :=
      string_of_list_ascii
        (List.map str_of_bit (slice_to key_length sifted_key)) in
    let! value := int_base2 key_string in
    let key_hex := zfill (key_length / 4) (py_hex value) in
    Ok (key_hex, alice_bases, bob_bases).

(** *** PostQuantumCrypto

    NumPy arrays are lists; the integer arrays are [int64] (draws,
    keys, the ciphertext before its cast) or [int32] and [uint32] with
    the casts written out. No operation below leaves the [int64]
    range. A byte is an [ascii]. *)
Definition lattice_dimension : nat := 512.
Definition modulus : Z := 2 ^ 32 - 1.

Record lattice_public := {
  pub_coefficients : list Z;
  pub_dimension : nat;
  pub_modulus : Z
}.

Record lattice_private := {
  priv_coefficients : list Z;
  priv_dimension : nat
}.

(** [generate_lattice_keypair], lines 96-121, on its two draws. *)
Definition generate_lattice_keypair (private_key noise : list Z)
  : lattice_public * lattice_private :=
  let public_key :=
    zip_with (fun sk e => (sk * 3 + e) mod modulus) private_key noise in
  ({| pub_coefficients := public_key;
      pub_dimension := lattice_dimension;
      pub_modulus := modulus |},
   {| priv_coefficients := private_key;
      priv_dimension := lattice_dimension |}).

(** [ndarray.astype(np.uint32).tobytes()] and [np.frombuffer(_,
    dtype=np.uint32)] on a little-endian machine. *)
Definition byte_of_Z (z : Z) : ascii := ascii_of_N (Z.to_N (z mod 256)).
Definition Z_of_byte (b : ascii) : Z := Z.of_N (N_of_ascii b).

Definition uint32_tobytes (w : Z) : list ascii :=
  let w := w mod 2 ^ 32 in
  [byte_of_Z w; byte_of_Z (w / 2 ^ 8); byte_of_Z (w / 2 ^ 16);
   byte_of_Z (w / 2 ^ 24)].

Fixpoint frombuffer_uint32 (buffer : list ascii) : result (list Z) :=
  match buffer with
  | [] => Ok []
  | b0 :: b1 :: b2 :: b3 :: rest =>
      let! words := frombuffer_uint32 rest in
      Ok (Z_of_byte b0 + 2 ^ 8 * Z_of_byte b1 + 2 ^ 16 * Z_of_byte b2
          + 2 ^ 24 * Z_of_byte b3 :: words)
  | _ =>
      Raise (Exn ValueError "buffer size must be a multiple of element size")
  end.

(** [astype(np.int32)] of a [uint32] *)
Definition int32_of_uint32 (w : Z) : Z :=
  if w <? 2 ^ 31 then w else w - 2 ^ 32.

(** NumPy broadcasting of the key against the 512 coefficients. *)
Definition broadcast (coeffs : list Z) : result (list Z) :=
  if (length coeffs =? lattice_dimension)%nat then Ok coeffs
  else match coeffs with
       | [c] => Ok (List.repeat c lattice_dimension)
       | _ => Raise (Exn ValueError "operands could not be broadcast together")
       end.

(** [lattice_encrypt], lines 123-143; [noise] is the draw of
    [np.random.randint(-5, 6, lattice_dimension)]. *)
Definition lattice_encrypt (noise : list Z) (message : list ascii)
    (public_key : lattice_public) : result (list ascii) :=
  let public_coeffs := pub_coefficients public_key in
  let message_poly := List.map Z_of_byte message in
  if (lattice_dimension <? length message_poly)%nat then
    Raise (Exn ValueError "Message too long for lattice dimension")
  else
    let padded_message :=
      message_poly
        ++ List.repeat 0 (lattice_dimension - length message_poly) in
    let! public_coeffs := broadcast public_coeffs in
    let ciphertext :=
      zip_with (fun m rp => (m + rp) mod modulus) padded_message
        (zip_with Z.mul noise public_coeffs) in
    Ok (List.flat_map uint32_tobytes ciphertext).

(** The index of the first zero: [np.where(decrypted == 0)[0][0]]. *)
Fixpoint first_zero (l : list Z) : option nat :=
  match l with
  | [] => None
  | x :: l' => if x =? 0 then Some O else S <$> first_zero l'
  end.

(** [lattice_decrypt], lines 145-166. The private key is converted to
    an array and not used. *)
Definition lattice_decrypt (ciphertext : list ascii)
    (private_key : lattice_private) : result (list ascii) :=
  let private_coeffs := priv_coefficients private_key in
  let! words := frombuffer_uint32 ciphertext in
  let cipher_poly := List.map int32_of_uint32 words in
  let decrypted := List.map (fun c => c mod 256) cipher_poly in
  let message_bytes := List.map byte_of_Z decrypted in
  match first_zero decrypted with
  | Some end_idx => Ok (firstn end_idx message_bytes)
  | None => Ok message_bytes
  end.

(** *** QuantumCryptographyService

    [bytes.fromhex]: two hexadecimal digits of either case for each
    byte, ASCII whitespace skipped between the bytes. *)
Definition is_ascii_space (c : ascii) : bool :=
  let n := N_of_ascii c in (((9 <=? n) && (n <=? 13)) || (n =? 32))%N.

Definition hex_nibble (c : ascii) : option Z :=
  let n := Z.of_N (N_of_ascii c) in
  if (48 <=? n) && (n <=? 57) then Some (n - 48)
  else if (97 <=? n) && (n <=? 102) then Some (n - 87)
  else if (65 <=? n) && (n <=? 70) then Some (n - 55)
  else None.

Fixpoint fromhex_chars (s : list ascii) : result (list ascii) :=
  match s with
  | [] => Ok []
  | c :: rest =>
      if is_ascii_space c then fromhex_chars rest
      else
        match hex_nibble c, rest with
        | Some high, c' :: rest' =>
            match hex_nibble c' with
            | Some low =>
                let! bytes := fromhex_chars rest' in
                Ok (byte_of_Z (16 * high + low) :: bytes)
            | None =>
                Raise (Exn ValueError
                         "non-hexadecimal number found in fromhex() arg")
            end
        | _, _ =>
            Raise (Exn ValueError
                     "non-hexadecimal number found in fromhex() arg")
        end
  end.

Definition fromhex (s : string) : result (list ascii) :=
  fromhex_chars (list_ascii_of_string s).

(** [os.urandom(n)], from the bytes the system gives. *)
Definition urandom (random_byte : nat -> ascii) (n : nat) : list ascii :=
  List.map random_byte (seq 0 n).

(** The packages behind the encryption: AES in CBC mode on whole
    blocks ([cryptography]), the UTF-8 codec of [str] and [base64]. A
    [str] is a [text]; [base64.b64encode(...).decode()] is one. *)
Class Codec := {
  text : Type;
  aes_cbc_encrypt : list ascii -> list ascii -> list ascii -> list ascii;
  aes_cbc_decrypt : list ascii -> list ascii -> list ascii -> list ascii;
  utf8_encode : text -> result (list ascii);
  utf8_decode : list ascii -> result text;
  b64encode_text : list ascii -> text;
  b64decode_text : text -> result (list ascii);
  isoformat : Z -> text
}.

(** What the packages document: under a key of 16, 24 or 32 bytes and
    an IV of 16 bytes, CBC maps whole blocks to as many bytes and
    deciphering undoes enciphering; decoding undoes encoding. *)
Definition aes_key (key : list ascii) : Prop :=
  length key = 16%nat \/ length key = 24%nat \/ length key = 32%nat.

Class CodecLaws (C : Codec) : Prop := {
  aes_cbc_length :
    forall key iv data, length (aes_cbc_encrypt key iv data) = length data;
  aes_cbc_decrypt_encrypt :
    forall key iv data,
      aes_key key -> length iv = 16%nat -> (length data mod 16 = 0)%nat ->
      aes_cbc_decrypt key iv (aes_cbc_encrypt key iv data) = data;
  utf8_decode_encode :
    forall message bytes,
      utf8_encode message = Ok bytes -> utf8_decode bytes = Ok message;
  b64decode_b64encode_text :
    forall bytes, b64decode_text (b64encode_text bytes) = Ok bytes
}.

(** [algorithms.AES(key)] accepts keys of 128, 192 and 256 bits (a key
    here has at most 32 bytes). *)
Definition check_key (key : list ascii) : result unit :=
  if ((length key =? 16) || (length key =? 24) || (length key =? 32))%nat
  then Ok tt
  else Raise (Exn ValueError "Invalid key size for AES.").

(** [Cipher(algorithm, modes.CBC(iv))] checks the IV against the block
    size. *)
Definition check_iv (iv : list ascii) : result unit :=
  if (length iv =? 16)%nat then Ok tt
  else Raise (Exn ValueError "Invalid IV size for CBC.").

Section aes.
Context {C : Codec}.

(** [_aes_encrypt], lines 481-501; [random_byte] gives the bytes of
    [os.urandom(16)]. *)
Definition _aes_encrypt (random_byte : nat -> ascii) (data : list ascii)
    (key_hex : string) : result (list ascii) :=
  let! key_bytes := fromhex key_hex in
  let key := firstn 32 key_bytes in
  let iv := urandom random_byte 16 in
  let! _ := check_key key in
  let! _ := check_iv iv in
  let padding_length := (16 - length data mod 16)%nat in
  let padded_data :=
    data ++ List.repeat (byte_of_Z (Z.of_nat padding_length)) padding_length in
  let ciphertext := aes_cbc_encrypt key iv padded_data in
  Ok (iv ++ ciphertext).

(** [_aes_decrypt], lines 503-523. [finalize] raises on a ciphertext
    that is not whole blocks; [padded_data[-1]] raises on an empty one;
    [padded_data[:-n]] is empty for [n = 0] and for [n] past the
    length. *)
Definition _aes_decrypt (encrypted_data : list ascii) (key_hex : string)
  : result (list ascii) :=
  let! key_bytes := fromhex key_hex in
  let key := firstn 32 key_bytes in
  let iv := firstn 16 encrypted_data in
  let ciphertext := skipn 16 encrypted_data in
  let! _ := check_key key in
  let! _ := check_iv iv in
  if negb (length ciphertext mod 16 =? 0)%nat then
    Raise (Exn ValueError
             "The length of the provided data is not a multiple of the block length.")
  else
    let padded_data := aes_cbc_decrypt key iv ciphertext in
    match last padded_data with
    | None => Raise (Exn IndexError "index out of range")
    | Some final =>
        let padding_length := Z.to_nat (Z_of_byte final) in
        Ok (if (padding_length =? 0)%nat then []
            else firstn (length padded_data - padding_length) padded_data)
    end.

End aes.

(** The value of ['keys'] in an entry of [key_cache]: the result
    dictionary of [generate_keys], by its ['key_type']. *)
Inductive cached_keys :=
| QuantumKeys (quantum_key : string) (alice_bases bob_bases : list bool)
| PostQuantumKeys (public_key : lattice_public) (private_key : lattice_private)
| HybridKeys (quantum_key : string) (alice_bases bob_bases : list bool)
    (public_key : lattice_public) (private_key : lattice_private).

Definition key_type_of (keys : cached_keys) : string :=
  match keys with
  | QuantumKeys _ _ _ => "quantum"
  | PostQuantumKeys _ _ => "post_quantum"
  | HybridKeys _ _ _ _ _ => "hybrid"
  end.

Definition security_level_of (keys : cached_keys) : string :=
  match keys with
  | QuantumKeys _ _ _ => "quantum_secure"
  | PostQuantumKeys _ _ => "post_quantum_secure"
  | HybridKeys _ _ _ _ _ => "hybrid_quantum_secure"
  end.

(** One entry of [key_cache]. *)
Record cache_entry := {
  keys : cached_keys;
  cached_at : Z;
  expires_at : Z
}.

(** The dictionary [establish_secure_channel] returns and keeps under
    ['info']. *)
Record channel_info := {
  info_channel_id : string;
  info_participants : pyval;
  info_security_level : string;
  established_at : Z;
  info_expires_at : Z;
  info_key_type : string;
  info_key_security_level : string
}.

(** One entry of [active_channels]. [generate_keys] writes
    ['created_at'], ['key_type'], ['participants'] and
    ['message_count']; [establish_secure_channel] replaces the entry by
    one with ['info'], ['created_at'], ['participants'] and
    ['message_count']. A key the entry does not have is [None]. *)
Record channel := {
  created_at : Z;
  channel_key_type : option string;
  participants : pyval;
  message_count : Z;
  info : option channel_info
}.

(** The service object; [qiskit_available] is the module flag. *)
Record QuantumCryptographyService := {
  qiskit_available : bool;
  active_channels : gmap string channel;
  key_cache : gmap string cache_entry
}.

(** [QuantumCryptographyService.__init__] *)
Definition new_service (qiskit : bool) : QuantumCryptographyService :=
  {| qiskit_available := qiskit; active_channels := ∅; key_cache := ∅ |}.

(** A request to [generate_keys]; an entry the request does not have
    is [None]. The channel id of a request is a [str], as the ids the
    service draws are, and its length an [int]. *)
Record key_request := {
  request_type : option string;
  request_length : option Z;
  request_channel_id : option string
}.

(** What one call of [generate_keys] draws from outside: the bytes of
    [secrets.token_hex(16)], the draws of [generate_bb84_key], the two
    draws of [generate_lattice_keypair], and the clock readings in the
    order they are taken. *)
Record key_draws := {
  channel_bytes : nat -> ascii;
  coin : nat -> bool;
  shot : nat -> bool;
  key_bytes : nat -> ascii;
  drawn_private : list Z;
  drawn_noise : list Z;
  now_cached : Z;
  now_expiry : Z;
  now_channel : Z;
  now_created : Z
}.

Definition one_day : Z := 24 * 3600 * 1000000.

(** The keys [generate_keys] makes for a key type, lines 196-241. *)
Definition make_keys (qiskit : bool) (d : key_draws) (key_type : string)
    (key_length : Z) : result cached_keys :=
  if String.eqb key_type "quantum" then
    let! generated :=
      generate_bb84_key qiskit (coin d) (shot d) (key_bytes d) key_length in
    let '(quantum_key, alice_bases, bob_bases) := generated in
    Ok (QuantumKeys quantum_key alice_bases bob_bases)
  else if String.eqb key_type "post_quantum" then
    let '(public_key, private_key) :=
      generate_lattice_keypair (drawn_private d) (drawn_noise d) in
    Ok (PostQuantumKeys public_key private_key)
  else
    let! generated :=
      generate_bb84_key qiskit (coin d) (shot d) (key_bytes d) key_length in
    let '(quantum_key, alice_bases, bob_bases) := generated in
    let '(public_key, private_key) :=
      generate_lattice_keypair (drawn_private d) (drawn_noise d) in
    Ok (HybridKeys quantum_key alice_bases bob_bases public_key private_key).

(** The dictionary [generate_keys] returns: the channel id, the keys
    and ['created_at']. *)
Record generated_keys := {
  gk_channel_id : string;
  gk_keys : cached_keys;
  gk_created_at : Z
}.

(** [generate_keys], lines 189-263. The default of
    [key_request.get('channel_id', secrets.token_hex(16))] is drawn
    whether or not the request has an id. *)
Definition generate_keys (d : key_draws) (request : key_request)
    (self : QuantumCryptographyService)
  : QuantumCryptographyService * result generated_keys :=
  let key_type := default "hybrid"%string (request_type request) in
  let key_length := default 256 (request_length request) in
  match token_hex (channel_bytes d) 16 with
  | Raise e => (self, Raise e)
  | Ok drawn_id =>
      let channel_id := default drawn_id (request_channel_id request) in
      match make_keys (qiskit_available self) d key_type key_length with
      | Raise e => (self, Raise e)
      | Ok result =>
          ({| qiskit_available := qiskit_available self;
              active_channels :=
                <[channel_id := {| created_at := now_channel d;
                                   channel_key_type := Some key_type;
                                   participants := PList [];
                                   message_count := 0;
                                   info := None |}]> (active_channels self);
              key_cache :=
                <[channel_id := {| keys := result;
                                   cached_at := now_cached d;
                                   expires_at := now_expiry d + one_day |}]>
                  (key_cache self) |},
           Ok {| gk_channel_id := channel_id;
                 gk_keys := result;
                 gk_created_at := now_created d |})
      end
  end.

(** "Update channel stats", lines 319-321. *)
Definition count_message (channel_id : string)
    (self : QuantumCryptographyService) : QuantumCryptographyService :=
  match active_channels self !! channel_id with
  | Some ch =>
      {| qiskit_available := qiskit_available self;
         active_channels :=
           <[channel_id := {| created_at := created_at ch;
                              channel_key_type := channel_key_type ch;
                              participants := participants ch;
                              message_count := message_count ch + 1;
                              info := info ch |}]> (active_channels self);
         key_cache := key_cache self |}
  | None => self
  end.

Section QuantumCryptographyService.
Context {C : Codec}.

(** The dictionary [encrypt_data] returns. *)
Record encrypted := {
  enc_channel_id : string;
  encrypted_data : text;
  encryption_method : string;
  enc_security_level : string;
  encrypted_at : text
}.

(** The dictionary [decrypt_data] returns. *)
Record decrypted := {
  dec_channel_id : string;
  decrypted_message : text;
  decrypted_at : text
}.

(** The three ways of [encrypt_data], lines 277-317; [iv_bytes] are
    the bytes of [os.urandom] and [noise] the draw of
    [lattice_encrypt]. *)
Definition encrypt_with (iv_bytes : nat -> ascii) (noise : list Z)
    (message : list ascii) (cached : cached_keys)
  : result (list ascii * string) :=
  match cached with
  | QuantumKeys quantum_key _ _ =>
      let! encrypted_data := _aes_encrypt iv_bytes message quantum_key in
      Ok (encrypted_data, "AES_with_quantum_key"%string)
  | PostQuantumKeys public_key _ =>
      let! encrypted_data := lattice_encrypt noise message public_key in
      Ok (encrypted_data, "lattice_based"%string)
  | HybridKeys quantum_key _ _ pq_public_key _ =>
      let! pq_encrypted := lattice_encrypt noise message pq_public_key in
      let! final_encrypted := _aes_encrypt iv_bytes pq_encrypted quantum_key in
      Ok (final_encrypted, "hybrid_double_encryption"%string)
  end.

(** [encrypt_data], lines 265-328, on a request with a [str] channel
    id and a [str] message. *)
Definition encrypt_data (iv_bytes : nat -> ascii) (noise : list Z) (now : Z)
    (channel_id : string) (message : text)
    (self : QuantumCryptographyService)
  : QuantumCryptographyService * result encrypted :=
  match utf8_encode message with
  | Raise e => (self, Raise e)
  | Ok message =>
      match key_cache self !! channel_id with
      | None =>
          (self, Raise (Exn ValueError "Channel not found or keys expired"))
      | Some entry =>
          match encrypt_with iv_bytes noise message (keys entry) with
          | Raise e => (self, Raise e)
          | Ok (encrypted_data, method) =>
              (count_message channel_id self,
               Ok {| enc_channel_id := channel_id;
                     encrypted_data := b64encode_text encrypted_data;
                     encryption_method := method;
                     enc_security_level := security_level_of (keys entry);
                     encrypted_at := isoformat now |})
          end
      end
  end.

(** The three ways of [decrypt_data], lines 342-361. *)
Definition decrypt_with (encrypted_data : list ascii) (cached : cached_keys)
  : result (list ascii) :=
  match cached with
  | QuantumKeys quantum_key _ _ => _aes_decrypt encrypted_data quantum_key
  | PostQuantumKeys _ private_key => lattice_decrypt encrypted_data private_key
  | HybridKeys quantum_key _ _ _ pq_private_key =>
      let! pq_encrypted := _aes_decrypt encrypted_data quantum_key in
      lattice_decrypt pq_encrypted pq_private_key
  end.

(** [decrypt_data], lines 330-371. *)
Definition decrypt_data (now : Z) (channel_id : string) (encrypted_data : text)
    (self : QuantumCryptographyService) : result decrypted :=
  let! encrypted_data := b64decode_text encrypted_data in
  match key_cache self !! channel_id with
  | None => Raise (Exn ValueError "Channel not found or keys expired")
  | Some entry =>
      let! decrypted_data := decrypt_with encrypted_data (keys entry) in
      let! decrypted_message := utf8_decode decrypted_data in
      Ok {| dec_channel_id := channel_id;
            decrypted_message := decrypted_message;
            decrypted_at := isoformat now |}
  end.

End QuantumCryptographyService.

(** A request to [establish_secure_channel]: [participants] is the
    value of [channel_request.get('participants', [])]. *)
Record channel_request := {
  request_participants : pyval;
  request_security_level : option string
}.

(** [establish_secure_channel], lines 373-416. [d] holds the draws of
    the [generate_keys] call, [id_bytes] the bytes of the channel id. *)
Definition establish_secure_channel (id_bytes : nat -> ascii) (d : key_draws)
    (now_established now_expires now_stored : Z) (request : channel_request)
    (self : QuantumCryptographyService)
  : QuantumCryptographyService * result channel_info :=
  let participants := request_participants request in
  let security_level :=
    default "hybrid"%string (request_security_level request) in
  match token_hex id_bytes 16 with
  | Raise e => (self, Raise e)
  | Ok channel_id =>
      let '(self, generated) :=
        generate_keys d
          {| request_type := Some security_level;
             request_length := Some 256;
             request_channel_id := Some channel_id |} self in
      match generated with
      | Raise e => (self, Raise e)
      | Ok generated =>
          let channel_info :=
            {| info_channel_id := channel_id;
               info_participants := participants;
               info_security_level := security_level;
               established_at := now_established;
               info_expires_at := now_expires + one_day;
               info_key_type := key_type_of (gk_keys generated);
               info_key_security_level :=
                 security_level_of (gk_keys generated) |} in
          ({| qiskit_available := qiskit_available self;
              active_channels :=
                <[channel_id := {| created_at := now_stored;
                                   channel_key_type := None;
                                   participants := participants;
                                   message_count := 0;
                                   info := Some channel_info |}]>
                  (active_channels self);
              key_cache := key_cache self |},
           Ok channel_info)
      end
  end.

(** [len(v)] *)
Definition py_len (v : pyval) : result Z :=
  match v with
  | PStr s => Ok (Z.of_nat (String.length s))
  | PList items => Ok (Z.of_nat (length items))
  | PDict items => Ok (Z.of_nat (length items))
  | PDictAny items => Ok (Z.of_nat (length items))
  | _ => Raise (Exn TypeError "object has no len()")
  end.

(** The dictionary [_calculate_security_metrics] returns. *)
Record security_metrics := {
  quantum_bit_error_rate : float;
  key_generation_rate : Z;
  security_parameter : Z;
  channel_efficiency : float;
  eavesdropping_detected : bool;
  last_verification : Z
}.

(** [_calculate_security_metrics], lines 525-544. *)
#[local] Set Warnings "-inexact-float".
Definition _calculate_security_metrics (now : Z) (ch : channel)
  : security_metrics :=
  let degraded := 1000 <? message_count ch in
  {| quantum_bit_error_rate :=
       if degraded then (0.01 + 0.005)%float else 0.01%float;
     key_generation_rate := 1000;
     security_parameter := 128;
     channel_efficiency :=
       if degraded then (0.95 - 0.02)%float else 0.95%float;
     eavesdropping_detected := false;
     last_verification := now |}.
#[local] Set Warnings "inexact-float".

(** The dictionary [get_channel_status] returns for a channel it
    finds. *)
Record channel_status := {
  status_channel_id : string;
  status_created_at : Z;
  status_message_count : Z;
  status_participants : Z;
  status_key_type : string;
  status_security_metrics : security_metrics;
  status_expires_at : option Z
}.

(** [get_channel_status], lines 418-443: [None] is
    [{'status': 'not_found'}]. The entries of the result are evaluated
    in the order they are written. *)
Definition get_channel_status (now : Z) (channel_id : string)
    (self : QuantumCryptographyService) : result (option channel_status) :=
  match active_channels self !! channel_id with
  | None => Ok None
  | Some ch =>
      let cached_keys := key_cache self !! channel_id in
      let security_metrics := _calculate_security_metrics now ch in
      let! participants := py_len (participants ch) in
      match channel_key_type ch with
      | None => Raise (Exn KeyError "'key_type'")
      | Some key_type =>
          Ok (Some {| status_channel_id := channel_id;
                      status_created_at := created_at ch;
                      status_message_count := message_count ch;
                      status_participants := participants;
                      status_key_type := key_type;
                      status_security_metrics := security_metrics;
                      status_expires_at := expires_at <$> cached_keys |})
      end
  end.

(** [cleanup_expired_channels], lines 589-603: the channels whose keys
    have expired leave the cache and the active channels. *)
Definition is_expired (current_time : Z) (entry : cache_entry) : bool :=
  expires_at entry <? current_time.

Definition cleanup_expired_channels (current_time : Z)
    (self : QuantumCryptographyService) : QuantumCryptographyService :=
  let expired_channels :=
    List.map fst
      (List.filter (fun item => is_expired current_time (snd item))
         (map_to_list (key_cache self))) in
  fold_left
    (fun self channel_id =>
       {| qiskit_available := qiskit_available self;
          active_channels := delete channel_id (active_channels self);
          key_cache := delete channel_id (key_cache self) |})
    expired_channels self.

(** *** Vocabulary of the statements, and sample inputs *)

(** [int(s, 16)] on lower-case digits, to read a key back. *)
Definition hex_value_of_digit (c : ascii) : option N :=
  let n := N_of_ascii c in
  if ((48 <=? n) && (n <=? 57))%N then Some (n - 48)%N
  else if ((97 <=? n) && (n <=? 102))%N then Some (n - 87)%N
  else None.

Fixpoint hex_value_go (acc : N) (s : string) : option N :=
  match s with
  | EmptyString => Some acc
  | String c s' =>
      match hex_value_of_digit c with
      | Some d => hex_value_go (16 * acc + d)%N s'
      | None => None
      end
  end.

Definition hex_value (s : string) : option N :=
  match s with
  | EmptyString => None
  | _ => hex_value_go 0 s
  end.

(** The number a list of bits writes, most significant bit first. *)
Definition bits_value (bits : list bool) : N :=
  fold_left (fun acc (b : bool) => (2 * acc + if b then 1 else 0)%N) bits 0%N.

Definition coin_of (l : list bool) (i : nat) : bool := nth i l false.

(** The sifted key in the words of the claim: Alice's bits at the
    positions where her basis and Bob's coincide, in order. The three
    lists are walked side by side. *)
Fixpoint bits_at_coinciding_bases (alice_bits alice_bases bob_bases : list bool)
  : list bool :=
  match alice_bits, alice_bases, bob_bases with
  | bit :: bits, alice_basis :: alice, bob_basis :: bob =>
      if Bool.eqb alice_basis bob_basis
      then bit :: bits_at_coinciding_bases bits alice bob
      else bits_at_coinciding_bases bits alice bob
  | _, _, _ => []
  end.

(** [np.random.randint(low, high, lattice_dimension)]: what a draw is. *)
Definition randint_draw (low high : Z) (draw : list Z) : Prop :=
  length draw = lattice_dimension /\ Forall (fun x => low <= x < high) draw.

(** Encrypting and then decrypting, as [encrypt_data] followed by
    [decrypt_data] do on a post-quantum channel. *)
Definition lattice_round_trip (noise : list Z) (message : list ascii)
    (keys : lattice_public * lattice_private) : result (list ascii) :=
  let! ciphertext := lattice_encrypt noise message (fst keys) in
  lattice_decrypt ciphertext (snd keys).

Definition NUL : ascii := "000"%char.

(** A small instance of the packages, to run the definitions: a text
    is a byte string, the UTF-8 codec and base64 are the identity, and
    the block cipher reverses the data. *)
Definition toy_codec : Codec :=
  {| text := string;
     aes_cbc_encrypt := fun key iv data => rev data;
     aes_cbc_decrypt := fun key iv data => rev data;
     utf8_encode := fun message => Ok (list_ascii_of_string message);
     utf8_decode := fun bytes => Ok (string_of_list_ascii bytes);
     b64encode_text := string_of_list_ascii;
     b64decode_text := fun encoded => Ok (list_ascii_of_string encoded);
     isoformat := fun now => pretty now |}.

(** Draws that are all zero, and a request for a quantum channel. *)
Definition sample_key_draws : key_draws :=
  {| channel_bytes := fun _ => "000"%char;
     coin := fun i => Nat.even i;
     shot := fun _ => false;
     key_bytes := fun i => ascii_of_nat i;
     drawn_private := List.repeat 0 lattice_dimension;
     drawn_noise := List.repeat 0 lattice_dimension;
     now_cached := 1; now_expiry := 2; now_channel := 3; now_created := 4 |}.

Definition quantum_request : key_request :=
  {| request_type := Some "quantum"%string;
     request_length := None;
     request_channel_id := Some "room-1"%string |}.

(** The fallback key for the default length, the channel made for
    [quantum_request] on a fresh service without the simulator, and a
    channel established for two participants. *)
Definition sample_key : string :=
  match generate_bb84_key false (coin sample_key_draws) (shot sample_key_draws)
          (key_bytes sample_key_draws) 256 with
  | Ok (key, _, _) => key
  | Raise _ => ""%string
  end.

Definition sample_generated : generated_keys :=
  {| gk_channel_id := "room-1";
     gk_keys := QuantumKeys sample_key [] [];
     gk_created_at := 4 |}.

Definition sample_channel : QuantumCryptographyService :=
  fst (generate_keys sample_key_draws quantum_request (new_service false)).

Definition sample_channel_request : channel_request :=
  {| request_participants := PList [PStr "ann"; PStr "bob"];
     request_security_level := Some "quantum"%string |}.

Definition sample_established
  : QuantumCryptographyService * result channel_info :=
  establish_secure_channel (fun _ => "001"%char) sample_key_draws 5 6 7
    sample_channel_request (new_service false).

Definition sample_info : channel_info :=
  match snd sample_established with
  | Ok established => established
  | Raise _ =>
      {| info_channel_id := ""; info_participants := PNone;
         info_security_level := ""; established_at := 0; info_expires_at := 0;
         info_key_type := ""; info_key_security_level := "" |}
  end.

(** A character that writes a hexadecimal digit. *)
Definition hex_char (c : ascii) : Prop :=
  exists d, (d < 16)%N /\ c = hex_digit d.

(** A request for the default keys, and what [generate_keys] returns
    for it on a new service. *)
Definition hybrid_request : key_request :=
  {| request_type := None;
     request_length := None;
     request_channel_id := Some "room-2"%string |}.

Definition hybrid_channel : QuantumCryptographyService :=
  fst (generate_keys sample_key_draws hybrid_request (new_service false)).

Definition hybrid_generated : generated_keys :=
  let keypair :=
    generate_lattice_keypair (drawn_private sample_key_draws)
      (drawn_noise sample_key_draws) in
  {| gk_channel_id := "room-2";
     gk_keys := HybridKeys sample_key [] [] (fst keypair) (snd keypair);
     gk_created_at := 4 |}.

End quantum_service.

Module ai_service.

(** *** analyze_emotions

    A confidence is a Python [float] taken from a softmax; the code only
    compares confidences, and finite floats compare as the rationals
    they are, so a confidence is a [Q]. *)

(** [self.emotion_labels] *)
Definition emotion_labels : list string :=
  ["angry"; "disgust"; "fear"; "happy"; "neutral"; "sad"; "surprise"].

Record emotion_entry := {
  emotion : string;
  confidence : Q
}.

Record face_box := { box_x : Z; box_y : Z; box_width : Z; box_height : Z }.

(** One element of [emotions_detected]. *)
Record face_emotions := {
  face_region : face_box;
  emotions : list emotion_entry;
  dominant_emotion : string;
  dominant_confidence : Q
}.

(** The dictionary [analyze_emotions] returns; ['overall_mood'] is the
    value of [_calculate_overall_mood], of type [M]. *)
Record emotion_report (M : Type) := {
  faces_detected : nat;
  report_emotions : list face_emotions;
  overall_mood : M;
  timestamp : Z
}.
Arguments faces_detected {M} _.
Arguments report_emotions {M} _.
Arguments overall_mood {M} _.
Arguments timestamp {M} _.

(** "Get top emotions", lines 332-337: [enumerate(emotion_scores)]
    from index [i] on; [self.emotion_labels[i]] raises past the last
    label. *)
Fixpoint label_scores (i : nat) (emotion_scores : list Q)
  : result (list emotion_entry) :=
  match emotion_scores with
  | [] => Ok []
  | score :: rest =>
      match nth_error emotion_labels i with
      | None => Raise (Exn IndexError "list index out of range")
      | Some label =>
          let! entries := label_scores (S i) rest in
          Ok ({| emotion := label; confidence := score |} :: entries)
      end
  end.

(** [top_emotions.sort(key=lambda x: x['confidence'], reverse=True)]:
    the stable sort into non-increasing confidence, entries of equal
    confidence staying in their order. *)
Fixpoint insert_desc (e : emotion_entry) (sorted : list emotion_entry)
  : list emotion_entry :=
  match sorted with
  | [] => [e]
  | e' :: rest =>
      if Qle_bool (confidence e') (confidence e) then e :: sorted
      else e' :: insert_desc e rest
  end.

Definition sort_desc (entries : list emotion_entry) : list emotion_entry :=
  fold_right insert_desc [] entries.

(** The softmax output of [EmotionRecognitionModel] for one face:
    [num_classes = 7] probabilities, [emotion_probs.cpu().numpy()[0]]. *)
Definition class_probabilities : Type := Q * Q * Q * Q * Q * Q * Q.

Definition scores_of (p : class_probabilities) : list Q :=
  let '(p0, p1, p2, p3, p4, p5, p6) := p in [p0; p1; p2; p3; p4; p5; p6].

(** The body of the loop over the detected faces, lines 331-347, from
    the [emotion_scores] of the face. *)
Definition face_result (face : face_box * list Q) : result face_emotions :=
  let! top_emotions := label_scores 0 (snd face) in
  let top_emotions := sort_desc top_emotions in
  match top_emotions with
  | [] => Raise (Exn IndexError "list index out of range")
  | best :: _ =>
      Ok {| face_region := fst face;
            emotions := firstn 3 top_emotions;
            dominant_emotion := emotion best;
            dominant_confidence := confidence best |}
  end.

Fixpoint for_each_face (faces : list (face_box * class_probabilities))
  : result (list face_emotions) :=
  match faces with
  | [] => Ok []
  | face :: rest =>
      let! detected := face_result (fst face, scores_of (snd face)) in
      let! more := for_each_face rest in
      Ok (detected :: more)
  end.

(** [analyze_emotions], lines 298-357, from the faces the cascade
    detected on, each with the probabilities the model gives for it.
    [_calculate_overall_mood] adds and divides floats and is taken as
    it is. *)
Definition analyze_emotions {M} (_calculate_overall_mood : list face_emotions -> M)
    (now : Z) (faces : list (face_box * class_probabilities))
  : result (emotion_report M) :=
  let! emotions_detected := for_each_face faces in
  Ok {| faces_detected := length faces;
        report_emotions := emotions_detected;
        overall_mood := _calculate_overall_mood emotions_detected;
        timestamp := now |}.

(** *** _chunk_text

    In this part a Python [str] is the list of its characters. *)
Definition str := list ascii.

(** [str.isspace] on the code points below 256: tab to carriage
    return, the four separators 28-31, the space, NEL and the no-break
    space. *)
Definition isspace (c : ascii) : bool :=
  let n := N_of_ascii c in
  ((9 <=? n) && (n <=? 13) || (28 <=? n) && (n <=? 32)
   || (n =? 133) || (n =? 160))%N.

Definition space : ascii := " "%char.

(** [text.split()]: the maximal runs of characters that are not
    whitespace. [split_from s] is the run [s] starts with (empty when [s]
    starts with whitespace) and the runs after it. *)
Definition cons_word (w : str) (ws : list str) : list str :=
  match w with
  | [] => ws
  | _ => w :: ws
  end.

Fixpoint split_from (s : str) : str * list str :=
  match s with
  | [] => ([], [])
  | c :: s' =>
      let '(w, ws) := split_from s' in
      if isspace c then ([], cons_word w ws) else (c :: w, ws)
  end.

Definition split (s : str) : list str :=
  let '(w, ws) := split_from s in cons_word w ws.

(** [" ".join(words)] *)
Fixpoint join (words : list str) : str :=
  match words with
  | [] => []
  | [w] => w
  | w :: ws => w ++ space :: join ws
  end.

(** The loop of [_chunk_text], lines 417-424, on the words left. *)
Fixpoint chunk_loop (max_length : Z) (words : list str) (chunks : list str)
    (current_chunk : list str) (current_length : Z) : list str * list str :=
  match words with
  | [] => (chunks, current_chunk)
  | word :: rest =>
      if current_length + Z.of_nat (length word) >? max_length then
        chunk_loop max_length rest (chunks ++ [join current_chunk])
          [word] (Z.of_nat (length word))
      else
        chunk_loop max_length rest chunks (current_chunk ++ [word])
          (current_length + Z.of_nat (length word) + 1)
  end.

(** Lines 426-429: the last chunk is appended when it has a word. *)
Definition finish_chunks (state : list str * list str) : list str :=
  let '(chunks, current_chunk) := state in
  match current_chunk with
  | [] => chunks
  | _ => chunks ++ [join current_chunk]
  end.

(** [AIService._chunk_text], lines 410-429. *)
Definition _chunk_text (text : str) (max_length : Z) : list str :=
  finish_chunks (chunk_loop max_length (split text) [] [] 0).

(** *** _calculate_overall_mood

    The mood adds and divides confidences. The sum and the quotient of
    two floats are the floats nearest to the exact results: [fadd] and
    [fdiv] are these two operations on the rationals that are floats. *)
Class FloatOps := {
  fadd : Q -> Q -> Q;
  fdiv : Q -> Q -> Q
}.

(** What rounding to nearest keeps of the exact operations: adding to
    zero is exact, and dividing by a positive number is monotone. *)
Class FloatLaws (F : FloatOps) : Prop := {
  fadd_0_l : forall x, (fadd 0 x == x)%Q;
  fdiv_monotone :
    forall x y total, (x <= y)%Q -> (0 < total)%Q ->
      (fdiv x total <= fdiv y total)%Q
}.

(** The dictionary [_calculate_overall_mood] returns; the result for
    no faces has no ['distribution']. *)
Record overall_mood_report := {
  mood : string;
  mood_confidence : Q;
  distribution : option (list (string * Q))
}.

(** [a < b] on confidences *)
Definition Qlt_bool (a b : Q) : bool := negb (Qle_bool b a).

(** [max(items, key=lambda x: x[1])] on a list with a first item: the
    first item of greatest value. *)
Definition max_by_value (first : string * Q) (rest : list (string * Q))
  : string * Q :=
  fold_left
    (fun best item => if Qlt_bool (snd best) (snd item) then item else best)
    rest first.

Section overall_mood.
Context {F : FloatOps}.

(** The body of the inner loop, lines 533-539. *)
Definition add_emotion (state : list (string * Q) * Q)
    (emotion_data : emotion_entry) : list (string * Q) * Q :=
  let '(emotion_totals, total_confidence) := state in
  let emotion := emotion emotion_data in
  let confidence := confidence emotion_data in
  let emotion_totals :=
    if dict_has emotion emotion_totals then emotion_totals
    else dict_set emotion 0%Q emotion_totals in
  (dict_set emotion
     (fadd (default 0%Q (dict_get emotion emotion_totals)) confidence)
     emotion_totals,
   fadd total_confidence confidence).

(** [_calculate_overall_mood], lines 522-552. *)
Definition _calculate_overall_mood (emotions_detected : list face_emotions)
  : overall_mood_report :=
  match emotions_detected with
  | [] => {| mood := "neutral"; mood_confidence := 0%Q; distribution := None |}
  | _ =>
      let '(emotion_totals, total_confidence) :=
        fold_left
          (fun state face_data => fold_left add_emotion (emotions face_data) state)
          emotions_detected ([], 0%Q) in
      let emotion_totals :=
        if Qlt_bool 0 total_confidence then
          List.map (fun item => (fst item, fdiv (snd item) total_confidence))
            emotion_totals
        else emotion_totals in
      let dominant_mood :=
        match emotion_totals with
        | [] => ("neutral"%string, 0%Q)
        | first :: rest => max_by_value first rest
        end in
      {| mood := fst dominant_mood;
         mood_confidence := snd dominant_mood;
         distribution := Some emotion_totals |}
  end.

End overall_mood.

(** *** Vocabulary of the statements, and sample inputs *)

(** Non-increasing confidence. *)
Definition conf_ge (a b : emotion_entry) : Prop :=
  (confidence b <= confidence a)%Q.

(** An entry pairs the label and the score of one class of the face. *)
Definition drawn_from (scores : list Q) (e : emotion_entry) : Prop :=
  exists i, nth_error emotion_labels i = Some (emotion e) /\
            nth_error scores i = Some (confidence e).

(** What [analyze_emotions] reports for one face. *)
Definition face_postcondition (face : face_box * list Q) (r : face_emotions)
  : Prop :=
  face_region r = fst face /\
  (length (emotions r) <= 3)%nat /\
  Forall (fun e => In (emotion e) emotion_labels) (emotions r) /\
  Forall (drawn_from (snd face)) (emotions r) /\
  StronglySorted conf_ge (emotions r) /\
  drawn_from (snd face)
    {| emotion := dominant_emotion r; confidence := dominant_confidence r |} /\
  Forall (fun score => (score <= dominant_confidence r)%Q) (snd face) /\
  hd_error (emotions r)
  = Some {| emotion := dominant_emotion r;
            confidence := dominant_confidence r |}.

(** The report on one detected face. *)
Definition face_reported (face : face_box * class_probabilities)
    (r : face_emotions) : Prop :=
  face_postcondition (fst face, scores_of (snd face)) r.

Definition sample_face : face_box * class_probabilities :=
  ({| box_x := 10; box_y := 20; box_width := 64; box_height := 64 |},
   (0.05, 0.05, 0.1, 0.4, 0.2, 0.05, 0.15)%Q).

(** A word as [split] returns it: not empty, no whitespace in it. *)
Definition is_word (w : str) : Prop :=
  w <> [] /\ Forall (fun c => isspace c = false) w.

(** Exact arithmetic, which has the two properties required of the
    float operations. *)
Definition exact_arithmetic : FloatOps :=
  {| fadd := Qplus; fdiv := Qdiv |}.

(** The chunks of a text whose words fit: none is empty, the first
    has at most [max_length] characters and the others at most one
    more. *)
Definition chunks_fit (max_length : Z) (chunks : list str) : Prop :=
  match chunks with
  | [] => True
  | first :: rest =>
      first <> [] /\ Z.of_nat (length first) <= max_length /\
      Forall (fun chunk : str =>
                chunk <> [] /\ Z.of_nat (length chunk) <= max_length + 1)
        rest
  end.

End ai_service.

Module video_service.

(** A landmark is the list [[x, y, z]] of Python floats (binary64),
    a hand the list of its landmarks. *)
Definition landmark := list float.

(** The float literals of the heuristics, rounded to binary64 as
    Python rounds them. *)
#[local] Set Warnings "-inexact-float".
Definition score_yes : float := 0.8%float.
Definition score_no : float := 0.2%float.
Definition threshold : float := 0.5%float.
#[local] Set Warnings "inexact-float".

(** [landmarks[i][1]]; an index past the end raises [IndexError]. *)
Definition y_at (landmarks : list landmark) (i : nat) : result float :=
  match nth_error landmarks i with
  | None => Raise (Exn IndexError "list index out of range")
  | Some point =>
      match nth_error point 1 with
      | None => Raise (Exn IndexError "list index out of range")
      | Some y => Ok y
      end
  end.

(** [landmarks[a][1] < landmarks[b][1]] and
    [landmarks[a][1] > landmarks[b][1]] *)
Definition y_lt (landmarks : list landmark) (a b : nat) : result bool :=
  let! ya := y_at landmarks a in
  let! yb := y_at landmarks b in
  Ok (PrimFloat.ltb ya yb).

Definition y_gt (landmarks : list landmark) (a b : nat) : result bool :=
  let! ya := y_at landmarks a in
  let! yb := y_at landmarks b in
  Ok (PrimFloat.ltb yb ya).

(** [all(cond(tip) for tip in tips)]: the generator stops at the
    first false condition. *)
Fixpoint all_of (cond : nat -> result bool) (tips : list nat) : result bool :=
  match tips with
  | [] => Ok true
  | tip :: rest =>
      let! holds := cond tip in
      if holds then all_of cond rest else Ok false
  end.

(** [0.8 if condition else 0.2] *)
Definition score (condition : bool) : float :=
  if condition then score_yes else score_no.

(** [_is_thumbs_up], lines 494-506. *)
Definition _is_thumbs_up (landmarks : list landmark) : result float :=
  let! thumb_tip := y_at landmarks 4 in
  let! thumb_mcp := y_at landmarks 2 in
  let! index_tip := y_at landmarks 8 in
  let thumb_up := PrimFloat.ltb thumb_tip thumb_mcp in
  let! index_pip := y_at landmarks 6 in
  let fingers_down := PrimFloat.ltb index_pip index_tip in
  Ok (score (thumb_up && fingers_down)).

(** [_is_peace_sign], lines 508-515. *)
Definition _is_peace_sign (landmarks : list landmark) : result float :=
  let! index_extended := y_lt landmarks 8 6 in
  let! middle_extended := y_lt landmarks 12 10 in
  let! ring_folded := y_gt landmarks 16 14 in
  Ok (score (index_extended && middle_extended && ring_folded)).

(** [_is_fist], lines 517-524. *)
Definition _is_fist (landmarks : list landmark) : result float :=
  let! fingers_folded :=
    all_of (fun tip => y_gt landmarks tip (tip - 2)) [8; 12; 16; 20]%nat in
  Ok (score fingers_folded).

(** [_is_open_palm], lines 526-533. *)
Definition _is_open_palm (landmarks : list landmark) : result float :=
  let! fingers_extended :=
    all_of (fun tip => y_lt landmarks tip (tip - 2)) [8; 12; 16; 20]%nat in
  Ok (score fingers_extended).

(** [_is_pointing], lines 535-543. *)
Definition _is_pointing (landmarks : list landmark) : result float :=
  let! index_extended := y_lt landmarks 8 6 in
  let! other_folded :=
    all_of (fun tip => y_gt landmarks tip (tip - 2)) [12; 16; 20]%nat in
  Ok (score (index_extended && other_folded)).

(** [max(items, key=lambda x: x[1])] on a list with a first item: a
    later item replaces the best one only when its score is greater. *)
Definition max_by_score (first : string * float)
    (rest : list (string * float)) : string * float :=
  fold_left
    (fun best item => if PrimFloat.ltb (snd best) (snd item) then item else best)
    rest first.

(** The dictionary [_classify_gesture] returns. *)
Record gesture := {
  name : string;
  gesture_confidence : float;
  all_scores : list (string * float)
}.

(** The second half of [_classify_gesture], lines 473-480, on the five
    scores in the order of the dictionary. *)
Definition best_gesture (thumbs_up peace fist open_palm pointing : float)
  : gesture :=
  let gestures :=
    [("thumbs_up", thumbs_up); ("peace", peace); ("fist", fist);
     ("open_palm", open_palm); ("pointing", pointing)]%string in
  let best :=
    max_by_score ("thumbs_up"%string, thumbs_up)
      [("peace", peace); ("fist", fist);
       ("open_palm", open_palm); ("pointing", pointing)]%string in
  {| name := if PrimFloat.ltb threshold (snd best) then fst best
             else "unknown"%string;
     gesture_confidence := snd best;
     all_scores := gestures |}.

(** [_classify_gesture], lines 460-480. *)
Definition _classify_gesture (landmarks : list landmark) : result gesture :=
  let! thumbs_up := _is_thumbs_up landmarks in
  let! peace := _is_peace_sign landmarks in
  let! fist := _is_fist landmarks in
  let! open_palm := _is_open_palm landmarks in
  let! pointing := _is_pointing landmarks in
  Ok (best_gesture thumbs_up peace fist open_palm pointing).

(** *** Body gestures *)

(** [l[i]] for an index that is not negative *)
Definition item {A} (l : list A) (i : nat) : result A :=
  match nth_error l i with
  | Some x => Ok x
  | None => Raise (Exn IndexError "list index out of range")
  end.

(** [_is_raising_hand], lines 545-554: the four landmarks are read
    first; [or] reads the right side only when the left wrist is not
    above the left shoulder. *)
Definition _is_raising_hand (pose_landmarks : list landmark) : result bool :=
  let! left_wrist := item pose_landmarks 15 in
  let! left_shoulder := item pose_landmarks 11 in
  let! right_wrist := item pose_landmarks 16 in
  let! right_shoulder := item pose_landmarks 12 in
  let! left_wrist_y := item left_wrist 1 in
  let! left_shoulder_y := item left_shoulder 1 in
  if PrimFloat.ltb left_wrist_y left_shoulder_y then Ok true
  else
    let! right_wrist_y := item right_wrist 1 in
    let! right_shoulder_y := item right_shoulder 1 in
    Ok (PrimFloat.ltb right_wrist_y right_shoulder_y).

(** [_is_waving], lines 556-560. *)
Definition _is_waving (pose_landmarks : list landmark) : result bool :=
  _is_raising_hand pose_landmarks.

(** The dictionary [_classify_body_gesture] returns when it finds a
    gesture. *)
Record body_gesture := {
  body_name : string;
  body_confidence : float
}.

#[local] Set Warnings "-inexact-float".
Definition confidence_waving : float := 0.7%float.
#[local] Set Warnings "inexact-float".

(** [_classify_body_gesture], lines 482-492. *)
Definition _classify_body_gesture (pose_landmarks : list landmark)
  : result (option body_gesture) :=
  let! raising := _is_raising_hand pose_landmarks in
  if raising then
    Ok (Some {| body_name := "raising_hand"; body_confidence := score_yes |})
  else
    let! waving := _is_waving pose_landmarks in
    if waving then
      Ok (Some {| body_name := "waving"; body_confidence := confidence_waving |})
    else Ok None.

(** *** process_frame

    The four operations a frame can ask for. [_analyze_face] catches
    what it raises and returns a dictionary. *)
Class FrameOperations := {
  enhance_video : pyval -> result pyval;
  remove_background : pyval -> result pyval;
  recognize_gestures : pyval -> result pyval;
  _analyze_face : pyval -> pyval;
  isoformat : Z -> string
}.

Section process_frame.
Context {operations : FrameOperations}.

(** [if processing_options.get(option, False): results[key] = await
    operation(frame_data)] *)
Definition apply_option (option key : string)
    (operation : pyval -> result pyval) (processing_options frame_data : pyval)
    (results : list (string * pyval)) : result (list (string * pyval)) :=
  let! requested := py_get option processing_options in
  if truthy (default (PBool false) requested) then
    let! produced := operation frame_data in
    Ok (dict_set key produced results)
  else Ok results.

(** [process_frame], lines 335-365; every exception is raised again. *)
Definition process_frame (now : Z) (frame_data : pyval) : result pyval :=
  let! processing_options := py_get "options" frame_data in
  let processing_options := default (PDict []) processing_options in
  let results := [] in
  let! results :=
    apply_option "enhance" "enhancement" enhance_video
      processing_options frame_data results in
  let! results :=
    apply_option "background_removal" "background_removal" remove_background
      processing_options frame_data results in
  let! results :=
    apply_option "gesture_recognition" "gestures" recognize_gestures
      processing_options frame_data results in
  let! results :=
    apply_option "face_analysis" "face_analysis"
      (fun frame_data => Ok (_analyze_face frame_data))
      processing_options frame_data results in
  Ok (PDict [("processed_results", PDict results);
             ("processing_time", PStr (isoformat now))]).

End process_frame.

(** *** Vocabulary of the statements, and sample inputs *)

(** A hand as MediaPipe gives it has 21 landmarks of three
    coordinates; the heuristics read the second coordinate of the
    landmarks 2 to 20. *)
Definition hand_landmarks (landmarks : list landmark) : Prop :=
  (21 <= length landmarks)%nat /\
  Forall (fun point : landmark => (2 <= length point)%nat) landmarks.

(** What [_classify_gesture] returns: the confidence is a score of the
    dictionary that none exceeds, the name is the name of that score
    when it is above 0.5 and 'unknown' otherwise, and the name is
    'unknown' exactly when no score is 0.8. *)
Definition classified (g : gesture) : Prop :=
  Forall (fun item => PrimFloat.ltb (gesture_confidence g) (snd item) = false)
    (all_scores g) /\
  (exists best_name,
      In (best_name, gesture_confidence g) (all_scores g) /\
      name g = if PrimFloat.ltb threshold (gesture_confidence g)
               then best_name else "unknown"%string) /\
  (name g = "unknown"%string <->
   Forall (fun item => snd item <> score_yes) (all_scores g)).

(** A hand held flat, all landmarks level: no comparison holds. *)
Definition level_hand : list landmark := List.repeat [0.5; 0.5; 0]%float 21.

(** A fist: the fingertips 8, 12, 16, 20 lie below (greater y) the
    joints two landmarks before them. *)
Definition fist_hand : list landmark :=
  List.map (fun i => [0.5; if Nat.eqb (i mod 4) 0 then 0.75 else 0.25; 0]%float)
    (seq 0 21).

(** The heuristic of that name scores 0.8 in the result. *)
Definition fires (g : gesture) (gesture_name : string) : Prop :=
  In (gesture_name, score_yes) (all_scores g).

(** A pose with the left wrist above the left shoulder, and one with
    both wrists below. *)
Definition pose_with (wrist_y : float) : list landmark :=
  List.map (fun i => [0.5; if Nat.leb 15 i then wrist_y else 0.5; 0]%float)
    (seq 0 33).

(** [bool(frame_data.get('options', {}).get(option, False))] where
    both are dictionaries. *)
Definition asked (option : string) (frame_data : pyval) : bool :=
  match py_get "options" frame_data with
  | Ok options =>
      match py_get option (default (PDict []) options) with
      | Ok requested => truthy (default (PBool false) requested)
      | Raise _ => false
      end
  | Raise _ => false
  end.

(** The options of [process_frame] and the keys of their results. *)
Definition frame_options : list (string * string) :=
  [("enhance", "enhancement"); ("background_removal", "background_removal");
   ("gesture_recognition", "gestures"); ("face_analysis", "face_analysis")]%string.

(** Operations that name themselves. *)
Definition sample_operations : FrameOperations :=
  {| enhance_video := fun _ => Ok (PStr "enhanced");
     remove_background := fun _ => Raise (Exn ValueError "no frame");
     recognize_gestures := fun _ => Ok (PStr "gestures");
     _analyze_face := fun _ => PStr "faces";
     isoformat := fun now => pretty now |}.

End video_service.

Module main.

(** *** The REST endpoints *)

(** What the framework sends for a request: the value the handler
    returned, the [HTTPException] it raised, or an exception no handler
    caught. *)
Inductive response :=
| Returned (body : pyval)
| HTTPException (status_code : Z) (detail : string)
| Unhandled (e : exn).

Inductive endpoint :=
| health_check
| login
| register
| transcribe_audio
| translate_text
| summarize_meeting
| analyze_emotions
| enhance_video
| remove_background
| recognize_gestures
| generate_quantum_keys
| quantum_encrypt
| create_blockchain_identity
| verify_credential
| process_neural_signals
| calibrate_neural_interface
| create_metaverse_world
| get_metaverse_worlds
| get_meeting_insights
| get_user_behavior_analysis.

(** [get_current_user], lines 98-104: the dependency of every endpoint
    declared with [user=Depends(get_current_user)]. [validated] is the
    outcome of [services['auth'].validate_token]. *)
Definition get_current_user (validated : result pyval) : result pyval + response :=
  match validated with
  | Ok user => inl (Ok user)
  | Raise e => inr (HTTPException 401 "Invalid authentication credentials")
  end.

(** The body shared by the handlers of lines 125-301:
    [try: result = await service(...); return result
     except Exception as e: raise HTTPException(status_code, str(e))]. *)
Definition try_service (status_code : Z) (call : result pyval) : response :=
  match call with
  | Ok result => Returned result
  | Raise e => HTTPException status_code (exn_str e)
  end.

(** The endpoints that depend on [get_current_user]. *)
Definition depends_on_user (e : endpoint) : bool :=
  match e with
  | health_check | login | register => false
  | _ => true
  end.

(** The status code in the [except] clause of each handler;
    [health_check] has no [try]. *)
Definition except_status (e : endpoint) : option Z :=
  match e with
  | health_check => None
  | login => Some 401
  | register => Some 400
  | _ => Some 500
  end.

(** One request to an endpoint: [validated] is the outcome of the token
    validation (read only where the endpoint depends on it), [call] the
    outcome of the service call in the handler's body. *)
Definition handle (e : endpoint) (validated call : result pyval) : response :=
  let body :=
    match except_status e with
    | Some status_code => try_service status_code call
    | None =>
        match call with
        | Ok result => Returned result
        | Raise e => Unhandled e
        end
    end in
  if depends_on_user e then
    match get_current_user validated with
    | inl _ => body
    | inr rejected => rejected
    end
  else body.

(** *** The WebSocket endpoint *)

(** The services the dispatcher calls, each on [message['data']]:
    [services['video'].process_frame], [services['ai'].transcribe_chunk]
    and [services['neural'].process_signal]; and [json.loads]. *)
Class Services := {
  process_frame : pyval -> result pyval;
  transcribe_chunk : pyval -> result pyval;
  process_signal : pyval -> result pyval;
  json_loads : string -> result pyval
}.

Section websocket_endpoint.
Context {services : Services}.

(** [message.get('type')]: only a dictionary has [get]. *)
Definition get_type (message : pyval) : result (option pyval) :=
  match message with
  | PDict items => Ok (dict_get "type" items)
  | PDictAny items => Ok (keyed_get "type" items)
  | _ => Raise (Exn AttributeError "object has no attribute 'get'")
  end.

(** [message['data']] on a dictionary. *)
Definition get_data (message : pyval) : result pyval :=
  match message with
  | PDict items =>
      match dict_get "data" items with
      | Some data => Ok data
      | None => Raise (Exn KeyError "'data'")
      end
  | PDictAny items =>
      match keyed_get "data" items with
      | Some data => Ok data
      | None => Raise (Exn KeyError "'data'")
      end
  | _ => Raise (Exn TypeError "indices must be integers")
  end.

(** [value == 'tag'] for the value [message.get('type')] returned. *)
Definition is_tag (tag : string) (value : option pyval) : bool :=
  match value with
  | Some (PStr s) => String.eqb s tag
  | _ => false
  end.

(** Modelled from the spec: [WebSocketManager.broadcast_to_room]
    (utils/websocket_manager.py is not among the sources) sends the
    payload to all sockets in the room; the call is recorded as the
    room and the payload. *)
Definition broadcast_to_room (room_id : string) (payload : pyval)
  : result (string * pyval) :=
  Ok (room_id, payload).

(** The body of the loop for one parsed message, lines 313-340. *)
Definition dispatch (room_id : string) (message : pyval)
  : result (string * pyval) :=
  let! type := get_type message in
  if is_tag "video_frame" type then
    let! data := get_data message in
    let! processed := process_frame data in
    broadcast_to_room room_id
      (PDict [("type", PStr "processed_video"); ("data", processed)])
  else if is_tag "audio_chunk" type then
    let! data := get_data message in
    let! transcription := transcribe_chunk data in
    broadcast_to_room room_id
      (PDict [("type", PStr "transcription"); ("data", transcription)])
  else if is_tag "neural_signal" type then
    let! data := get_data message in
    let! command := process_signal data in
    broadcast_to_room room_id
      (PDict [("type", PStr "neural_command"); ("data", command)])
  else broadcast_to_room room_id message.

(** One turn of the loop on the text [receive_text] returned. *)
Definition on_text (room_id data : string) : result (string * pyval) :=
  let! message := json_loads data in
  dispatch room_id message.

(** [websocket_endpoint], lines 304-343, on the texts the client sends
    before it disconnects: the broadcasts made, and the exception that
    ended the handler if one did ([WebSocketDisconnect] is caught). *)
Fixpoint websocket_endpoint (room_id : string) (incoming : list string)
  : list (string * pyval) * option exn :=
  match incoming with
  | [] => ([], None)
  | data :: rest =>
      match on_text room_id data with
      | Ok sent =>
          let '(more, ended) := websocket_endpoint room_id rest in
          (sent :: more, ended)
      | Raise e =>
          ([], match exn_cls e with WebSocketDisconnect => None | _ => Some e end)
      end
  end.

End websocket_endpoint.

(** *** Vocabulary of the statements, and sample inputs *)

(** The status the claim gives each endpoint. *)
Definition claimed_status (e : endpoint) : Z :=
  match e with
  | login => 401
  | register => 400
  | _ => 500
  end.

(** The claim C6 fails on: messages on which the handler raises,
    whatever the services do, so that nothing is broadcast. *)
Definition never_broadcast (message : pyval) : Prop :=
  forall (services : Services) (room_id data : string),
    json_loads data = Ok message ->
    exists e, on_text room_id data = Raise e.

(** Services that return their input under their name, and a parser
    for four texts. *)
Definition echo_service (name : string) (data : pyval) : result pyval :=
  Ok (PDict [("by", PStr name); ("input", data)]).

Definition sample_loads (data : string) : result pyval :=
  if String.eqb data "audio" then
    Ok (PDict [("type", PStr "audio_chunk"); ("data", PStr "UklGRg")])
  else if String.eqb data "frame" then
    Ok (PDict [("type", PStr "video_frame"); ("data", PInt 7)])
  else if String.eqb data "chat" then
    Ok (PDict [("type", PStr "chat"); ("text", PStr "hello")])
  else Ok (PInt 42).

Definition echo_services : Services :=
  {| process_frame := echo_service "video";
     transcribe_chunk := echo_service "ai";
     process_signal := echo_service "neural";
     json_loads := sample_loads |}.

End main.

(** * Properties

    The facts about the definitions above, one module for each module
    of the model. *)

Lemma is_Some_bind_Some {A B} (x : option A) (g : A -> B) :
  is_Some (x ≫= fun p => Some (g p)) <-> is_Some x.
Proof.
  destruct x as [a|]; cbn; split; intros [y Hy];
    try discriminate; eexists; reflexivity.
Qed.

Lemma mapM_is_Some_forallb {A B} (f : A -> option B) (g : A -> bool) l :
  Forall (fun x => is_Some (f x) <-> g x = true) l ->
  is_Some (mapM f l) <-> forallb g l = true.
Proof.
  intros H. rewrite mapM_is_Some.
  induction H as [|x l Hx _ IH]; cbn [forallb].
  - split; [reflexivity | constructor].
  - rewrite Forall_cons, andb_true_iff, <- Hx, <- IH. reflexivity.
Qed.

Lemma mapM_values_keys {K} (f : pyval -> option string)
    (items : list (K * pyval)) parts :
  mapM (fun kv => s ← f (snd kv); Some (fst kv, s)) items = Some parts ->
  List.map fst parts = List.map fst items.
Proof.
  revert parts. induction items as [|[k v] items IH]; intros parts.
  - cbn. intros [= <-]. reflexivity.
  - cbn [mapM fst snd]. destruct (f v) as [text|]; [|discriminate].
    cbn. destruct (mapM _ items) as [rest|]; [|discriminate].
    cbn. intros [= <-]. cbn. f_equal. apply IH. reflexivity.
Qed.


Lemma forallb_andb {A} (f g : A -> bool) l :
  forallb (fun x => f x && g x) l = forallb f l && forallb g l.
Proof.
  induction l as [|x l IH]; cbn; [reflexivity|]. rewrite IH.
  destruct (f x), (g x), (forallb f l); reflexivity.
Qed.

(** With [sort_keys=True] it returns exactly on those of them whose
    dictionaries can be sorted. *)
Lemma json_dumps_sorted_is_Some item_sep key_sep v :
  is_Some (json_dumps true item_sep key_sep v)
  <-> serialisable v && sortable v = true.
Proof.
  induction v as [| b | z | r | s | items IH | items IH | items IH | t]
    using pyval_ind;
    cbn [json_dumps serialisable sortable andb];
    try (split; [reflexivity | intros _; eexists; reflexivity]).
  - destruct b; split; try reflexivity; intros _; eexists; reflexivity.
  - rewrite is_Some_bind_Some, <- forallb_andb.
    apply (mapM_is_Some_forallb _ (fun v => serialisable v && sortable v)), IH.
  - rewrite is_Some_bind_Some,
      <- (forallb_andb (fun kv => serialisable (snd kv))
            (fun kv => sortable (snd kv))).
    apply (mapM_is_Some_forallb _
             (fun kv => serialisable (snd kv) && sortable (snd kv))).
    eapply Forall_impl; [exact IH|]. intros kv Hkv. cbn beta.
    rewrite is_Some_bind_Some. exact Hkv.
  - assert (is_Some (mapM (fun kv =>
                             s ← json_dumps true item_sep key_sep (snd kv);
                             Some (fst kv, s)) items)
            <-> forallb (fun kv => serialisable (snd kv) && sortable (snd kv))
                  items = true) as Hvalues.
    { apply mapM_is_Some_forallb.
      eapply Forall_impl; [exact IH|]. intros kv Hkv. cbn beta.
      rewrite is_Some_bind_Some. exact Hkv. }
    rewrite forallb_andb in Hvalues.
    destruct (mapM _ items) as [parts|] eqn:Hparts; cbn [mbind option_bind].
    + unfold sorted_keyed. rewrite (mapM_values_keys _ _ _ Hparts).
      destruct Hvalues as [Hvalues _].
      specialize (Hvalues ltac:(eexists; reflexivity)).
      apply andb_true_iff in Hvalues as [-> ->]. cbn [andb].
      rewrite andb_true_r.
      destruct (sortable_keys (List.map fst items)); cbn;
        split; intros H; try discriminate; try (destruct H; discriminate);
        try reflexivity; eexists; reflexivity.
    + split; [intros [x Hx]; discriminate|]. intros H.
      destruct Hvalues as [_ Hvalues].
      destruct Hvalues as [x Hx]; [|discriminate].
      apply andb_true_iff in H as [Hs H].
      apply andb_true_iff in H as [_ H].
      rewrite Hs, H. reflexivity.
  - split; [intros [x Hx]; discriminate | discriminate].
Qed.

(** *** Facts about dictionaries *)
Lemma dict_get_set {V} k (v : V) d : dict_get k (dict_set k v d) = Some v.
Proof.
  unfold dict_get. induction d as [|[k' v'] d IH]; cbn.
  - rewrite String.eqb_refl. reflexivity.
  - destruct (String.eqb k' k) eqn:E; cbn.
    + rewrite String.eqb_refl. reflexivity.
    + rewrite E. exact IH.
Qed.

Lemma dict_has_set {V} k (v : V) d : dict_has k (dict_set k v d) = true.
Proof.
  unfold dict_has. induction d as [|[k' v'] d IH]; cbn.
  - rewrite String.eqb_refl. reflexivity.
  - destruct (String.eqb k' k) eqn:E; cbn.
    + rewrite String.eqb_refl. reflexivity.
    + rewrite E. exact IH.
Qed.

Lemma dict_del_set_fresh {V} k (v : V) d :
  dict_has k d = false -> dict_del k (dict_set k v d) = d.
Proof.
  unfold dict_has, dict_del. induction d as [|[k' v'] d IH]; cbn.
  - rewrite String.eqb_refl. reflexivity.
  - destruct (String.eqb k' k) eqn:E; cbn; [discriminate|].
    intros H. rewrite E. cbn. f_equal. exact (IH H).
Qed.







(** ** Properties of blockchain_service.py *)
Module blockchain_service_properties.
Import blockchain_service.

Lemma calculate_reputation_known now id st r :
  st !! id = Some r ->
  calculate_reputation now id st =
    (st, {| rr_identity_id := id;
            reputation_score := linear_score r;
            rr_breakdown :=
              {| base_score := 50;
                 meeting_bonus := Z.min (meeting_count r * 2) 30;
                 feedback_score :=
                   (positive_feedback r - negative_feedback r) * 5;
                 credential_bonus := Z.min (credentials_verified r * 10) 20 |};
            statistics := r;
            rr_last_updated := last_updated r |}).
Proof.
  intros Hr. unfold calculate_reputation, linear_score.
  cbv zeta. rewrite Hr. cbv iota beta. rewrite Hr. cbn [default].
  rewrite (Z.mul_comm 2), (Z.mul_comm 5), (Z.mul_comm 10). reflexivity.
Qed.

Lemma calculate_reputation_fresh now id st :
  st !! id = None ->
  calculate_reputation now id st =
    (<[id := default_reputation now]> st,
     {| rr_identity_id := id;
        reputation_score := 50;
        rr_breakdown :=
          {| base_score := 50; meeting_bonus := 0;
             feedback_score := 0; credential_bonus := 0 |};
        statistics := default_reputation now;
        rr_last_updated := now |}).
Proof.
  intros Hr. unfold calculate_reputation.
  cbv zeta. rewrite Hr. cbv iota beta. rewrite lookup_insert_eq. reflexivity.
Qed.

(** C1. For every identity that has a record [r] in the reputation
    store, [calculate_reputation] leaves the store as it is and
    returns [reputation_score] equal to
    max(0, min(100, 50 + min(2*meeting_count, 30)
    + 5*(positive_feedback - negative_feedback)
    + min(10*credentials_verified, 20))); for an identity with no record
    it installs the default record (score 50, all counters 0) and
    returns 50. *)
Theorem calculate_reputation_score (now : datetime) (id : string)
    (st : gmap string reputation) :
  match st !! id with
  | Some r =>
      fst (calculate_reputation now id st) = st /\
      reputation_score (snd (calculate_reputation now id st)) =
        Z.max 0 (Z.min 100
          (50 + Z.min (2 * meeting_count r) 30
              + 5 * (positive_feedback r - negative_feedback r)
              + Z.min (10 * credentials_verified r) 20))
  | None =>
      fst (calculate_reputation now id st) =
        <[id := {| score := 50; meeting_count := 0; positive_feedback := 0;
                   negative_feedback := 0; credentials_verified := 0;
                   last_updated := now |}]> st /\
      reputation_score (snd (calculate_reputation now id st)) = 50
  end.
Proof.
  destruct (st !! id) as [r|] eqn:Hr.
  - rewrite (calculate_reputation_known now id st r Hr). split; reflexivity.
  - rewrite (calculate_reputation_fresh now id st Hr). split; reflexivity.
Qed.


Section VerifiableCredential_facts.
Context {L : Library}.

Lemma verify_created_credential now1 now2 now3 salt issuer subject claims
    private_key public_key :
  verify_credential
    (create_credential now1 now2 now3 salt issuer subject claims private_key)
    public_key =
  _verify_signature
    (PDict (unsigned_credential now1 now2 issuer subject claims))
    (PStr (_sign_credential salt
             (PDict (unsigned_credential now1 now2 issuer subject claims))
             private_key))
    public_key.
Proof.
  unfold create_credential, verify_credential.
  rewrite dict_get_set, dict_has_set, dict_del_set_fresh by reflexivity.
  reflexivity.
Qed.




(** A value the encoder refuses, or whose keys it cannot sort, is
    signed with the empty signature and fails verification, whatever
    the key. *)
Lemma unserialisable_never_verifies credential signature public_key_pem :
  serialisable credential && sortable credential = false ->
  _verify_signature credential signature public_key_pem = false.
Proof.
  intros Hser. unfold _verify_signature.
  destruct (load_pem_public_key public_key_pem); [|reflexivity].
  destruct (json_dumps_canonical credential) as [canonical_json|] eqn:Hjson;
    [|reflexivity].
  assert (serialisable credential && sortable credential = true) as Habs
    by (apply (json_dumps_sorted_is_Some "," ":");
        unfold json_dumps_canonical in Hjson; rewrite Hjson; eexists;
        reflexivity).
  congruence.
Qed.


Lemma mixed_keys_never_verify now1 now2 now3 salt issuer subject
    private_key public_key :
  verify_credential
    (create_credential now1 now2 now3 salt issuer subject
       claims_with_mixed_keys private_key)
    public_key = false.
Proof.
  rewrite verify_created_credential.
  apply unserialisable_never_verifies. reflexivity.
Qed.

End VerifiableCredential_facts.


(** Claims that [json.dumps] encodes are not enough: with a nested
    dictionary that has an [int] and a [str] key, [json.dumps(claims)]
    returns, and [sorted] raises [TypeError] inside [_sign_credential]
    and [_verify_signature] alike. *)
Lemma credential_round_trip_fails_on_mixed_keys :
  is_Some (json_dumps_default (PDict claims_with_mixed_keys)) /\
  json_dumps_canonical (PDict claims_with_mixed_keys) = None /\
  rejected_under_every_key claims_with_mixed_keys.
Proof.
  split; [eexists; vm_compute; reflexivity|]. split; [reflexivity|].
  intros L k now1 now2 now3 salt issuer subject.
  apply mixed_keys_never_verify.
Qed.



Section create_identity_facts.
Context {L : Library}.

Lemma open_account_eq (d : draws) self :
  open_account d self =
    (if web3_available self then self
     else with_accounts
            (<[account_address false d :=
                 {| acc_private_key := drawn_account_key d;
                    acc_balance := 1000; acc_nonce := 0 |}]>
               (accounts (blockchain self))) self,
     (account_address (web3_available self) d, drawn_account_key d)).
Proof.
  unfold open_account, account_address.
  destruct (web3_available self); reflexivity.
Qed.

(** Storing the identity record never reads or writes the accounts. *)
Lemma store_identity_with_accounts now record accs self :
  store_identity now record (with_accounts accs self) =
    (with_accounts accs (fst (store_identity now record self)),
     snd (store_identity now record self)).
Proof.
  destruct self as [web3 [accs0 ctrs] scores registry addrs].
  unfold store_identity, with_accounts, with_blockchain.
  cbn [web3_available blockchain contracts accounts reputation_scores
       identity_registry contract_addresses].
  destruct web3; [reflexivity|].
  unfold _get_identity_contract. cbn [contract_addresses].
  destruct (addrs !! "identity") as [addr|];
    cbn [blockchain contracts deploy_contract accounts];
    unfold call_contract_store; cbn [contracts accounts].
  - destruct (ctrs !! addr); [|reflexivity].
    destruct (json_dumps_default record); reflexivity.
  - rewrite !lookup_insert_eq.
    destruct (json_dumps_default record); reflexivity.
Qed.

Lemma store_identity_accounts now record self :
  accounts (blockchain (fst (store_identity now record self)))
  = accounts (blockchain self).
Proof.
  unfold store_identity.
  destruct (web3_available self) eqn:Hweb3; [reflexivity|].
  unfold _get_identity_contract.
  destruct (contract_addresses self !! "identity") as [addr|];
    cbn [blockchain contracts deploy_contract accounts];
    unfold call_contract_store; cbn [contracts accounts].
  - destruct (contracts (blockchain self) !! addr); [|reflexivity].
    destruct (json_dumps_default record); reflexivity.
  - rewrite !lookup_insert_eq.
    destruct (json_dumps_default record); reflexivity.
Qed.

(** [create_identity] on the mock ledger records the account key in
    the ledger's account table, whether or not it goes on to succeed. *)
Lemma create_identity_mock_account data (d : draws) self :
  web3_available self = false ->
  accounts (blockchain (fst (create_identity data d self)))
    !! account_address false d
  = Some {| acc_private_key := drawn_account_key d;
            acc_balance := 1000; acc_nonce := 0 |}.
Proof.
  intros Hmock. unfold create_identity.
  rewrite open_account_eq, Hmock.
  match goal with
  | |- context [store_identity ?now ?record ?self'] =>
      pose proof (store_identity_accounts now record self') as Haccs;
      destruct (store_identity now record self') as [self2 [id|e]]
  end; cbn [fst] in Haccs.
  - destruct (calculate_reputation _ _ _) as [scores report].
    cbn [fst blockchain]. rewrite Haccs. apply lookup_insert_eq.
  - cbn [fst]. rewrite Haccs. apply lookup_insert_eq.
Qed.

Lemma redact_registry_insert (did : string) info
    (registry : gmap string identity_info) :
  redact_info <$> <[did := info]> registry
  = <[did := redact_info info]> (redact_info <$> registry).
Proof. apply fmap_insert. Qed.

Lemma redact_accounts_insert (address : string) acc
    (accs : gmap string account) :
  redact_account <$> <[address := acc]> accs
  = <[address := redact_account acc]> (redact_account <$> accs).
Proof. apply fmap_insert. Qed.

(** C9 (amended). Let [create_identity] run twice from the same
    service state on the same input, with two RSA keys of the same
    public PEM and two account keys of the same address. Both runs
    return the same response (or raise the same exception) and leave
    the same service state up to the private keys held in the registry
    and in the ledger's account table: the response does not depend on
    the private keys. A returned response has exactly the keys [did],
    [identity_id], [did_document], [blockchain_address],
    [verification_keys] and [created_at], and its [verification_keys]
    holds the public key PEM and nothing else. The registry entry of
    the new DID holds the RSA private key PEM and the account's private
    key; on the mock ledger the account's private key is held in the
    ledger's account table as well. *)
Theorem create_identity_private_keys (data : pyval) (d : draws)
    (k' : rsa_key) (account_key' : string) (self : BlockchainService) :
  public_bytes (public_key k') = public_bytes (public_key (drawn_key d)) ->
  account_address (web3_available self) (redraw d k' account_key')
  = account_address (web3_available self) d ->
  let out := create_identity data d self in
  let out' := create_identity data (redraw d k' account_key') self in
  snd out' = snd out /\
  public_view (fst out') = public_view (fst out) /\
  forall response, snd out = Ok response ->
    response_keys response
    = ["did"; "identity_id"; "did_document"; "blockchain_address";
       "verification_keys"; "created_at"] /\
    response_get "verification_keys" response
    = Some (PDict [("public_key",
                    PStr (public_bytes (public_key (drawn_key d))))]) /\
    (exists info,
        identity_registry (fst out)
          !! ("did:univo:" ++ account_address (web3_available self) d)%string
        = Some info /\
        private_key info = private_bytes (drawn_key d) /\
        blockchain_private_key info = drawn_account_key d) /\
    (web3_available self = false ->
     exists acc,
        accounts (blockchain (fst out)) !! account_address false d = Some acc /\
        acc_private_key acc = drawn_account_key d).
Proof.
  intros Hpub Haddr out out'.
  pose proof (create_identity_mock_account data d self) as Hledger.
  fold out in Hledger. revert Hledger.
  subst out out'. unfold create_identity.
  rewrite !open_account_eq.
  cbn [drawn_key drawn_account_key redraw now_record now_deployed
       now_registry now_reputation now_response].
  destruct (web3_available self) eqn:Hweb3.
  - (* Web3: the account comes from [Account.create()] *)
    unfold account_address in *. cbn [drawn_eth_address redraw].
    rewrite Hpub.
    destruct (store_identity _ _ self) as [self2 [id|e]].
    + destruct (calculate_reputation _ id _) as [scores report].
      cbn [fst snd]. intros _. split; [reflexivity|]. split.
      * unfold public_view. cbn. rewrite !redact_registry_insert.
        reflexivity.
      * intros response [= <-]. cbn.
        repeat split; try discriminate.
        eexists. split; [apply lookup_insert_eq|]. split; reflexivity.
    + cbn [fst snd]. intros _. split; [reflexivity|]. split; [reflexivity|].
      intros response [=].
  - (* the mock ledger *)
    change (account_address false (redraw d k' account_key'))
      with ("0x" ++ first40 (sha256_hexdigest account_key'))%string in *.
    change (account_address false d)
      with ("0x" ++ first40 (sha256_hexdigest (drawn_account_key d)))%string
      in *.
    rewrite Haddr, Hpub, !store_identity_with_accounts.
    destruct (store_identity _ _ self) as [self2 [id|e]]; cbn [fst snd].
    + destruct (calculate_reputation _ id _) as [scores report].
      cbn [fst snd]. intros Hledger. split; [reflexivity|]. split.
      * unfold public_view, with_accounts, with_blockchain. cbn.
        rewrite !redact_registry_insert, !redact_accounts_insert.
        reflexivity.
      * intros response [= <-]. cbn.
        repeat split; try discriminate.
        -- eexists. split; [apply lookup_insert_eq|]. split; reflexivity.
        -- intros _. eexists. split; [apply (Hledger eq_refl)|reflexivity].
    + intros _. split; [reflexivity|]. split.
      * unfold public_view, with_accounts, with_blockchain. cbn.
        rewrite !redact_accounts_insert. reflexivity.
      * intros response [=].
Qed.

End create_identity_facts.

(** C9, as stated, is false: [MockBlockchain.create_account] stores
    the private key it draws in [self.accounts[address]], so after
    [create_identity] that key is held by the ledger too. *)
Lemma create_identity_ledger_holds_account_key :
  account_key_kept_in_ledger (PDict [("name", PStr "Ada")]).
Proof.
  intros L d self Hmock.
  exists (account_address false d). eexists. split.
  - apply create_identity_mock_account, Hmock.
  - reflexivity.
Qed.

(** The two runs agree on the response and on the public view. *)
Lemma create_identity_private_keys_witness :
  snd (create_identity sample_profile
         (redraw sample_draws (toy_key false "alice") "ba") (new_service false))
  = snd (create_identity sample_profile sample_draws (new_service false)) /\
  public_view
    (fst (create_identity sample_profile
            (redraw sample_draws (toy_key false "alice") "ba") (new_service false)))
  = public_view
      (fst (create_identity sample_profile sample_draws (new_service false))).
Proof.
  pose proof (create_identity_private_keys (L := toy_library)
                sample_profile sample_draws (toy_key false "alice") "ba"
                (new_service false) eq_refl eq_refl) as H.
  split; [exact (proj1 H) | exact (proj1 (proj2 H))].
Defined.

(** The two runs of the witness do differ in what the registry holds. *)
Example create_identity_registry_keeps_secrets :
  (fun info => (private_key info, blockchain_private_key info)) <$>
    (identity_registry
       (fst (create_identity sample_profile sample_draws (new_service false)))
     !! "did:univo:0x195")
  = Some ("1alice", "ab")%string /\
  (fun info => (private_key info, blockchain_private_key info)) <$>
    (identity_registry
       (fst (create_identity sample_profile
               (redraw sample_draws (toy_key false "alice") "ba")
               (new_service false)))
     !! "did:univo:0x195")
  = Some ("0alice", "ba")%string.
Proof. split; vm_compute; reflexivity. Qed.

(** A record reached through the service's own events: 20 meetings,
    one positive feedback and three verified credentials clamp to 100. *)
Example calculate_reputation_after_events :
  let st := update_reputation 7 "did-a" "positive_feedback"
              (Nat.iter 3 (update_reputation 6 "did-a" "credential_verified")
                (Nat.iter 20 (update_reputation 5 "did-a" "meeting_completed") ∅)) in
  reputation_score (snd (calculate_reputation 8 "did-a" st)) = 100.
Proof. vm_compute. reflexivity. Qed.

Lemma update_reputation_other now id id' event st :
  id' <> id -> update_reputation now id event st !! id' = st !! id'.
Proof. intros Hne. unfold update_reputation. apply lookup_insert_ne. congruence. Qed.

Lemma calculate_reputation_other now id id' st :
  id' <> id -> fst (calculate_reputation now id st) !! id' = st !! id'.
Proof.
  intros Hne. destruct (st !! id) as [r|] eqn:Hr.
  - rewrite (calculate_reputation_known now id st r Hr). reflexivity.
  - rewrite (calculate_reputation_fresh now id st Hr). cbn [fst].
    apply lookup_insert_ne. congruence.
Qed.

(** The counters of the record [update_reputation] leaves. *)
Lemma update_reputation_counters now id event st :
  let r := default (default_reputation now) (st !! id) in
  let bump e := if String.eqb event e then 1 else 0 in
  exists r',
    update_reputation now id event st !! id = Some r' /\
    score r' = score r /\
    meeting_count r' = meeting_count r + bump "meeting_completed"%string /\
    positive_feedback r' = positive_feedback r + bump "positive_feedback"%string /\
    negative_feedback r' = negative_feedback r + bump "negative_feedback"%string /\
    credentials_verified r'
    = credentials_verified r + bump "credential_verified"%string.
Proof.
  intros r bump. unfold update_reputation. fold r.
  eexists. split; [apply lookup_insert_eq|]. subst bump. cbv beta.
  destruct (String.eqb event "meeting_completed") eqn:E1.
  { apply String.eqb_eq in E1 as ->. cbn. repeat split; lia. }
  destruct (String.eqb event "positive_feedback") eqn:E2.
  { apply String.eqb_eq in E2 as ->. cbn. repeat split; lia. }
  destruct (String.eqb event "negative_feedback") eqn:E3.
  { apply String.eqb_eq in E3 as ->. cbn. repeat split; lia. }
  destruct (String.eqb event "credential_verified") eqn:E4.
  { apply String.eqb_eq in E4 as ->. cbn. repeat split; lia. }
  cbn. repeat split; lia.
Qed.

(** The score [calculate_reputation] reports is [linear_score] of the
    record the identity has, or of the default one. *)
Lemma calculate_reputation_linear now id st :
  reputation_score (snd (calculate_reputation now id st))
  = linear_score (default (default_reputation now) (st !! id)) /\
  statistics (snd (calculate_reputation now id st))
  = default (default_reputation now) (st !! id).
Proof.
  destruct (st !! id) as [r|] eqn:Hr.
  - rewrite (calculate_reputation_known now id st r Hr). split; reflexivity.
  - rewrite (calculate_reputation_fresh now id st Hr). split; reflexivity.
Qed.

(** The four counters of a record. *)
Lemma run_call_counters call id st now now' :
  let r := default (default_reputation now) (st !! id) in
  let r' := default (default_reputation now') (run_call call st !! id) in
  let bump e := if is_event id e call then 1 else 0 in
  score r' = score r /\
  meeting_count r' = meeting_count r + bump "meeting_completed"%string /\
  positive_feedback r' = positive_feedback r + bump "positive_feedback"%string /\
  negative_feedback r' = negative_feedback r + bump "negative_feedback"%string /\
  credentials_verified r'
  = credentials_verified r + bump "credential_verified"%string.
Proof.
  destruct call as [t id'|t id' event]; cbn [run_call is_event]; cbv zeta.
  - destruct (String.eqb_spec id' id) as [->|Hne].
    + destruct (st !! id) as [r|] eqn:Hr.
      * rewrite (calculate_reputation_known t id st r Hr). cbn [fst].
        rewrite Hr. cbn. repeat split; lia.
      * rewrite (calculate_reputation_fresh t id st Hr). cbn [fst].
        rewrite lookup_insert_eq. cbn. repeat split; lia.
    + rewrite calculate_reputation_other by congruence.
      destruct (st !! id); cbn; repeat split; lia.
  - destruct (String.eqb_spec id' id) as [->|Hne]; cbn [andb].
    + destruct (update_reputation_counters t id event st)
        as (r' & Hr' & Hs & Hm & Hp & Hn & Hc).
      rewrite Hr'. cbn [default from_option Datatypes.id].
      rewrite Hs, Hm, Hp, Hn, Hc.
      destruct (st !! id); cbn; repeat split; reflexivity.
    + rewrite update_reputation_other by congruence.
      destruct (st !! id); cbn; repeat split; lia.
Qed.

Lemma events_cons id e call calls :
  events id e (call :: calls)
  = (if is_event id e call then 1 else 0) + events id e calls.
Proof.
  unfold events. cbn [List.filter].
  destruct (is_event id e call); cbn [length]; lia.
Qed.

Lemma run_calls_counters calls id st now now' :
  let r := default (default_reputation now) (st !! id) in
  let r' := default (default_reputation now') (run_calls calls st !! id) in
  score r' = score r /\
  meeting_count r' = meeting_count r + events id "meeting_completed" calls /\
  positive_feedback r' = positive_feedback r + events id "positive_feedback" calls /\
  negative_feedback r' = negative_feedback r + events id "negative_feedback" calls /\
  credentials_verified r'
  = credentials_verified r + events id "credential_verified" calls.
Proof.
  revert st. induction calls as [|call calls IH]; intros st; cbv zeta.
  - cbn [run_calls fold_left]. unfold events. cbn.
    destruct (st !! id); cbn; repeat split; lia.
  - change (run_calls (call :: calls) st)
      with (run_calls calls (run_call call st)).
    destruct (IH (run_call call st)) as (Hs & Hm & Hp & Hn & Hc).
    destruct (run_call_counters call id st now now)
      as (Hs' & Hm' & Hp' & Hn' & Hc').
    rewrite !events_cons.
    rewrite Hs, Hm, Hp, Hn, Hc, Hs', Hm', Hp', Hn', Hc'.
    repeat split; lia.
Qed.

(** X1. Whatever calls were made on the reputation system, the report
    of [calculate_reputation] for an identity counts the events
    recorded for it: each counter of its statistics is the counter the
    identity started from (0 without a record) plus the number of
    [update_reputation] calls of the matching event type for that
    identity, and the score is the clamped weighted sum of these
    counters. Calls for other identities, calls with an unknown event
    type and [calculate_reputation] calls do not count. *)
Theorem reputation_counts_events (now : datetime) (id : string)
    (calls : list reputation_call) (st : gmap string reputation) :
  let start := default (default_reputation now) (st !! id) in
  let report := snd (calculate_reputation now id (run_calls calls st)) in
  let meetings := meeting_count start + events id "meeting_completed" calls in
  let positive := positive_feedback start + events id "positive_feedback" calls in
  let negative := negative_feedback start + events id "negative_feedback" calls in
  let verified :=
    credentials_verified start + events id "credential_verified" calls in
  meeting_count (statistics report) = meetings /\
  positive_feedback (statistics report) = positive /\
  negative_feedback (statistics report) = negative /\
  credentials_verified (statistics report) = verified /\
  reputation_score report
  = Z.max 0 (Z.min 100 (50 + Z.min (meetings * 2) 30
                           + (positive - negative) * 5
                           + Z.min (verified * 10) 20)).
Proof.
  cbv zeta.
  destruct (calculate_reputation_linear now id (run_calls calls st))
    as [Hscore Hstats].
  destruct (run_calls_counters calls id st now now) as (_ & Hm & Hp & Hn & Hc).
  rewrite Hscore, Hstats. unfold linear_score.
  rewrite Hm, Hp, Hn, Hc. repeat split; f_equal; f_equal; lia.
Qed.

(** X2. The ['score'] entry of a reputation record is written once,
    when the record is made: after any calls on a reputation system
    that started empty, the statistics [calculate_reputation] returns
    still carry [score = 50], whatever [reputation_score] it reports. *)
Theorem stored_score_is_never_updated (now : datetime) (id : string)
    (calls : list reputation_call) :
  score (statistics (snd (calculate_reputation now id (run_calls calls ∅))))
  = 50.
Proof.
  destruct (calculate_reputation_linear now id (run_calls calls ∅))
    as [_ Hstats].
  destruct (run_calls_counters calls id ∅ now now) as (Hs & _).
  rewrite Hstats, Hs, lookup_empty. reflexivity.
Qed.

(** X3. One event moves the reported score by a bounded step in one
    direction: a completed meeting raises it by at most 2, a positive
    feedback by at most 5, a verified credential by at most 10, a
    negative feedback lowers it by at most 5, and an event of any other
    type leaves it where it was. The score stays between 0 and 100. *)
Theorem one_event_moves_the_score (now1 now2 now3 : datetime) (id : string)
    (st : gmap string reputation) :
  let before := reputation_score (snd (calculate_reputation now1 id st)) in
  let after event :=
    reputation_score
      (snd (calculate_reputation now3 id (update_reputation now2 id event st))) in
  0 <= before <= 100 /\
  before <= after "meeting_completed"%string <= before + 2 /\
  before <= after "positive_feedback"%string <= before + 5 /\
  before - 5 <= after "negative_feedback"%string <= before /\
  before <= after "credential_verified"%string <= before + 10 /\
  forall event,
    ~ In event ["meeting_completed"; "positive_feedback"; "negative_feedback";
                "credential_verified"]%string ->
    after event = before.
Proof.
  cbv zeta.
  assert (forall event,
    reputation_score
      (snd (calculate_reputation now3 id (update_reputation now2 id event st)))
    = Z.max 0 (Z.min 100
        (50 + Z.min ((meeting_count (default (default_reputation now1) (st !! id))
                      + if String.eqb event "meeting_completed" then 1 else 0) * 2) 30
            + ((positive_feedback (default (default_reputation now1) (st !! id))
                + if String.eqb event "positive_feedback" then 1 else 0)
               - (negative_feedback (default (default_reputation now1) (st !! id))
                  + if String.eqb event "negative_feedback" then 1 else 0)) * 5
            + Z.min ((credentials_verified
                        (default (default_reputation now1) (st !! id))
                      + if String.eqb event "credential_verified" then 1 else 0)
                     * 10) 20))) as Hafter.
  { intros event.
    destruct (calculate_reputation_linear now3 id
                (update_reputation now2 id event st)) as [-> _].
    destruct (update_reputation_counters now2 id event st)
      as (r' & Hr' & _ & Hm & Hp & Hn & Hc).
    rewrite Hr'. cbn [default from_option Datatypes.id]. unfold linear_score.
    rewrite Hm, Hp, Hn, Hc.
    destruct (st !! id); cbn [default from_option Datatypes.id default_reputation meeting_count
      positive_feedback negative_feedback credentials_verified];
      f_equal; f_equal; lia. }
  destruct (calculate_reputation_linear now1 id st) as [-> _].
  rewrite !Hafter. unfold linear_score. cbn [String.eqb Ascii.eqb Bool.eqb].
  repeat split; try lia.
  intros event Hevent. rewrite Hafter.
  cbn [In] in Hevent.
  destruct (String.eqb_spec event "meeting_completed"); [subst; tauto|].
  destruct (String.eqb_spec event "positive_feedback"); [subst; tauto|].
  destruct (String.eqb_spec event "negative_feedback"); [subst; tauto|].
  destruct (String.eqb_spec event "credential_verified"); [subst; tauto|].
  f_equal; f_equal; lia.
Qed.

Section service_facts.
Context {L : Library}.



End service_facts.

Section create_identity_outcome_facts.
Context {L : Library}.







(** X5. An identity that [create_identity] returned is resolved by
    [resolve_did]: the DID of the response is found, with the DID
    document of the response. *)
Theorem created_identity_resolves (data : pyval) (d : draws)
    (self : BlockchainService) (now : datetime) (response : pyval) :
  snd (create_identity data d self) = Ok response ->
  exists did document,
    response_get "did" response = Some (PStr did) /\
    response_get "did_document" response = Some document /\
    resolve_did now did (fst (create_identity data d self))
    = PDict [("found", PBool true);
             ("did_document", document);
             ("resolved_at", PStr (isoformat now))].
Proof.
  unfold create_identity.
  destruct (open_account d self) as [self1 [address account_key]].
  destruct (store_identity _ _ self1) as [self2 [id|e]]; [|discriminate].
  destruct (calculate_reputation _ id _) as [scores report].
  cbn [fst snd]. intros [= <-]. do 2 eexists.
  split; [reflexivity|]. split; [reflexivity|].
  unfold resolve_did. cbn [identity_registry].
  rewrite lookup_insert_eq. reflexivity.
Qed.

End create_identity_outcome_facts.

Section contract_facts.
Context {L : Library}.



End contract_facts.

Section credential_service_facts.
Context {L : Library} {D : Dates}.









(** X8. [verify_credential] answers valid only for a credential whose
    issuer is a registered DID, whose signature verifies under the
    public key the registry holds for that issuer, and whose expiration
    date, if it has one, has not passed: a credential with no issuer,
    an unknown issuer, a signature that fails, a date that has passed
    or cannot be read, or anything that makes the checks raise is
    answered with valid false. *)
Theorem valid_only_if_signed_by_registered_issuer
    (now_check now_credit now_verified : datetime)
    (credential_data : list (string * pyval)) (self : BlockchainService) :
  response_get "valid"
    (snd (service_verify_credential now_check now_credit now_verified
            credential_data self))
  = Some (PBool true) ->
  exists credential issuer_did issuer_info expiration_date,
    dict_get "credential" credential_data = Some credential /\
    py_get "issuer" credential = Ok (Some (PStr issuer_did)) /\
    identity_registry self !! issuer_did = Some issuer_info /\
    verify_credential credential (public_key_pem issuer_info) = true /\
    py_get "expirationDate" credential = Ok expiration_date /\
    expired now_check (default PNone expiration_date) = Ok false.
Proof.
  unfold service_verify_credential, verify_credential_body, check_credential.
  cbn [subscript].
  destruct (dict_get "credential" credential_data) as [credential|];
    [|discriminate].
  cbn [bind].
  destruct (py_get "issuer" credential) as [issuer|e] eqn:Hissuer;
    [|discriminate].
  cbn [bind].
  destruct (truthy (default PNone issuer)) eqn:Htruthy; [|discriminate].
  cbn [negb]. unfold registry_get.
  destruct issuer as [issuer|]; [|discriminate].
  cbn [default from_option Datatypes.id] in *.
  destruct issuer as [| b | z | r | issuer_did | items | items | items | t];
    cbn [str_key bind mbind option_bind]; try discriminate.
  destruct (identity_registry self !! issuer_did) as [issuer_info|] eqn:Hinfo;
    [|discriminate].
  destruct (verify_credential credential (public_key_pem issuer_info))
    eqn:Hverified; [|discriminate].
  cbn [negb].
  destruct (py_get "expirationDate" credential) as [expiration_date|e]
    eqn:Hdate; [|discriminate].
  cbn [bind].
  destruct (expired now_check (default PNone expiration_date))
    as [[|]|e] eqn:Hexpired; try discriminate.
  intros _. exists credential, issuer_did, issuer_info, expiration_date.
  repeat split; try assumption; reflexivity.
Qed.

End credential_service_facts.


Lemma created_identity_resolves_witness :
  exists did document,
    response_get "did" sample_response = Some (PStr did) /\
    response_get "did_document" sample_response = Some document /\
    resolve_did (L := toy_library) 9 did sample_service
    = PDict [("found", PBool true);
             ("did_document", document);
             ("resolved_at", PStr "9")].
Proof.
  apply (created_identity_resolves (L := toy_library) sample_profile
           sample_draws (new_service false) 9 sample_response).
  vm_compute. reflexivity.
Defined.



Lemma valid_only_if_signed_by_registered_issuer_witness :
  exists credential issuer_did issuer_info expiration_date,
    dict_get "credential" [("credential", sample_credential)] = Some credential /\
    py_get "issuer" credential = Ok (Some (PStr issuer_did)) /\
    identity_registry sample_service !! issuer_did = Some issuer_info /\
    verify_credential (L := toy_library) credential (public_key_pem issuer_info)
    = true /\
    py_get "expirationDate" credential = Ok expiration_date /\
    expired (D := toy_dates) 20 (default PNone expiration_date) = Ok false.
Proof.
  apply (valid_only_if_signed_by_registered_issuer (L := toy_library)
           (D := toy_dates) 20 21 22 [("credential", sample_credential)]
           sample_service).
  vm_compute. reflexivity.
Defined.

Section reputation_credit_facts.
Context {L : Library} {D : Dates}.



End reputation_credit_facts.


End blockchain_service_properties.

(** ** Properties of quantum_service.py *)
Module quantum_service_properties.
Import quantum_service.

(** *** Facts about the conversions *)
Lemma length_string_of_list_ascii l :
  String.length (string_of_list_ascii l) = length l.
Proof. induction l as [|c l IH]; cbn; [reflexivity | now rewrite IH]. Qed.

Lemma string_app_cons c (s1 s2 : string) :
  (String c s1 ++ s2)%string = String c (s1 ++ s2).
Proof. reflexivity. Qed.

Lemma string_of_list_ascii_app l1 l2 :
  string_of_list_ascii (l1 ++ l2)
  = (string_of_list_ascii l1 ++ string_of_list_ascii l2)%string.
Proof.
  induction l1 as [|c l1 IH]; [reflexivity|].
  cbn [app string_of_list_ascii]. now rewrite string_app_cons, IH.
Qed.

Lemma string_app_length (s1 s2 : string) :
  String.length (s1 ++ s2) = (String.length s1 + String.length s2)%nat.
Proof.
  induction s1 as [|c s1 IH]; [reflexivity|].
  rewrite string_app_cons. cbn [String.length]. now rewrite IH.
Qed.

Lemma zfill_length width s :
  String.length (zfill width s)
  = Nat.max (Z.to_nat width) (String.length s).
Proof.
  unfold zfill.
  rewrite string_app_length, length_string_of_list_ascii, repeat_length.
  lia.
Qed.

Lemma int_base2_go_bits acc bits :
  int_base2_go acc (string_of_list_ascii (List.map str_of_bit bits))
  = Some (fold_left (fun a (b : bool) => (2 * a + if b then 1 else 0)%N)
            bits acc).
Proof.
  revert acc. induction bits as [|b bits IH]; intros acc; cbn; [reflexivity|].
  destruct b; cbn; apply IH.
Qed.

(** [int(key_string, 2)] raises exactly on the empty sifted key. *)
Lemma int_base2_bits bits :
  int_base2 (string_of_list_ascii (List.map str_of_bit bits))
  = match bits with
    | [] => Raise (Exn ValueError "invalid literal for int() with base 2: ''")
    | _ => Ok (bits_value bits)
    end.
Proof.
  destruct bits as [|b bits]; [reflexivity|].
  unfold int_base2, bits_value.
  rewrite int_base2_go_bits. destruct b; reflexivity.
Qed.

Lemma bits_value_bound_from acc bits :
  (fold_left (fun a (b : bool) => (2 * a + if b then 1 else 0)%N) bits acc
   < (acc + 1) * 2 ^ N.of_nat (length bits))%N.
Proof.
  revert acc. induction bits as [|b bits IH]; intros acc.
  - cbn [fold_left length]. change (2 ^ N.of_nat 0)%N with 1%N. lia.
  - cbn [fold_left length]. specialize (IH (2 * acc + if b then 1 else 0)%N).
    rewrite Nat2N.inj_succ, N.pow_succ_r'.
    destruct b; nia.
Qed.

Lemma bits_value_bound bits :
  (bits_value bits < 2 ^ N.of_nat (length bits))%N.
Proof.
  pose proof (bits_value_bound_from 0 bits) as H. unfold bits_value. lia.
Qed.

Lemma hex_le_length fuel w n :
  (n < 16 ^ N.of_nat w)%N -> (length (hex_le fuel n) <= w)%nat.
Proof.
  revert fuel n. induction w as [|w IH]; intros fuel n Hn.
  - change (16 ^ N.of_nat 0)%N with 1%N in Hn.
    destruct fuel; cbn; [lia|].
    replace n with 0%N by lia. cbn. lia.
  - destruct fuel as [|fuel]; cbn [hex_le]; [cbn; lia|].
    destruct (N.eqb_spec n 0); [cbn; lia|]. cbn [length].
    apply le_n_S, IH.
    rewrite Nat2N.inj_succ, N.pow_succ_r' in Hn.
    apply N.Div0.div_lt_upper_bound. exact Hn.
Qed.

Lemma py_hex_length w n :
  (0 < w)%nat -> (n < 16 ^ N.of_nat w)%N ->
  (String.length (py_hex n) <= w)%nat.
Proof.
  intros Hw Hn. unfold py_hex. destruct (N.eqb_spec n 0); [cbn; lia|].
  rewrite length_string_of_list_ascii, length_map, length_rev.
  apply hex_le_length, Hn.
Qed.

Lemma hex_value_of_hex_digit d :
  (d < 16)%N -> hex_value_of_digit (hex_digit d) = Some d.
Proof.
  intros Hd. rewrite <- (N2Nat.id d).
  assert (N.to_nat d < 16)%nat as Hn by lia.
  revert Hn. generalize (N.to_nat d). clear d Hd. intros n Hn.
  do 16 (destruct n as [|n]; [vm_compute; reflexivity|]). lia.
Qed.

Lemma hex_le_digits fuel n : Forall (fun d => (d < 16)%N) (hex_le fuel n).
Proof.
  revert n. induction fuel as [|fuel IH]; intros n; cbn [hex_le].
  - constructor.
  - destruct (N.eqb_spec n 0); constructor; [|apply IH].
    apply N.mod_lt. lia.
Qed.

(** The digits of [hex_le] write the number, given fuel for its bits. *)
Lemma hex_le_value fuel n :
  (n < 2 ^ N.of_nat fuel)%N ->
  fold_right (fun d acc => (16 * acc + d)%N) 0%N (hex_le fuel n) = n.
Proof.
  revert n. induction fuel as [|fuel IH]; intros n Hn.
  - change (2 ^ N.of_nat 0)%N with 1%N in Hn. cbn. lia.
  - cbn [hex_le]. destruct (N.eqb_spec n 0) as [->|Hnz]; [reflexivity|].
    cbn [fold_right]. rewrite IH.
    + pose proof (N.div_mod n 16). lia.
    + rewrite Nat2N.inj_succ, N.pow_succ_r' in Hn.
      apply N.Div0.div_lt_upper_bound. lia.
Qed.

Lemma hex_value_go_digits acc ds :
  Forall (fun d => (d < 16)%N) ds ->
  hex_value_go acc (string_of_list_ascii (List.map hex_digit ds))
  = Some (fold_left (fun a d => (16 * a + d)%N) ds acc).
Proof.
  intros Hds. revert acc.
  induction Hds as [|d ds Hd _ IH]; intros acc; [reflexivity|].
  cbn [List.map string_of_list_ascii hex_value_go fold_left].
  rewrite (hex_value_of_hex_digit d Hd). apply IH.
Qed.

Lemma hex_value_go_py_hex n : hex_value_go 0 (py_hex n) = Some n.
Proof.
  unfold py_hex. destruct (N.eqb_spec n 0) as [->|Hnz]; [reflexivity|].
  rewrite hex_value_go_digits
    by (apply Forall_rev, hex_le_digits).
  rewrite <- fold_left_rev_right, rev_involutive. f_equal.
  apply hex_le_value. rewrite N2Nat.id. apply N.size_gt.
Qed.

Lemma hex_value_go_zeros count s :
  hex_value_go 0 (string_of_list_ascii (List.repeat "0"%char count) ++ s)
  = hex_value_go 0 s.
Proof.
  induction count as [|count IH]; [reflexivity|].
  cbn [List.repeat string_of_list_ascii]. rewrite string_app_cons.
  cbn [hex_value_go]. exact IH.
Qed.

Lemma py_hex_nonempty n : py_hex n <> EmptyString.
Proof.
  intros Hempty. pose proof (hex_value_go_py_hex n) as Hvalue.
  rewrite Hempty in Hvalue. cbn in Hvalue.
  injection Hvalue as Hzero. subst n. discriminate Hempty.
Qed.

(** Reading the padded digits back gives the number. *)
Lemma hex_value_zfill width n :
  hex_value (zfill width (py_hex n)) = Some n.
Proof.
  unfold hex_value.
  destruct (zfill width (py_hex n)) as [|c s] eqn:Hz.
  - exfalso. apply (py_hex_nonempty n).
    pose proof (zfill_length width (py_hex n)) as Hlen.
    rewrite Hz in Hlen. cbn in Hlen.
    destruct (py_hex n); [reflexivity | cbn in Hlen; lia].
  - rewrite <- Hz. unfold zfill.
    rewrite hex_value_go_zeros. apply hex_value_go_py_hex.
Qed.

Lemma token_hex_length random_byte nbytes :
  0 <= nbytes ->
  exists key, token_hex random_byte nbytes = Ok key /\
              Z.of_nat (String.length key) = 2 * nbytes.
Proof.
  intros Hn. unfold token_hex.
  destruct (Z.ltb_spec nbytes 0); [lia|].
  eexists. split; [reflexivity|].
  rewrite length_string_of_list_ascii.
  assert (forall l : list nat,
             length (List.flat_map (fun i => byte_hex (random_byte i)) l)
             = (2 * length l)%nat) as Hlen.
  { induction l as [|i l IH]; [reflexivity|]. cbn. rewrite IH. lia. }
  rewrite Hlen, length_seq. lia.
Qed.

(** The loop of the code sifts as the claim says: on three lists of
    one length it keeps Alice's bits where the bases coincide. *)
Lemma sift_coinciding (alice_bits alice_bases bob_bases : list bool) :
  length alice_bases = length alice_bits ->
  length bob_bases = length alice_bits ->
  sift alice_bits alice_bases bob_bases
  = bits_at_coinciding_bases alice_bits alice_bases bob_bases.
Proof.
  unfold sift. revert alice_bases bob_bases.
  induction alice_bits as [|bit bits IH];
    intros [|alice_basis alice] [|bob_basis bob]; try discriminate;
    [reflexivity|].
  intros [= Halice] [= Hbob].
  cbn [length seq flat_map nth bits_at_coinciding_bases].
  rewrite <- seq_shift, flat_map_concat_map, map_map, <- flat_map_concat_map.
  cbn [nth]. rewrite (IH alice bob Halice Hbob).
  destruct (Bool.eqb alice_basis bob_basis); reflexivity.
Qed.

(** C4, as stated, is false, on three runs:
    - with the simulator and [key_length = 1], Alice choosing the
      rectilinear basis twice and Bob the diagonal one twice, no basis
      coincides, [int('', 2)] raises [ValueError] and no key is
      returned;
    - with the simulator and [key_length = 6], all bases equal and all
      bits 1, the key is "3f": two digits, where 6/4 is one digit and a
      half;
    - without the simulator and [key_length = 12], the key has the two
      digits of [token_hex(1)], so 8 bits and not 12. *)
Lemma generate_bb84_key_not_key_length_bits :
  generate_bb84_key true (coin_of [true; false; false; false; true; true])
    (fun _ => false) (fun _ => "000"%char) 1
  = Raise (Exn ValueError "invalid literal for int() with base 2: ''") /\
  generate_bb84_key true (fun i => Nat.ltb i 12)
    (fun _ => false) (fun _ => "000"%char) 6
  = Ok ("3f"%string, List.repeat false 12, List.repeat false 12) /\
  4 * Z.of_nat (String.length "3f") <> 6 /\
  generate_bb84_key false (fun _ => false) (fun _ => false)
    (fun _ => "171"%char) 12
  = Ok ("ab"%string, [], []) /\
  4 * Z.of_nat (String.length "ab") <> 12.
Proof. repeat split; vm_compute; congruence. Qed.

(** C4 (amended). With the simulator, let Alice's bits and bases and
    Bob's bases be the first, second and third [2 * key_length] draws,
    and let the sifted key be Alice's bits at the positions where the
    two bases coincide, in order ([bits_at_coinciding_bases]), cut to
    [key_length] bits. If the
    sifted key is not empty, [key_length] is a multiple of 4, the
    function returns a key of exactly [key_length / 4] hexadecimal
    digits that writes the number of the sifted bits, together with
    both basis lists. Without the simulator and for [key_length >= 0]
    it returns a key of [2 * (key_length // 8)] hexadecimal digits,
    which are [key_length] bits when [key_length] is a multiple of 8,
    with two empty basis lists. *)
Theorem generate_bb84_key_sifted (coin shot : nat -> bool)
    (random_byte : nat -> ascii) (key_length : Z) :
  let n := Z.to_nat (key_length * 2) in
  let alice_bits := randbelow2 coin 0 (key_length * 2) in
  let alice_bases := randbelow2 coin n (key_length * 2) in
  let bob_bases := randbelow2 coin (n + n) (key_length * 2) in
  let sifted :=
    firstn (Z.to_nat key_length)
      (bits_at_coinciding_bases alice_bits alice_bases bob_bases) in
  (sifted <> [] -> key_length mod 4 = 0 ->
   exists key_hex,
     generate_bb84_key true coin shot random_byte key_length
     = Ok (key_hex, alice_bases, bob_bases) /\
     Z.of_nat (String.length key_hex) = key_length / 4 /\
     hex_value key_hex = Some (bits_value sifted)) /\
  (0 <= key_length ->
   exists key,
     generate_bb84_key false coin shot random_byte key_length
     = Ok (key, [], []) /\
     Z.of_nat (String.length key) = 2 * (key_length / 8) /\
     (key_length mod 8 = 0 ->
      4 * Z.of_nat (String.length key) = key_length)).
Proof.
  intros n alice_bits alice_bases bob_bases sifted. split.
  - intros Hsifted Hmod.
    assert (0 < key_length) as Hpos.
    { destruct (Z.ltb_spec 0 key_length) as [|Hle]; [assumption|].
      exfalso. apply Hsifted. subst sifted.
      replace (Z.to_nat key_length) with 0%nat by lia. reflexivity. }
    unfold generate_bb84_key. cbn [negb].
    fold n. fold alice_bits. fold alice_bases. fold bob_bases.
    rewrite (sift_coinciding alice_bits alice_bases bob_bases)
      by (unfold alice_bits, alice_bases, bob_bases, randbelow2;
          rewrite !length_map, !length_seq; reflexivity).
    unfold slice_to. destruct (Z.leb_spec 0 key_length); [|lia].
    fold sifted. rewrite int_base2_bits.
    destruct sifted as [|bit rest] eqn:Hs; [congruence|]. rewrite <- Hs.
    cbn [bind]. eexists. split; [reflexivity|]. split.
    + rewrite zfill_length.
      assert (String.length (py_hex (bits_value sifted))
              <= Z.to_nat (key_length / 4))%nat as Hlen.
      { apply py_hex_length.
        - pose proof (Z.div_mod key_length 4). lia.
        - eapply N.lt_le_trans; [apply bits_value_bound|].
          replace 16%N with (2 ^ 4)%N by reflexivity.
          rewrite <- N.pow_mul_r. apply N.pow_le_mono_r; [lia|].
          assert (length sifted <= Z.to_nat key_length)%nat
            by (rewrite Hs, <- Hs; unfold sifted;
                rewrite length_firstn; lia).
          pose proof (Z.div_mod key_length 4). lia. }
      pose proof (Z.div_mod key_length 4). lia.
    + apply hex_value_zfill.
  - intros Hlen. unfold generate_bb84_key. cbn [negb].
    destruct (token_hex_length random_byte (key_length / 8)) as (key & -> & Hk).
    { apply Z.div_pos; lia. }
    cbn [bind]. eexists. split; [reflexivity|]. split; [exact Hk|].
    intros Hmod. pose proof (Z.div_mod key_length 8). lia.
Qed.

(** A run with [key_length = 4] whose sifted key is 1010, and the
    fallback with [key_length = 16]. *)
Lemma generate_bb84_key_sifted_witness :
  (exists key_hex,
      generate_bb84_key true
        (coin_of [true; false; true; true; false; true; false; false;
                  false; true; true; false; true; false; true; true;
                  false; true; false; false; true; true; true; false])
        (fun _ => false) (fun _ => "000"%char) 4
      = Ok (key_hex,
            [false; true; true; false; true; false; true; true],
            [false; true; false; false; true; true; true; false]) /\
      Z.of_nat (String.length key_hex) = 1 /\
      hex_value key_hex = Some 10%N) /\
  (exists key,
      generate_bb84_key false (fun _ => false) (fun _ => false)
        (fun _ => "171"%char) 16
      = Ok (key, [], []) /\
      Z.of_nat (String.length key) = 4 /\
      4 * Z.of_nat (String.length key) = 16).
Proof.
  split.
  - apply (generate_bb84_key_sifted
             (coin_of [true; false; true; true; false; true; false; false;
                       false; true; true; false; true; false; true; true;
                       false; true; false; false; true; true; true; false])
             (fun _ => false) (fun _ => "000"%char) 4).
    + vm_compute. discriminate.
    + reflexivity.
  - destruct (generate_bb84_key_sifted (fun _ => false) (fun _ => false)
                (fun _ => "171"%char) 16) as [_ Hfallback].
    destruct Hfallback as (key & Hrun & Hlen & Hbits); [lia|].
    exists key. repeat split; [exact Hrun | exact Hlen | apply Hbits].
    reflexivity.
Defined.

Example bb84_run :
  generate_bb84_key true
    (coin_of [true; false; true; true; false; true; false; false;
              false; true; true; false; true; false; true; true;
              false; true; false; false; true; true; true; false])
    (fun _ => false) (fun _ => "000"%char) 4
  = Ok ("a"%string,
        [false; true; true; false; true; false; true; true],
        [false; true; false; false; true; true; true; false]).
Proof. vm_compute. reflexivity. Qed.

Lemma byte_of_Z_NUL z : 0 <= z < 256 -> byte_of_Z z = NUL -> z = 0.
Proof.
  intros Hz Hb. unfold byte_of_Z in Hb.
  rewrite Z.mod_small in Hb by lia.
  apply (f_equal N_of_ascii) in Hb.
  rewrite N_ascii_embedding in Hb by lia.
  change (N_of_ascii NUL) with 0%N in Hb. lia.
Qed.

(** What is cut at the first zero holds no zero byte. *)
Lemma cut_at_first_zero_no_NUL (decrypted : list Z) :
  Forall (fun z => 0 <= z < 256) decrypted ->
  ~ In NUL
      match first_zero decrypted with
      | Some end_idx => firstn end_idx (List.map byte_of_Z decrypted)
      | None => List.map byte_of_Z decrypted
      end.
Proof.
  induction 1 as [|z l Hz _ IH]; [intros []|].
  cbn [first_zero]. destruct (Z.eqb_spec z 0) as [->|Hnz]; [intros []|].
  destruct (first_zero l) as [i|]; cbn [fmap option_fmap option_map List.map firstn];
    intros [Hhead|Htail]; try (apply IH; exact Htail);
    apply Hnz, byte_of_Z_NUL; assumption.
Qed.

(** [lattice_decrypt] never returns a message with a zero byte in it. *)
Lemma lattice_decrypt_no_NUL ciphertext private_key message :
  lattice_decrypt ciphertext private_key = Ok message -> ~ In NUL message.
Proof.
  unfold lattice_decrypt.
  destruct (frombuffer_uint32 ciphertext) as [words|e]; [|discriminate].
  cbn [bind].
  pose proof (cut_at_first_zero_no_NUL
                (List.map (fun c => c mod 256)
                   (List.map int32_of_uint32 words))) as Hcut.
  destruct (first_zero _) as [i|]; intros [= <-]; apply Hcut;
    apply List.Forall_forall; intros z [c [<- _]]%in_map_iff;
    apply Z.mod_pos_bound; lia.
Qed.

Lemma randint_draw_repeat low high x :
  low <= x < high -> randint_draw low high (List.repeat x lattice_dimension).
Proof.
  intros Hx. split; [apply repeat_length|].
  apply List.Forall_forall. intros y Hy.
  apply repeat_spec in Hy as ->. exact Hx.
Qed.

(** C3 does not hold of the code. The key pair of the draws "all
    private coefficients 0, all key noise 1" has the public key 1
    everywhere; encrypting the one-byte message "A" with the noise 1
    everywhere and decrypting gives 512 bytes, "B" followed by 511
    bytes of value 1. And whatever the keys and the noise, the one-byte
    message of value 0 never comes back: [lattice_decrypt] returns no
    message that holds a zero byte. *)
Theorem lattice_decrypt_does_not_invert :
  (randint_draw (-1) 2 (List.repeat 0 lattice_dimension) /\
   randint_draw (-10) 11 (List.repeat 1 lattice_dimension) /\
   randint_draw (-5) 6 (List.repeat 1 lattice_dimension) /\
   lattice_round_trip (List.repeat 1 lattice_dimension) ["A"%char]
     (generate_lattice_keypair (List.repeat 0 lattice_dimension)
        (List.repeat 1 lattice_dimension))
   = Ok ("B"%char :: List.repeat "001"%char 511)) /\
  (forall noise keys, lattice_round_trip noise [NUL] keys <> Ok [NUL]).
Proof.
  split.
  - split; [apply randint_draw_repeat; lia|].
    split; [apply randint_draw_repeat; lia|].
    split; [apply randint_draw_repeat; lia|].
    vm_compute. reflexivity.
  - intros noise keys. unfold lattice_round_trip.
    destruct (lattice_encrypt noise [NUL] (fst keys)) as [ciphertext|e];
      [|discriminate].
    cbn [bind]. intros Hback.
    apply lattice_decrypt_no_NUL in Hback. apply Hback. left. reflexivity.
Qed.

Lemma toy_codec_laws : CodecLaws toy_codec.
Proof.
  split; cbn.
  - intros _ _ data. apply length_rev.
  - intros _ _ data _ _ _. apply rev_involutive.
  - intros message bytes [= <-]. f_equal. apply string_of_list_ascii_of_string.
  - intros bytes. f_equal. apply list_ascii_of_string_of_list_ascii.
Qed.

(** *** Facts about [bytes.fromhex] *)
Lemma hex_digit_nibble d :
  (d < 16)%N ->
  hex_nibble (hex_digit d) = Some (Z.of_N d) /\
  is_ascii_space (hex_digit d) = false.
Proof.
  intros Hd. rewrite <- (N2Nat.id d).
  assert (N.to_nat d < 16)%nat as Hn by lia.
  revert Hn. generalize (N.to_nat d). clear d Hd. intros n Hn.
  do 16 (destruct n as [|n]; [vm_compute; split; reflexivity|]). lia.
Qed.

Lemma fromhex_chars_digits (s : list ascii) :
  Forall hex_char s -> Nat.even (length s) = true ->
  exists bytes, fromhex_chars s = Ok bytes /\
                (2 * length bytes = length s)%nat.
Proof.
  revert s.
  enough (forall n (s : list ascii), (length s <= n)%nat ->
            Forall hex_char s -> Nat.even (length s) = true ->
            exists bytes, fromhex_chars s = Ok bytes /\
                          (2 * length bytes = length s)%nat) as H
    by (intros s; apply (H (length s)); lia).
  induction n as [|n IH]; intros s Hn Hs Heven.
  - destruct s; [|cbn in Hn; lia]. exists []. split; reflexivity.
  - destruct s as [|c [|c' s]].
    + exists []. split; reflexivity.
    + discriminate Heven.
    + apply Forall_cons in Hs as [(d & Hd & ->) Hs].
      apply Forall_cons in Hs as [(d' & Hd' & ->) Hs].
      destruct (hex_digit_nibble d Hd) as [Hnib Hspace].
      destruct (hex_digit_nibble d' Hd') as [Hnib' _].
      destruct (IH s) as (bytes & Hbytes & Hlen);
        [cbn in Hn; lia | exact Hs | exact Heven |].
      eexists. cbn [fromhex_chars]. rewrite Hspace, Hnib, Hnib', Hbytes.
      split; [reflexivity|]. cbn [length]. lia.
Qed.

Lemma list_ascii_of_string_app (s1 s2 : string) :
  list_ascii_of_string (s1 ++ s2)
  = list_ascii_of_string s1 ++ list_ascii_of_string s2.
Proof.
  induction s1 as [|c s1 IH]; [reflexivity|].
  rewrite string_app_cons. cbn. now rewrite IH.
Qed.

Lemma length_list_ascii_of_string (s : string) :
  length (list_ascii_of_string s) = String.length s.
Proof. induction s as [|c s IH]; cbn; [reflexivity | now rewrite IH]. Qed.

Lemma py_hex_chars n : Forall hex_char (list_ascii_of_string (py_hex n)).
Proof.
  unfold py_hex. destruct (N.eqb_spec n 0).
  - repeat constructor. exists 0%N. split; [lia | reflexivity].
  - rewrite list_ascii_of_string_of_list_ascii.
    apply Forall_map, Forall_rev.
    eapply Forall_impl; [apply hex_le_digits|].
    intros d Hd. exists d. split; [exact Hd | reflexivity].
Qed.

Lemma zfill_chars width s :
  Forall hex_char (list_ascii_of_string s) ->
  Forall hex_char (list_ascii_of_string (zfill width s)).
Proof.
  intros Hs. unfold zfill.
  rewrite list_ascii_of_string_app, list_ascii_of_string_of_list_ascii.
  apply Forall_app. split; [|exact Hs].
  apply List.Forall_forall. intros c Hc. apply repeat_spec in Hc as ->.
  exists 0%N. split; [lia | reflexivity].
Qed.

Lemma token_hex_chars (random_byte : nat -> ascii) (l : list nat) :
  Forall hex_char (List.flat_map (fun i => byte_hex (random_byte i)) l) /\
  (length (List.flat_map (fun i => byte_hex (random_byte i)) l)
   = 2 * length l)%nat.
Proof.
  induction l as [|i l [IH IHlen]]; [split; [constructor | reflexivity]|].
  cbn [List.flat_map]. split.
  - apply Forall_app. split; [|exact IH].
    pose proof (N_ascii_bounded (random_byte i)) as Hb.
    unfold byte_hex. repeat constructor.
    + eexists. split; [|reflexivity].
      apply N.Div0.div_lt_upper_bound. exact Hb.
    + eexists. split; [|reflexivity]. apply N.mod_lt. lia.
  - rewrite length_app, IHlen. cbn. lia.
Qed.

Lemma even_double n : Nat.even (2 * n) = true.
Proof. rewrite Nat.even_mul. reflexivity. Qed.

Lemma check_key_firstn (key_bytes : list ascii) :
  check_key (firstn 32 key_bytes) = Ok tt <->
  (length key_bytes = 16 \/ length key_bytes = 24 \/ 32 <= length key_bytes)%nat.
Proof.
  unfold check_key. rewrite length_firstn.
  destruct (Nat.eqb_spec (Init.Nat.min 32 (length key_bytes)) 16);
  destruct (Nat.eqb_spec (Init.Nat.min 32 (length key_bytes)) 24);
  destruct (Nat.eqb_spec (Init.Nat.min 32 (length key_bytes)) 32);
    cbn [orb]; split; intros H; try reflexivity; try discriminate; lia.
Qed.

Lemma slice_to_length_le {A} stop (l : list A) :
  0 < stop -> Z.of_nat (length (slice_to stop l)) <= stop.
Proof.
  intros Hstop. unfold slice_to.
  destruct (Z.leb_spec 0 stop); [|lia]. rewrite length_firstn. lia.
Qed.

Lemma generated_key_bytes (qiskit : bool) (coin shot : nat -> bool)
    (random_byte : nat -> ascii) (key_length : Z) (key : string)
    (alice_bases bob_bases : list bool) :
  generate_bb84_key qiskit coin shot random_byte key_length
  = Ok (key, alice_bases, bob_bases) ->
  qiskit = false \/ key_length mod 8 = 0 ->
  exists key_bytes,
    fromhex key = Ok key_bytes /\
    Z.of_nat (length key_bytes) = key_length / 8 /\
    (check_key (firstn 32 key_bytes) = Ok tt <->
     key_length / 8 = 16 \/ key_length / 8 = 24 \/ 32 <= key_length / 8).
Proof.
  intros Hkey Hmode.
  enough (exists key_bytes,
             fromhex key = Ok key_bytes /\
             Z.of_nat (length key_bytes) = key_length / 8)
    as (key_bytes & Hbytes & Hlen).
  { exists key_bytes. split; [exact Hbytes|]. split; [exact Hlen|].
    rewrite check_key_firstn. lia. }
  unfold generate_bb84_key in Hkey. destruct qiskit; cbn [negb] in Hkey.
  - (* the simulator *)
    destruct Hmode as [|Hmod]; [discriminate|].
    set (sifted :=
           slice_to key_length
             (sift (randbelow2 coin 0 (key_length * 2))
                (randbelow2 coin (Z.to_nat (key_length * 2)) (key_length * 2))
                (randbelow2 coin
                   (Z.to_nat (key_length * 2) + Z.to_nat (key_length * 2))
                   (key_length * 2)))) in Hkey.
    cbv zeta in Hkey. rewrite int_base2_bits in Hkey.
    destruct sifted as [|bit bits] eqn:Hsifted; [discriminate|].
    cbn [bind] in Hkey. injection Hkey as <- _ _.
    assert (0 < key_length) as Hpos.
    { destruct (Z.ltb_spec 0 key_length) as [|Hneg]; [assumption|].
      exfalso. subst sifted. unfold slice_to in Hsifted.
      unfold sift, randbelow2 in Hsifted.
      replace (Z.to_nat (key_length * 2)) with 0%nat in Hsifted by lia.
      cbn in Hsifted. rewrite !firstn_nil in Hsifted.
      destruct (0 <=? key_length); discriminate. }
    pose proof (slice_to_length_le key_length
                  (sift (randbelow2 coin 0 (key_length * 2))
                     (randbelow2 coin (Z.to_nat (key_length * 2)) (key_length * 2))
                     (randbelow2 coin
                        (Z.to_nat (key_length * 2) + Z.to_nat (key_length * 2))
                        (key_length * 2))) Hpos) as Hslice.
    fold sifted in Hslice. rewrite Hsifted in Hslice.
    pose proof (bits_value_bound (bit :: bits)) as Hbound.
    pose proof (Z.div_mod key_length 8 ltac:(lia)) as Hdiv8.
    assert (key_length / 4 = 2 * (key_length / 8)) as Hquarter.
    { rewrite Hdiv8 at 1. rewrite Hmod, Z.add_0_r.
      replace (8 * (key_length / 8)) with ((2 * (key_length / 8)) * 4) by lia.
      apply Z.div_mul. lia. }
    assert (String.length (zfill (key_length / 4) (py_hex (bits_value (bit :: bits))))
            = Z.to_nat (key_length / 4)) as Hlength.
    { rewrite zfill_length.
      pose proof (py_hex_length (Z.to_nat (key_length / 4))
                    (bits_value (bit :: bits))) as Hhex.
      assert (String.length (py_hex (bits_value (bit :: bits)))
              <= Z.to_nat (key_length / 4))%nat; [|lia].
      apply Hhex; [lia|].
      eapply N.lt_le_trans; [exact Hbound|].
      replace (16 ^ N.of_nat (Z.to_nat (key_length / 4)))%N
        with (2 ^ (4 * N.of_nat (Z.to_nat (key_length / 4))))%N
        by (rewrite N.pow_mul_r; reflexivity).
      apply N.pow_le_mono_r; lia. }
    destruct (fromhex_chars_digits
                (list_ascii_of_string
                   (zfill (key_length / 4) (py_hex (bits_value (bit :: bits))))))
      as (key_bytes & Hbytes & Hlen).
    + apply zfill_chars, py_hex_chars.
    + rewrite length_list_ascii_of_string, Hlength, Hquarter.
      replace (Z.to_nat (2 * (key_length / 8)))
        with (2 * Z.to_nat (key_length / 8))%nat by lia.
      apply even_double.
    + exists key_bytes. split; [exact Hbytes|].
      rewrite length_list_ascii_of_string, Hlength in Hlen. lia.
  - (* the classical fallback *)
    unfold token_hex in Hkey.
    destruct (Z.ltb_spec (key_length / 8) 0) as [|Hnonneg]; [discriminate|].
    cbn [bind] in Hkey. injection Hkey as <- _ _.
    destruct (token_hex_chars random_byte (seq 0 (Z.to_nat (key_length / 8))))
      as [Hchars Hcount].
    destruct (fromhex_chars_digits
                (List.flat_map (fun i => byte_hex (random_byte i))
                   (seq 0 (Z.to_nat (key_length / 8)))))
      as (key_bytes & Hbytes & Hlen).
    + exact Hchars.
    + rewrite Hcount. apply even_double.
    + exists key_bytes. unfold fromhex.
      rewrite list_ascii_of_string_of_list_ascii.
      split; [exact Hbytes|]. rewrite Hcount, length_seq in Hlen. lia.
Qed.

Section aes_facts.
Context {C : Codec} {CL : CodecLaws C}.

Lemma byte_of_Z_small z :
  0 <= z < 256 -> Z_of_byte (byte_of_Z z) = z.
Proof.
  intros Hz. unfold Z_of_byte, byte_of_Z.
  rewrite Z.mod_small by lia. rewrite N_ascii_embedding by lia. lia.
Qed.

Lemma length_urandom random_byte n : length (urandom random_byte n) = n.
Proof. unfold urandom. now rewrite length_map, length_seq. Qed.

Lemma last_app_repeat {A} (l : list A) x n :
  last (l ++ List.repeat x (S n)) = Some x.
Proof.
  replace (List.repeat x (S n)) with (List.repeat x n ++ [x]).
  - rewrite app_assoc. apply last_snoc.
  - clear. induction n as [|n IH]; [reflexivity|].
    cbn [List.repeat app] in *. now rewrite IH.
Qed.

Lemma aes_encrypt_decrypt (random_byte : nat -> ascii) (data : list ascii)
    (key_hex : string) (key_bytes : list ascii) :
  fromhex key_hex = Ok key_bytes ->
  aes_key (firstn 32 key_bytes) ->
  exists encrypted,
    _aes_encrypt random_byte data key_hex = Ok encrypted /\
    length encrypted = (16 + 16 * (length data / 16 + 1))%nat /\
    _aes_decrypt encrypted key_hex = Ok data.
Proof.
  intros Hhex Hkey.
  assert (check_key (firstn 32 key_bytes) = Ok tt) as Hcheck.
  { unfold check_key. destruct Hkey as [-> | [-> | ->]]; reflexivity. }
  pose proof (Nat.mod_upper_bound (length data) 16 ltac:(lia)) as Hmod.
  pose proof (Nat.div_mod_eq (length data) 16) as Hdiv.
  set (padding_length := (16 - length data mod 16)%nat).
  set (padded :=
         data ++ List.repeat (byte_of_Z (Z.of_nat padding_length)) padding_length).
  assert (length padded = (16 * (length data / 16 + 1))%nat) as Hpadded.
  { unfold padded. rewrite length_app, repeat_length. unfold padding_length. lia. }
  assert ((length padded mod 16 = 0)%nat) as Hblocks.
  { rewrite Hpadded, Nat.mul_comm. apply Nat.Div0.mod_mul. }
  exists (urandom random_byte 16
            ++ aes_cbc_encrypt (firstn 32 key_bytes) (urandom random_byte 16)
                 padded).
  split; [|split].
  - unfold _aes_encrypt. rewrite Hhex. cbn [bind]. rewrite Hcheck. reflexivity.
  - rewrite length_app, length_urandom, aes_cbc_length, Hpadded. reflexivity.
  - unfold _aes_decrypt. rewrite Hhex. cbn [bind]. rewrite Hcheck. cbn [bind].
    rewrite firstn_app, length_urandom, Nat.sub_diag, firstn_O, app_nil_r.
    rewrite firstn_all2 by (rewrite length_urandom; lia).
    rewrite skipn_app, length_urandom, Nat.sub_diag, skipn_O.
    rewrite skipn_all2 by (rewrite length_urandom; lia). rewrite app_nil_l.
    unfold check_iv. rewrite length_urandom. cbn [Nat.eqb bind].
    rewrite aes_cbc_length, Hblocks. cbn [Nat.eqb negb].
    rewrite aes_cbc_decrypt_encrypt
      by (try exact Hkey; try exact Hblocks; apply length_urandom).
    assert (exists n, padding_length = S n) as [n Hn]
      by (exists (padding_length - 1)%nat; unfold padding_length; lia).
    unfold padded at 1. rewrite Hn at 2. rewrite last_app_repeat.
    rewrite byte_of_Z_small by (unfold padding_length; lia).
    rewrite Nat2Z.id.
    destruct (Nat.eqb_spec padding_length 0); [lia|].
    f_equal. unfold padded at 1. rewrite length_app, repeat_length.
    replace (length data + padding_length - padding_length)%nat
      with (length data) by lia.
    unfold padded. rewrite firstn_app, Nat.sub_diag, firstn_O, app_nil_r.
    apply firstn_all.
Qed.

(** X9. The padding of [_aes_encrypt] is undone by [_aes_decrypt].
    Under a key whose first 32 bytes are an AES key, [_aes_encrypt]
    returns the 16 bytes of the IV followed by the data padded to the
    next whole block (a full block of padding when the data is whole
    blocks already), and [_aes_decrypt] with the same key returns the
    data. The cipher is taken at its documented behaviour. *)
Theorem aes_round_trip (random_byte : nat -> ascii) (data : list ascii)
    (key_hex : string) (key_bytes : list ascii) :
  fromhex key_hex = Ok key_bytes ->
  aes_key (firstn 32 key_bytes) ->
  exists encrypted,
    _aes_encrypt random_byte data key_hex = Ok encrypted /\
    length encrypted = (16 + 16 * (length data / 16 + 1))%nat /\
    _aes_decrypt encrypted key_hex = Ok data.
Proof. apply aes_encrypt_decrypt. Qed.

End aes_facts.

(** X10. A key of [generate_bb84_key] read back as bytes. When the call
    returns (with the simulator for a [key_length] that is a multiple
    of 8, without it for any [key_length]) the key is the hexadecimal
    text of exactly [key_length // 8] bytes: [bytes.fromhex] accepts it.
    [_aes_encrypt] and [_aes_decrypt] cut it to 32 bytes, so AES accepts
    the key exactly when [key_length // 8] is 16, 24 or at least 32; for
    any other length every encryption on the channel raises. *)
Theorem generated_key_is_whole_bytes (qiskit : bool) (coin shot : nat -> bool)
    (random_byte : nat -> ascii) (key_length : Z) (key : string)
    (alice_bases bob_bases : list bool) :
  generate_bb84_key qiskit coin shot random_byte key_length
  = Ok (key, alice_bases, bob_bases) ->
  qiskit = false \/ key_length mod 8 = 0 ->
  exists key_bytes,
    fromhex key = Ok key_bytes /\
    Z.of_nat (length key_bytes) = key_length / 8 /\
    (check_key (firstn 32 key_bytes) = Ok tt <->
     key_length / 8 = 16 \/ key_length / 8 = 24 \/ 32 <= key_length / 8).
Proof. apply generated_key_bytes. Qed.

Section service_facts.
Context {C : Codec} {CL : CodecLaws C}.

Lemma token_hex_16 random_byte :
  exists channel_id, token_hex random_byte 16 = Ok channel_id.
Proof. eexists. reflexivity. Qed.

(** X11. On a quantum channel [decrypt_data] undoes [encrypt_data].
    Let [generate_keys] have returned for a request of type
    ['quantum'] whose key length gives an AES key (with the simulator a
    multiple of 8; 16, 24 or at least 32 bytes; the default 256 is
    one). Then [encrypt_data] on the channel returns for every message
    UTF-8 can encode, counts the message on the channel, and
    [decrypt_data] on its ['encrypted_data'] returns the message. The
    packages are taken at their documented behaviour. *)
Theorem quantum_channel_round_trip (d : key_draws) (request : key_request)
    (self self1 : QuantumCryptographyService) (generated : generated_keys)
    (iv_bytes : nat -> ascii) (noise : list Z) (now1 now2 : Z)
    (message : text) (encoded : list ascii) :
  request_type request = Some "quantum"%string ->
  (let key_length := default 256 (request_length request) in
   (qiskit_available self = false \/ key_length mod 8 = 0) /\
   (key_length / 8 = 16 \/ key_length / 8 = 24 \/ 32 <= key_length / 8)) ->
  generate_keys d request self = (self1, Ok generated) ->
  utf8_encode message = Ok encoded ->
  let channel_id := gk_channel_id generated in
  let sent := encrypt_data iv_bytes noise now1 channel_id message self1 in
  exists response,
    snd sent = Ok response /\
    encryption_method response = "AES_with_quantum_key"%string /\
    message_count <$> (active_channels (fst sent) !! channel_id) = Some 1 /\
    decrypt_data now2 channel_id (encrypted_data response) (fst sent)
    = Ok {| dec_channel_id := channel_id;
            decrypted_message := message;
            decrypted_at := isoformat now2 |}.
Proof.
  intros Htype Hlen Hgenerated Hencoded channel_id sent.
  cbv zeta in Hlen. destruct Hlen as [Hmode Hsize].
  subst sent channel_id. unfold generate_keys in Hgenerated.
  remember (default 256 (request_length request)) as key_length eqn:Hdefault.
  clear Hdefault.
  rewrite Htype in Hgenerated. cbn [default from_option Datatypes.id] in Hgenerated.
  destruct (token_hex_16 (channel_bytes d)) as [drawn_id Hdrawn].
  rewrite Hdrawn in Hgenerated.
  unfold make_keys in Hgenerated. cbn [String.eqb Ascii.eqb Bool.eqb] in Hgenerated.
  destruct (generate_bb84_key (qiskit_available self) (coin d) (shot d)
              (key_bytes d) key_length)
    as [[[key alice_bases] bob_bases]|e] eqn:Hkey; [|discriminate].
  cbn [bind] in Hgenerated. injection Hgenerated as <- <-.
  cbn [gk_channel_id].
  destruct (generated_key_bytes _ _ _ _ _ _ _ _ Hkey Hmode)
    as (bytes & Hbytes & Hlength & Hcheck).
  assert (aes_key (firstn 32 bytes)) as Haes.
  { unfold aes_key. rewrite length_firstn.
    lia. }
  destruct (aes_encrypt_decrypt iv_bytes encoded key bytes Hbytes Haes)
    as (encrypted & Hencrypted & _ & Hdecrypted).
  unfold encrypt_data. rewrite Hencoded. cbn [key_cache].
  rewrite lookup_insert_eq. cbn [keys encrypt_with].
  rewrite Hencrypted. cbn [bind].
  eexists. split; [reflexivity|]. cbn [fst snd encryption_method encrypted_data].
  split; [reflexivity|]. unfold count_message. cbn [active_channels].
  rewrite lookup_insert_eq. cbn [active_channels key_cache message_count].
  split; [rewrite lookup_insert_eq; reflexivity|].
  unfold decrypt_data. rewrite b64decode_b64encode_text. cbn [bind key_cache].
  rewrite lookup_insert_eq. cbn [keys decrypt_with].
  rewrite Hdecrypted. cbn [bind].
  rewrite (utf8_decode_encode message encoded Hencoded). reflexivity.
Qed.

End service_facts.

(** X12. A channel set up by [establish_secure_channel] has no
    status: the entry it stores in [active_channels] lacks the
    ['key_type'] that [get_channel_status] reads, so the status query
    for the channel it returned raises [KeyError] (or the [TypeError]
    of [len] when the participants of the request have no length),
    whatever the request was. *)
Theorem established_channel_status_raises (id_bytes : nat -> ascii)
    (d : key_draws) (now_established now_expires now_stored : Z)
    (request : channel_request) (self self1 : QuantumCryptographyService)
    (established : channel_info) (now : Z) :
  establish_secure_channel id_bytes d now_established now_expires now_stored
    request self = (self1, Ok established) ->
  get_channel_status now (info_channel_id established) self1
  = match py_len (request_participants request) with
    | Ok _ => Raise (Exn KeyError "'key_type'")
    | Raise e => Raise e
    end.
Proof.
  unfold establish_secure_channel.
  destruct (token_hex_16 id_bytes) as [channel_id ->].
  destruct (generate_keys d _ self) as [self' [generated|e]]; [|discriminate].
  intros [= <- <-]. unfold get_channel_status.
  cbn [info_channel_id active_channels]. rewrite lookup_insert_eq.
  cbn [participants channel_key_type].
  destruct (py_len (request_participants request)); reflexivity.
Qed.

Lemma cleanup_fold_lookup (ids : list string) self id :
  let cleaned :=
    fold_left
      (fun self channel_id =>
         {| qiskit_available := qiskit_available self;
            active_channels := delete channel_id (active_channels self);
            key_cache := delete channel_id (key_cache self) |})
      ids self in
  key_cache cleaned !! id
  = (if bool_decide (id ∈ ids) then None else key_cache self !! id) /\
  active_channels cleaned !! id
  = (if bool_decide (id ∈ ids) then None else active_channels self !! id).
Proof.
  cbv zeta. revert self. induction ids as [|i ids IH]; intros self.
  - cbn [fold_left]. rewrite bool_decide_eq_false_2 by apply not_elem_of_nil.
    split; reflexivity.
  - cbn [fold_left].
    match goal with
    | |- context [fold_left _ ids ?self'] => destruct (IH self') as [-> ->]
    end.
    cbn [key_cache active_channels].
    destruct (bool_decide (id ∈ ids)) eqn:Hin.
    + apply bool_decide_eq_true in Hin.
      rewrite bool_decide_eq_true_2 by (apply elem_of_cons; right; exact Hin).
      split; reflexivity.
    + apply bool_decide_eq_false in Hin.
      destruct (String.eqb_spec i id) as [->|Hne].
      * rewrite bool_decide_eq_true_2 by (apply elem_of_cons; left; reflexivity).
        rewrite !lookup_delete_eq. split; reflexivity.
      * rewrite bool_decide_eq_false_2
          by (rewrite elem_of_cons; intros [->|?]; tauto).
        rewrite !lookup_delete_ne by exact Hne. split; reflexivity.
Qed.

Lemma expired_ids current_time (cache : gmap string cache_entry) id :
  id ∈ List.map fst
         (List.filter (fun item => is_expired current_time (snd item))
            (map_to_list cache))
  <-> exists entry, cache !! id = Some entry /\
                    is_expired current_time entry = true.
Proof.
  rewrite list_elem_of_In, in_map_iff. split.
  - intros ([id' entry] & <- & Hin). apply filter_In in Hin as [Hin Hexp].
    apply list_elem_of_In, elem_of_map_to_list in Hin.
    exists entry. split; assumption.
  - intros (entry & Hentry & Hexp). exists (id, entry). split; [reflexivity|].
    apply filter_In. split; [|exact Hexp].
    apply list_elem_of_In, elem_of_map_to_list, Hentry.
Qed.

(** X13. [cleanup_expired_channels] removes exactly the channels
    whose cached keys have expired: afterwards the key cache holds the
    entries that expire at the current time or later, unchanged, and
    no other; a channel stays active, unchanged, unless the cache held
    expired keys for it. A channel with no cached keys is never
    removed. *)
Theorem cleanup_removes_the_expired (current_time : Z)
    (self : QuantumCryptographyService) (channel_id : string) :
  let cleaned := cleanup_expired_channels current_time self in
  key_cache cleaned !! channel_id
  = match key_cache self !! channel_id with
    | Some entry =>
        if expires_at entry <? current_time then None else Some entry
    | None => None
    end /\
  active_channels cleaned !! channel_id
  = match key_cache self !! channel_id with
    | Some entry =>
        if expires_at entry <? current_time then None
        else active_channels self !! channel_id
    | None => active_channels self !! channel_id
    end.
Proof.
  cbv zeta. unfold cleanup_expired_channels.
  destruct (cleanup_fold_lookup
              (List.map fst
                 (List.filter (fun item => is_expired current_time (snd item))
                    (map_to_list (key_cache self)))) self channel_id)
    as [-> ->].
  pose proof (expired_ids current_time (key_cache self) channel_id) as Hids.
  destruct (key_cache self !! channel_id) as [entry|] eqn:Hentry.
  - fold (is_expired current_time entry).
    destruct (is_expired current_time entry) eqn:Hexp.
    + rewrite bool_decide_eq_true_2
        by (apply Hids; exists entry; split; [reflexivity | exact Hexp]).
      split; reflexivity.
    + rewrite bool_decide_eq_false_2; [split; reflexivity|].
      intros Hin. apply Hids in Hin as (entry' & [= <-] & Hexp').
      congruence.
  - rewrite bool_decide_eq_false_2; [split; reflexivity|].
    intros Hin. apply Hids in Hin as (entry' & [=] & _).
Qed.

(** X14. The size of a lattice ciphertext. With a public key of 512
    coefficients and a noise draw of 512 values, [lattice_encrypt]
    returns 2048 bytes for every message of at most 512 bytes, the
    empty one included, and raises [ValueError] for every longer
    message. *)
Theorem lattice_ciphertext_size (noise : list Z) (message : list ascii)
    (public_key : lattice_public) :
  length noise = lattice_dimension ->
  length (pub_coefficients public_key) = lattice_dimension ->
  if (length message <=? lattice_dimension)%nat then
    exists ciphertext,
      lattice_encrypt noise message public_key = Ok ciphertext /\
      length ciphertext = 2048%nat
  else
    lattice_encrypt noise message public_key
    = Raise (Exn ValueError "Message too long for lattice dimension").
Proof.
  intros Hnoise Hkey. unfold lattice_encrypt. rewrite length_map.
  destruct (Nat.leb_spec (length message) lattice_dimension) as [Hle|Hgt].
  - destruct (Nat.ltb_spec lattice_dimension (length message)); [lia|].
    unfold broadcast. rewrite Hkey, Nat.eqb_refl. cbn [bind].
    eexists. split; [reflexivity|].
    assert (forall words : list Z,
               length (List.flat_map uint32_tobytes words)
               = (4 * length words)%nat) as Hbytes.
    { induction words as [|w words IH]; [reflexivity|].
      cbn [List.flat_map]. rewrite length_app, IH. cbn. lia. }
    rewrite Hbytes, !length_zip_with, length_app, length_map, repeat_length,
      Hnoise, Hkey.
    unfold lattice_dimension in *. lia.
  - destruct (Nat.ltb_spec lattice_dimension (length message)); [|lia].
    reflexivity.
Qed.

Lemma generated_key_is_whole_bytes_witness :
  exists key_bytes,
    fromhex sample_key = Ok key_bytes /\
    Z.of_nat (length key_bytes) = 256 / 8 /\
    (check_key (firstn 32 key_bytes) = Ok tt <->
     256 / 8 = 16 \/ 256 / 8 = 24 \/ 32 <= 256 / 8).
Proof.
  apply (generated_key_is_whole_bytes false (coin sample_key_draws)
           (shot sample_key_draws) (key_bytes sample_key_draws) 256
           sample_key [] []).
  - vm_compute. reflexivity.
  - left. reflexivity.
Defined.

Lemma aes_round_trip_witness :
  exists encrypted,
    _aes_encrypt (C := toy_codec) (fun _ => "007"%char)
      (list_ascii_of_string "hello") "00112233445566778899aabbccddeeff"
    = Ok encrypted /\
    length encrypted = (16 + 16 * (5 / 16 + 1))%nat /\
    _aes_decrypt (C := toy_codec) encrypted "00112233445566778899aabbccddeeff"
    = Ok (list_ascii_of_string "hello").
Proof.
  eapply (aes_round_trip (C := toy_codec) (CL := toy_codec_laws)
            (fun _ => "007"%char) (list_ascii_of_string "hello")
            "00112233445566778899aabbccddeeff").
  - vm_compute. reflexivity.
  - left. reflexivity.
Defined.

Lemma quantum_channel_round_trip_witness :
  let sent :=
    encrypt_data (C := toy_codec) (fun _ => "007"%char) [] 8
      (gk_channel_id sample_generated) "hello"%string sample_channel in
  exists response,
    snd sent = Ok response /\
    encryption_method response = "AES_with_quantum_key"%string /\
    message_count <$>
      (active_channels (fst sent) !! gk_channel_id sample_generated) = Some 1 /\
    decrypt_data (C := toy_codec) 9 (gk_channel_id sample_generated)
      (encrypted_data response) (fst sent)
    = Ok (@Build_decrypted toy_codec (gk_channel_id sample_generated)
            "hello"%string (pretty 9)).
Proof.
  apply (quantum_channel_round_trip (C := toy_codec) (CL := toy_codec_laws)
           sample_key_draws quantum_request (new_service false) sample_channel
           sample_generated (fun _ => "007"%char) [] 8 9 "hello"%string
           (list_ascii_of_string "hello")).
  - reflexivity.
  - cbv zeta. split; [left; reflexivity | right; right; vm_compute; discriminate].
  - vm_compute. reflexivity.
  - reflexivity.
Defined.

Lemma established_channel_status_raises_witness :
  get_channel_status 9 (info_channel_id sample_info) (fst sample_established)
  = Raise (Exn KeyError "'key_type'").
Proof.
  apply (established_channel_status_raises (fun _ => "001"%char)
           sample_key_draws 5 6 7 sample_channel_request (new_service false)
           (fst sample_established) sample_info 9).
  vm_compute. reflexivity.
Defined.

Lemma lattice_ciphertext_size_witness :
  exists ciphertext,
    lattice_encrypt (List.repeat 1 lattice_dimension) ["A"%char]
      (fst (generate_lattice_keypair (List.repeat 0 lattice_dimension)
              (List.repeat 1 lattice_dimension)))
    = Ok ciphertext /\
    length ciphertext = 2048%nat.
Proof.
  apply (lattice_ciphertext_size (List.repeat 1 lattice_dimension) ["A"%char]
           (fst (generate_lattice_keypair (List.repeat 0 lattice_dimension)
                   (List.repeat 1 lattice_dimension)))).
  - vm_compute. reflexivity.
  - vm_compute. reflexivity.
Defined.

Section hybrid_facts.
Context {C : Codec} {CL : CodecLaws C}.

(** X24. On a hybrid channel the AES layer is transparent. Let
    [generate_keys] have returned for a request of a type other than
    ['quantum'] and ['post_quantum'] (the default is ['hybrid']) whose
    key length gives an AES key. Then the keys are hybrid ones;
    [encrypt_data] raises exactly when [lattice_encrypt] raises on the
    encoded message, and otherwise returns with the method
    ['hybrid_double_encryption'], and [decrypt_data] on its
    ['encrypted_data'] gives what [lattice_decrypt] gives on the
    lattice ciphertext of the message. The packages are taken at their
    documented behaviour. *)
Theorem hybrid_channel_peels_aes (d : key_draws) (request : key_request)
    (self self1 : QuantumCryptographyService) (generated : generated_keys)
    (iv_bytes : nat -> ascii) (noise : list Z) (now1 now2 : Z)
    (message : text) (encoded : list ascii) :
  request_type request <> Some "quantum"%string ->
  request_type request <> Some "post_quantum"%string ->
  (let key_length := default 256 (request_length request) in
   (qiskit_available self = false \/ key_length mod 8 = 0) /\
   (key_length / 8 = 16 \/ key_length / 8 = 24 \/ 32 <= key_length / 8)) ->
  generate_keys d request self = (self1, Ok generated) ->
  utf8_encode message = Ok encoded ->
  let channel_id := gk_channel_id generated in
  let sent := encrypt_data iv_bytes noise now1 channel_id message self1 in
  exists quantum_key alice_bases bob_bases public_key private_key,
    gk_keys generated
    = HybridKeys quantum_key alice_bases bob_bases public_key private_key /\
    match lattice_encrypt noise encoded public_key with
    | Raise e => sent = (self1, Raise e)
    | Ok ciphertext =>
        exists response,
          snd sent = Ok response /\
          encryption_method response = "hybrid_double_encryption"%string /\
          decrypt_data now2 channel_id (encrypted_data response) (fst sent)
          = (let! decrypted_data := lattice_decrypt ciphertext private_key in
             let! decrypted_message := utf8_decode decrypted_data in
             Ok {| dec_channel_id := channel_id;
                   decrypted_message := decrypted_message;
                   decrypted_at := isoformat now2 |})
    end.
Proof.
  intros Hquantum Hpost Hlen Hgenerated Hencoded channel_id sent.
  cbv zeta in Hlen. destruct Hlen as [Hmode Hsize].
  subst sent channel_id. unfold generate_keys in Hgenerated.
  remember (default 256 (request_length request)) as key_length eqn:Hdefault.
  clear Hdefault.
  destruct (token_hex_16 (channel_bytes d)) as [drawn_id Hdrawn].
  rewrite Hdrawn in Hgenerated.
  unfold make_keys in Hgenerated.
  destruct (String.eqb_spec (default "hybrid"%string (request_type request))
              "quantum") as [Heq|_].
  { destruct (request_type request); cbn in Heq; [congruence | discriminate]. }
  destruct (String.eqb_spec (default "hybrid"%string (request_type request))
              "post_quantum") as [Heq|_].
  { destruct (request_type request); cbn in Heq; [congruence | discriminate]. }
  destruct (generate_bb84_key (qiskit_available self) (coin d) (shot d)
              (key_bytes d) key_length)
    as [[[key alice_bases] bob_bases]|e] eqn:Hkey; [|discriminate].
  cbn [bind] in Hgenerated.
  destruct (generate_lattice_keypair (drawn_private d) (drawn_noise d))
    as [public_key private_key].
  injection Hgenerated as <- <-.
  cbn [gk_channel_id gk_keys].
  exists key, alice_bases, bob_bases, public_key, private_key.
  split; [reflexivity|].
  destruct (generated_key_bytes _ _ _ _ _ _ _ _ Hkey Hmode)
    as (bytes & Hbytes & Hlength & Hcheck).
  assert (aes_key (firstn 32 bytes)) as Haes.
  { unfold aes_key. rewrite length_firstn. lia. }
  unfold encrypt_data. rewrite Hencoded. cbn [key_cache].
  rewrite lookup_insert_eq. cbn [keys encrypt_with].
  destruct (lattice_encrypt noise encoded public_key) as [ciphertext|e];
    [|reflexivity].
  cbn [bind].
  destruct (aes_encrypt_decrypt iv_bytes ciphertext key bytes Hbytes Haes)
    as (encrypted & Hencrypted & _ & Hdecrypted).
  rewrite Hencrypted. cbn [bind].
  eexists. split; [reflexivity|]. cbn [fst snd encryption_method encrypted_data].
  split; [reflexivity|].
  unfold decrypt_data, count_message. cbn [active_channels key_cache].
  rewrite lookup_insert_eq. cbn [key_cache].
  rewrite b64decode_b64encode_text. cbn [bind].
  rewrite lookup_insert_eq. cbn [keys decrypt_with].
  rewrite Hdecrypted. reflexivity.
Qed.

End hybrid_facts.

Lemma hybrid_channel_peels_aes_witness :
  let sent :=
    encrypt_data (C := toy_codec) (fun _ => "007"%char)
      (List.repeat 1 lattice_dimension) 8 (gk_channel_id hybrid_generated)
      "hi"%string hybrid_channel in
  exists quantum_key alice_bases bob_bases public_key private_key,
    gk_keys hybrid_generated
    = HybridKeys quantum_key alice_bases bob_bases public_key private_key /\
    match lattice_encrypt (List.repeat 1 lattice_dimension)
            (list_ascii_of_string "hi") public_key with
    | Raise e => sent = (hybrid_channel, Raise e)
    | Ok ciphertext =>
        exists response,
          snd sent = Ok response /\
          encryption_method response = "hybrid_double_encryption"%string /\
          decrypt_data (C := toy_codec) 9 (gk_channel_id hybrid_generated)
            (encrypted_data response) (fst sent)
          = (let! decrypted_data := lattice_decrypt ciphertext private_key in
             let! decrypted_message :=
               utf8_decode (Codec := toy_codec) decrypted_data in
             Ok (@Build_decrypted toy_codec (gk_channel_id hybrid_generated)
                   decrypted_message (pretty 9)))
    end.
Proof.
  apply (hybrid_channel_peels_aes (C := toy_codec) (CL := toy_codec_laws)
           sample_key_draws hybrid_request (new_service false) hybrid_channel
           hybrid_generated (fun _ => "007"%char)
           (List.repeat 1 lattice_dimension) 8 9 "hi"%string
           (list_ascii_of_string "hi")).
  - discriminate.
  - discriminate.
  - cbv zeta. split; [left; reflexivity | right; right; vm_compute; discriminate].
  - vm_compute. reflexivity.
  - reflexivity.
Defined.

End quantum_service_properties.

(** ** Properties of ai_service.py *)
Module ai_service_properties.
Import ai_service.

Lemma insert_desc_perm e l : Permutation (e :: l) (insert_desc e l).
Proof.
  induction l as [|e' l IH]; cbn [insert_desc]; [reflexivity|].
  destruct (Qle_bool (confidence e') (confidence e)); [reflexivity|].
  rewrite perm_swap. apply perm_skip, IH.
Qed.

Lemma sort_desc_perm l : Permutation l (sort_desc l).
Proof.
  induction l as [|e l IH]; cbn; [reflexivity|].
  rewrite <- insert_desc_perm. apply perm_skip, IH.
Qed.

Lemma insert_desc_sorted e l :
  StronglySorted conf_ge l -> StronglySorted conf_ge (insert_desc e l).
Proof.
  induction 1 as [|e' l Hl IH Hall]; cbn [insert_desc].
  - repeat constructor.
  - destruct (Qle_bool (confidence e') (confidence e)) eqn:Hle.
    + apply Qle_bool_iff in Hle.
      constructor; [constructor; assumption|].
      constructor; [exact Hle|].
      eapply List.Forall_impl; [|exact Hall].
      intros a Ha. unfold conf_ge in *. eapply Qle_trans; eassumption.
    + constructor; [exact IH|].
      assert (conf_ge e' e) as Hee'.
      { unfold conf_ge. apply Qlt_le_weak, Qnot_le_lt.
        intros Hle'. apply Qle_bool_iff in Hle'. congruence. }
      apply (Permutation_Forall (insert_desc_perm e l)).
      constructor; assumption.
Qed.

Lemma sort_desc_sorted l : StronglySorted conf_ge (sort_desc l).
Proof.
  induction l as [|e l IH]; cbn; [constructor|].
  apply insert_desc_sorted, IH.
Qed.

Lemma label_scores_spec scores0 i scores :
  (i + length scores <= 7)%nat ->
  (forall k, nth_error scores k = nth_error scores0 (i + k)) ->
  exists entries,
    label_scores i scores = Ok entries /\
    List.map confidence entries = scores /\
    Forall (drawn_from scores0) entries.
Proof.
  revert i. induction scores as [|score rest IH]; intros i Hlen Hnth.
  - exists []. repeat split. constructor.
  - cbn [label_scores length] in *.
    destruct (nth_error emotion_labels i) as [label|] eqn:Hlabel.
    2:{ apply nth_error_None in Hlabel. cbn in Hlabel. lia. }
    destruct (IH (S i)) as (entries & -> & Hconf & Hdrawn).
    { lia. }
    { intros k. replace (S i + k)%nat with (i + S k)%nat by lia.
      apply (Hnth (S k)). }
    eexists. split; [reflexivity|]. split.
    + cbn. rewrite Hconf. reflexivity.
    + constructor; [|exact Hdrawn].
      exists i. split; [exact Hlabel|].
      cbn [confidence]. specialize (Hnth 0%nat).
      rewrite Nat.add_0_r in Hnth. rewrite <- Hnth. reflexivity.
Qed.

Lemma StronglySorted_firstn {A} (R : A -> A -> Prop) n l :
  StronglySorted R l -> StronglySorted R (firstn n l).
Proof.
  intros Hl. revert n. induction Hl as [|a l Hl IH Hall]; intros [|n]; cbn;
    try constructor.
  - apply IH.
  - apply Forall_take, Hall.
Qed.

Lemma face_result_spec (face : face_box * list Q) :
  length (snd face) = 7%nat ->
  exists r, face_result face = Ok r /\ face_postcondition face r.
Proof.
  destruct face as [box scores]. cbn [snd]. intros Hlen.
  unfold face_result. cbn [fst snd].
  destruct (label_scores_spec scores 0 scores) as (entries & -> & Hconf & Hdrawn).
  { lia. }
  { reflexivity. }
  cbn [bind].
  pose proof (sort_desc_perm entries) as Hperm.
  pose proof (sort_desc_sorted entries) as Hsorted.
  destruct (sort_desc entries) as [|best rest] eqn:Hsort.
  { apply Permutation_length in Hperm.
    rewrite <- (length_map confidence), Hconf, Hlen in Hperm. discriminate. }
  eexists. split; [reflexivity|].
  assert (Forall (drawn_from scores) (best :: rest)) as Hdrawn'
    by (eapply Permutation_Forall; eassumption).
  unfold face_postcondition.
  cbn [face_region emotions dominant_emotion dominant_confidence fst snd].
  split; [reflexivity|]. split; [rewrite length_firstn; lia|].
  split.
  { apply Forall_take. eapply List.Forall_impl; [|exact Hdrawn'].
    intros e (i & Hlabel & _). eapply nth_error_In, Hlabel. }
  split; [apply Forall_take, Hdrawn'|].
  split; [apply StronglySorted_firstn, Hsorted|].
  split; [destruct best; apply (Forall_inv Hdrawn')|].
  split; [|destruct best; reflexivity].
  apply StronglySorted_inv in Hsorted as [_ Hbest].
  apply List.Forall_forall. intros score Hscore.
  rewrite <- Hconf in Hscore. apply in_map_iff in Hscore as (e & <- & He).
  apply (Permutation_in _ Hperm) in He. destruct He as [<-|He].
  - apply Qle_refl.
  - rewrite List.Forall_forall in Hbest. apply (Hbest e He).
Qed.

Lemma for_each_face_spec faces :
  exists detected,
    for_each_face faces = Ok detected /\
    Forall2 face_reported faces detected.
Proof.
  induction faces as [|face faces (more & Hmore & IH)].
  - exists []. split; [reflexivity | constructor].
  - destruct (face_result_spec (fst face, scores_of (snd face)))
      as (r & Hr & Hpost).
    { destruct face as [box [[[[[[p0 p1] p2] p3] p4] p5] p6]]. reflexivity. }
    exists (r :: more). cbn [for_each_face]. rewrite Hr, Hmore.
    split; [reflexivity | constructor; assumption].
Qed.

(** C7. For every face detected, the report of [analyze_emotions]
    holds one entry (in the order of detection) whose ['emotions'] list
    has at most 3 entries, each pairing one of the 7 emotion labels
    with the probability the model gave that label, in non-increasing
    confidence, and whose ['dominant_emotion'] is a label of maximal
    confidence for that face (it heads the list); and the top-level
    ['faces_detected'] is the number of detected faces. *)
Theorem analyze_emotions_top3 {M} (_calculate_overall_mood : list face_emotions -> M)
    (now : Z) (faces : list (face_box * class_probabilities)) :
  exists report,
    analyze_emotions _calculate_overall_mood now faces = Ok report /\
    faces_detected report = length faces /\
    Forall2
      (fun face r =>
         face_region r = fst face /\
         (length (emotions r) <= 3)%nat /\
         Forall (fun e => In (emotion e) emotion_labels) (emotions r) /\
         Forall (drawn_from (scores_of (snd face))) (emotions r) /\
         StronglySorted conf_ge (emotions r) /\
         drawn_from (scores_of (snd face))
           {| emotion := dominant_emotion r;
              confidence := dominant_confidence r |} /\
         Forall (fun score => (score <= dominant_confidence r)%Q)
           (scores_of (snd face)) /\
         hd_error (emotions r)
         = Some {| emotion := dominant_emotion r;
                   confidence := dominant_confidence r |})
      faces (report_emotions report).
Proof.
  unfold analyze_emotions.
  destruct (for_each_face_spec faces) as (detected & -> & Hpost).
  eexists. split; [reflexivity|]. split; [reflexivity | exact Hpost].
Qed.

Example analyze_emotions_sample :
  (fun r => (faces_detected r,
             List.map (fun f => (dominant_emotion f,
                                 List.map emotion (emotions f)))
               (report_emotions r)))
    <$> match analyze_emotions (fun _ => tt) 0 [sample_face] with
        | Ok r => Some r
        | Raise _ => None
        end
  = Some (1%nat, [("happy", ["happy"; "neutral"; "surprise"])]%string).
Proof. vm_compute. reflexivity. Qed.

Lemma cons_word_app w ws ws' : cons_word w (ws ++ ws') = cons_word w ws ++ ws'.
Proof. destruct w; reflexivity. Qed.

(** A space between two texts separates their words. *)
Lemma split_from_app_space a b :
  split_from (a ++ space :: b)
  = (fst (split_from a), snd (split_from a) ++ split b).
Proof.
  induction a as [|c a IH].
  - cbn [app split_from]. unfold split.
    destruct (split_from b) as [w ws]. reflexivity.
  - cbn [app split_from]. rewrite IH.
    destruct (split_from a) as [w ws]. cbn [fst snd].
    destruct (isspace c); [|reflexivity].
    rewrite cons_word_app. reflexivity.
Qed.

Lemma split_app_space a b : split (a ++ space :: b) = split a ++ split b.
Proof.
  unfold split at 1 2. rewrite split_from_app_space.
  destruct (split_from a) as [w ws]. cbn [fst snd].
  apply cons_word_app.
Qed.

Lemma split_from_word w :
  Forall (fun c => isspace c = false) w -> split_from w = (w, []).
Proof.
  induction 1 as [|c w Hc _ IH]; [reflexivity|].
  cbn [split_from]. rewrite IH, Hc. reflexivity.
Qed.

Lemma split_word w : is_word w -> split w = [w].
Proof.
  intros [Hne Hw]. unfold split. rewrite (split_from_word w Hw).
  destruct w; [contradiction|reflexivity].
Qed.

(** Every string [split] returns is a word. *)
Lemma split_from_words s :
  Forall (fun c => isspace c = false) (fst (split_from s)) /\
  Forall is_word (snd (split_from s)).
Proof.
  induction s as [|c s [IHw IHws]]; [split; constructor|].
  cbn [split_from]. destruct (split_from s) as [w ws]. cbn [fst snd] in *.
  destruct (isspace c) eqn:Hc; cbn [fst snd].
  - split; [constructor|].
    destruct w as [|c' w]; [exact IHws|].
    constructor; [|exact IHws]. split; [discriminate | exact IHw].
  - split; [constructor; assumption | exact IHws].
Qed.

Lemma split_words s : Forall is_word (split s).
Proof.
  unfold split. pose proof (split_from_words s) as [Hw Hws].
  destruct (split_from s) as [w ws]. cbn [fst snd] in *.
  destruct w as [|c w]; [exact Hws|].
  constructor; [|exact Hws]. split; [discriminate | exact Hw].
Qed.

Lemma join_cons w ws : ws <> [] -> join (w :: ws) = w ++ space :: join ws.
Proof. destruct ws; [contradiction | reflexivity]. Qed.

Lemma join_snoc ws w : ws <> [] -> join (ws ++ [w]) = join ws ++ space :: w.
Proof.
  induction ws as [|w' ws IH]; [contradiction|]. intros _.
  destruct ws as [|w'' ws]; [reflexivity|].
  change ((w' :: w'' :: ws) ++ [w]) with (w' :: ((w'' :: ws) ++ [w])).
  rewrite join_cons by (destruct ws; discriminate).
  rewrite IH by discriminate.
  rewrite (join_cons w' (w'' :: ws)) by discriminate.
  rewrite <- app_assoc. reflexivity.
Qed.

(** Joining words and splitting gives the words back. *)
Lemma split_join_words ws : Forall is_word ws -> split (join ws) = ws.
Proof.
  induction 1 as [|w ws Hw Hws IH]; [reflexivity|].
  destruct ws as [|w' ws]; [apply split_word, Hw|].
  rewrite join_cons by discriminate.
  rewrite split_app_space, IH, (split_word w Hw). reflexivity.
Qed.

(** Appending a chunk appends its words. *)
Lemma split_join_snoc chunks chunk :
  split (join (chunks ++ [chunk])) = split (join chunks) ++ split chunk.
Proof.
  destruct chunks as [|c chunks]; [reflexivity|].
  rewrite join_snoc by discriminate. apply split_app_space.
Qed.

Lemma chunk_loop_words max_length words :
  Forall is_word words ->
  forall chunks current_chunk current_length,
    Forall is_word current_chunk ->
    split (join (finish_chunks
                   (chunk_loop max_length words chunks current_chunk
                      current_length)))
    = split (join chunks) ++ current_chunk ++ words.
Proof.
  induction 1 as [|word rest Hword Hrest IH];
    intros chunks current_chunk current_length Hcurrent.
  - cbn [chunk_loop finish_chunks]. rewrite app_nil_r.
    destruct current_chunk as [|w ws]; [rewrite app_nil_r; reflexivity|].
    rewrite split_join_snoc, (split_join_words (w :: ws)) by assumption.
    reflexivity.
  - cbn [chunk_loop].
    destruct (current_length + Z.of_nat (length word) >? max_length).
    + rewrite IH by (constructor; [assumption | constructor]).
      rewrite split_join_snoc, (split_join_words current_chunk)
        by assumption.
      rewrite <- app_assoc. reflexivity.
    + rewrite IH by (apply Forall_app; split; [assumption|];
                     constructor; [assumption | constructor]).
      rewrite <- (app_assoc current_chunk). reflexivity.
Qed.

(** C10. For every text and every [max_length] (positive or not),
    joining the chunks of [_chunk_text] with single spaces and splitting
    the result on whitespace gives exactly [text.split()]: no word is
    lost, none is repeated, and the order is kept. *)
Theorem chunk_text_keeps_words (text : str) (max_length : Z) :
  split (join (_chunk_text text max_length)) = split text.
Proof.
  unfold _chunk_text.
  rewrite chunk_loop_words by (try apply split_words; constructor).
  reflexivity.
Qed.

Example split_runs :
  split (list_ascii_of_string "  two  words ")
  = List.map list_ascii_of_string ["two"; "words"] /\
  split (list_ascii_of_string "") = [].
Proof. split; reflexivity. Qed.

(** A first word longer than [max_length] leaves an empty first chunk;
    the words are kept all the same. *)
Example chunk_text_long_first_word :
  _chunk_text (list_ascii_of_string "lorem  ipsum dolor sit") 4
  = List.map list_ascii_of_string [""; "lorem"; "ipsum"; "dolor"; "sit"] /\
  _chunk_text (list_ascii_of_string " a bc  d efg h ") 4
  = List.map list_ascii_of_string ["a bc"; "d efg"; "h"].
Proof. split; vm_compute; reflexivity. Qed.

(** *** Facts about the chunks *)
Lemma join_nonempty (ws : list str) :
  ws <> [] -> Forall is_word ws -> join ws <> [].
Proof.
  intros Hne Hws. destruct Hws as [|w ws [Hw _] _]; [contradiction|].
  destruct ws; cbn [join]; destruct w; try contradiction; discriminate.
Qed.

Lemma length_join_snoc (ws : list str) (w : str) :
  ws <> [] ->
  length (join (ws ++ [w])) = (length (join ws) + 1 + length w)%nat.
Proof.
  intros Hne. rewrite join_snoc by exact Hne.
  rewrite length_app. cbn [length]. lia.
Qed.

(** The loop from a state in which a chunk is open. *)
Lemma chunk_loop_open max_length words :
  Forall is_word words ->
  forall chunks current_chunk current_length,
    current_chunk <> [] -> Forall is_word current_chunk ->
    exists more,
      finish_chunks
        (chunk_loop max_length words chunks current_chunk current_length)
      = chunks ++ more /\
      more <> [] /\ Forall (fun chunk : str => chunk <> []) more.
Proof.
  induction 1 as [|word rest Hword Hrest IH];
    intros chunks current_chunk current_length Hne Hcurrent.
  - cbn [chunk_loop finish_chunks].
    destruct current_chunk as [|w ws] eqn:Hc; [contradiction|].
    exists [join (w :: ws)]. split; [reflexivity|]. split; [discriminate|].
    constructor; [|constructor]. apply join_nonempty; [discriminate | exact Hcurrent].
  - cbn [chunk_loop].
    destruct (current_length + Z.of_nat (length word) >? max_length).
    + destruct (IH (chunks ++ [join current_chunk]) [word]
                  (Z.of_nat (length word)))
        as (more & Hmore & _ & Hall).
      { discriminate. }
      { constructor; [exact Hword | constructor]. }
      exists (join current_chunk :: more).
      rewrite Hmore, <- app_assoc. split; [reflexivity|].
      split; [discriminate|].
      constructor; [apply join_nonempty; assumption | exact Hall].
    + apply IH.
      * destruct current_chunk; discriminate.
      * apply Forall_app. split; [exact Hcurrent|].
        constructor; [exact Hword | constructor].
Qed.

(** X15. Which chunks of [_chunk_text] can be empty. A text without
    words has no chunks. A text with words has at least one chunk; its
    first chunk is the empty string exactly when the first word is
    longer than [max_length], and no other chunk is empty. *)
Theorem chunk_text_empty_chunks (text : str) (max_length : Z) :
  match split text, _chunk_text text max_length with
  | [], chunks => chunks = []
  | word :: _, [] => False
  | word :: _, first :: rest =>
      (first = [] <-> Z.of_nat (length word) > max_length) /\
      Forall (fun chunk : str => chunk <> []) rest
  end.
Proof.
  unfold _chunk_text. pose proof (split_words text) as Hwords.
  destruct (split text) as [|word words]; [reflexivity|].
  apply Forall_cons in Hwords as [Hword Hwords].
  cbn [chunk_loop]. rewrite Z.add_0_l.
  destruct (Z.gtb_spec (Z.of_nat (length word)) max_length) as [Hlong|Hfits].
  - destruct (chunk_loop_open max_length words Hwords ([] ++ [join []]) [word]
                (Z.of_nat (length word)))
      as (more & -> & _ & Hall).
    { discriminate. }
    { constructor; [exact Hword | constructor]. }
    cbn [app join]. split; [|exact Hall]. split; [lia | reflexivity].
  - destruct (chunk_loop_open max_length words Hwords [] ([] ++ [word])
                (Z.of_nat (length word) + 1))
      as (more & -> & Hne & Hall).
    { discriminate. }
    { constructor; [exact Hword | constructor]. }
    cbn [app]. destruct more as [|first rest]; [contradiction|].
    apply Forall_cons in Hall as [Hfirst Hrest].
    split; [|exact Hrest]. split; [contradiction | lia].
Qed.

Lemma chunks_fit_rest max_length (chunks more : list str) :
  Forall (fun chunk : str =>
            chunk <> [] /\ Z.of_nat (length chunk) <= max_length + 1) more ->
  chunks <> [] -> chunks_fit max_length chunks ->
  chunks_fit max_length (chunks ++ more).
Proof.
  intros Hmore Hne Hfit. destruct chunks as [|first rest]; [contradiction|].
  cbn [app chunks_fit] in *. destruct Hfit as (H1 & H2 & H3).
  split; [exact H1|]. split; [exact H2|].
  apply Forall_app. split; assumption.
Qed.

(** The loop once the first chunk is closed: [current_length] is the
    length of the open chunk. *)
Lemma chunk_loop_later max_length words :
  Forall (fun word : str =>
            is_word word /\ Z.of_nat (length word) <= max_length) words ->
  forall chunks current_chunk,
    current_chunk <> [] -> Forall is_word current_chunk ->
    Z.of_nat (length (join current_chunk)) <= max_length + 1 ->
    exists more,
      finish_chunks
        (chunk_loop max_length words chunks current_chunk
           (Z.of_nat (length (join current_chunk))))
      = chunks ++ more /\
      Forall (fun chunk : str =>
                chunk <> [] /\ Z.of_nat (length chunk) <= max_length + 1) more.
Proof.
  induction 1 as [|word rest [Hword Hfits] Hrest IH];
    intros chunks current_chunk Hne Hcurrent Hbound.
  - cbn [chunk_loop finish_chunks].
    destruct current_chunk as [|w ws] eqn:Hc; [contradiction|].
    exists [join (w :: ws)]. split; [reflexivity|].
    constructor; [|constructor].
    split; [apply join_nonempty; [discriminate | exact Hcurrent] | exact Hbound].
  - cbn [chunk_loop].
    destruct (Z.gtb_spec
                (Z.of_nat (length (join current_chunk))
                 + Z.of_nat (length word)) max_length) as [Hover|Hroom].
    + destruct (IH (chunks ++ [join current_chunk]) [word])
        as (more & Hmore & Hall).
      { discriminate. }
      { constructor; [exact Hword | constructor]. }
      { cbn [join]. lia. }
      cbn [join] in Hmore. rewrite Hmore, <- app_assoc.
      exists (join current_chunk :: more). split; [reflexivity|].
      constructor; [|exact Hall].
      split; [apply join_nonempty; assumption | exact Hbound].
    + replace (Z.of_nat (length (join current_chunk))
               + Z.of_nat (length word) + 1)
        with (Z.of_nat (length (join (current_chunk ++ [word]))))
        by (rewrite length_join_snoc by exact Hne; lia).
      apply IH.
      * destruct current_chunk; discriminate.
      * apply Forall_app. split; [exact Hcurrent|].
        constructor; [exact Hword | constructor].
      * rewrite length_join_snoc by exact Hne. lia.
Qed.

(** The loop while the first chunk is open: [current_length] is one
    more than the length of the open chunk. *)
Lemma chunk_loop_first max_length words :
  Forall (fun word : str =>
            is_word word /\ Z.of_nat (length word) <= max_length) words ->
  forall current_chunk,
    current_chunk <> [] -> Forall is_word current_chunk ->
    Z.of_nat (length (join current_chunk)) <= max_length ->
    chunks_fit max_length
      (finish_chunks
         (chunk_loop max_length words [] current_chunk
            (Z.of_nat (length (join current_chunk)) + 1))).
Proof.
  induction 1 as [|word rest [Hword Hfits] Hrest IH];
    intros current_chunk Hne Hcurrent Hbound.
  - cbn [chunk_loop finish_chunks].
    destruct current_chunk as [|w ws] eqn:Hc; [contradiction|].
    cbn [app chunks_fit]. split; [|split; [exact Hbound | constructor]].
    apply join_nonempty; [discriminate | exact Hcurrent].
  - cbn [chunk_loop].
    destruct (Z.gtb_spec
                (Z.of_nat (length (join current_chunk)) + 1
                 + Z.of_nat (length word)) max_length) as [Hover|Hroom].
    + destruct (chunk_loop_later max_length rest Hrest
                  ([] ++ [join current_chunk]) [word])
        as (more & Hmore & Hall).
      { discriminate. }
      { constructor; [exact Hword | constructor]. }
      { cbn [join]. lia. }
      cbn [join] in Hmore. rewrite Hmore.
      apply chunks_fit_rest; [exact Hall | discriminate |].
      cbn [app chunks_fit]. split; [|split; [exact Hbound | constructor]].
      apply join_nonempty; assumption.
    + replace (Z.of_nat (length (join current_chunk)) + 1
               + Z.of_nat (length word) + 1)
        with (Z.of_nat (length (join (current_chunk ++ [word]))) + 1)
        by (rewrite length_join_snoc by exact Hne; lia).
      apply IH.
      * destruct current_chunk; discriminate.
      * apply Forall_app. split; [exact Hcurrent|].
        constructor; [exact Hword | constructor].
      * rewrite length_join_snoc by exact Hne. lia.
Qed.

(** X16. The length of the chunks. When no word of the text is longer
    than [max_length], no chunk of [_chunk_text] is empty, the first
    chunk has at most [max_length] characters and every later chunk at
    most [max_length + 1]: after the first chunk the running length
    leaves out one separator. *)
Theorem chunk_text_lengths (text : str) (max_length : Z) :
  Forall (fun word : str => Z.of_nat (length word) <= max_length)
    (split text) ->
  chunks_fit max_length (_chunk_text text max_length).
Proof.
  intros Hfit. unfold _chunk_text.
  assert (Forall (fun word : str =>
                    is_word word /\ Z.of_nat (length word) <= max_length)
            (split text)) as Hwords.
  { pose proof (split_words text) as Hw.
    induction Hw as [|w ws Hw Hws IH]; [constructor|].
    apply Forall_cons in Hfit as [Hfit1 Hfit2].
    constructor; [split; assumption | apply IH, Hfit2]. }
  clear Hfit. destruct Hwords as [|word words [Hword Hfits] Hwords];
    [exact I|].
  cbn [chunk_loop]. rewrite Z.add_0_l.
  destruct (Z.gtb_spec (Z.of_nat (length word)) max_length); [lia|].
  apply (chunk_loop_first max_length words Hwords ([] ++ [word])).
  - discriminate.
  - constructor; [exact Hword | constructor].
  - exact Hfits.
Qed.

(** The bound on the later chunks is reached. *)
Example chunk_text_longer_chunk :
  _chunk_text (list_ascii_of_string "abcde fg hij") 5
  = List.map list_ascii_of_string ["abcde"; "fg hij"].
Proof. vm_compute. reflexivity. Qed.

Lemma chunk_text_lengths_witness :
  chunks_fit 5 (_chunk_text (list_ascii_of_string "abcde fg hij") 5).
Proof.
  apply (chunk_text_lengths (list_ascii_of_string "abcde fg hij") 5).
  vm_compute. repeat constructor; discriminate.
Defined.

(** *** Facts about the overall mood *)
Lemma exact_arithmetic_laws : FloatLaws exact_arithmetic.
Proof.
  split; cbn.
  - intros x. apply Qplus_0_l.
  - intros x y total Hxy Htotal. unfold Qdiv.
    apply Qmult_le_compat_r; [exact Hxy|].
    apply Qlt_le_weak, Qinv_lt_0_compat, Htotal.
Qed.

Lemma dict_set_keys {V} (P : string -> Prop) k (v : V) d :
  P k -> Forall (fun item => P (fst item)) d ->
  Forall (fun item => P (fst item)) (dict_set k v d).
Proof.
  intros Hk. induction 1 as [|[k' v'] d Hk' Hd IH]; cbn [dict_set].
  - repeat constructor. exact Hk.
  - destruct (String.eqb k' k); constructor; assumption.
Qed.

Lemma dict_set_nonempty {V} k (v : V) d : dict_set k v d <> [].
Proof.
  destruct d as [|[k' v'] d]; cbn [dict_set]; [discriminate|].
  destruct (String.eqb k' k); discriminate.
Qed.

Lemma max_by_value_in first rest :
  In (max_by_value first rest) (first :: rest).
Proof.
  unfold max_by_value. revert first.
  induction rest as [|item rest IH]; intros first; cbn [fold_left].
  - left. reflexivity.
  - destruct (Qlt_bool (snd first) (snd item)).
    + right. apply IH.
    + destruct (IH first) as [H|H]; [left; exact H | right; right; exact H].
Qed.

Section overall_mood_facts.
Context {F : FloatOps}.

Lemma add_emotion_keys (P : string -> Prop) entries state :
  Forall (fun e => P (emotion e)) entries ->
  Forall (fun item => P (fst item)) (fst state) ->
  Forall (fun item => P (fst item)) (fst (fold_left add_emotion entries state)).
Proof.
  intros Hentries. revert state.
  induction Hentries as [|e entries He _ IH]; intros [totals total] Hstate;
    [exact Hstate|].
  cbn [fold_left]. apply IH. unfold add_emotion. cbn [fst] in *.
  apply dict_set_keys; [exact He|].
  destruct (dict_has (emotion e) totals); [exact Hstate|].
  apply dict_set_keys; assumption.
Qed.

Lemma faces_keys (P : string -> Prop) detected state :
  Forall (fun r => Forall (fun e => P (emotion e)) (emotions r)) detected ->
  Forall (fun item => P (fst item)) (fst state) ->
  Forall (fun item => P (fst item))
    (fst (fold_left
            (fun state face_data =>
               fold_left add_emotion (emotions face_data) state)
            detected state)).
Proof.
  intros Hdetected. revert state.
  induction Hdetected as [|r detected Hr _ IH]; intros state Hstate;
    [exact Hstate|].
  cbn [fold_left]. apply IH, add_emotion_keys; assumption.
Qed.

(** The mood is ['neutral'] or a label some face was given. *)
Lemma overall_mood_label (P : string -> Prop) detected :
  P "neutral"%string ->
  Forall (fun r => Forall (fun e => P (emotion e)) (emotions r)) detected ->
  P (mood (_calculate_overall_mood detected)).
Proof.
  intros Hneutral Hdetected. unfold _calculate_overall_mood.
  destruct detected as [|r detected]; [exact Hneutral|].
  pose proof (faces_keys P (r :: detected) ([], 0%Q) Hdetected
                (List.Forall_nil _)) as Hkeys.
  destruct (fold_left _ (r :: detected) ([], 0%Q)) as [totals total].
  cbn [fst] in Hkeys. cbn [mood].
  set (normalised :=
         if Qlt_bool 0 total
         then List.map (fun item => (fst item, fdiv (snd item) total)) totals
         else totals).
  assert (Forall (fun item => P (fst item)) normalised) as Hnormalised.
  { subst normalised. destruct (Qlt_bool 0 total); [|exact Hkeys].
    apply Forall_map. exact Hkeys. }
  destruct normalised as [|first rest]; [exact Hneutral|].
  rewrite List.Forall_forall in Hnormalised.
  apply Hnormalised, max_by_value_in.
Qed.

(** X17. The overall mood [analyze_emotions] reports is one of the
    seven emotion labels: with no face detected it is ['neutral'] with
    confidence 0 and no distribution, and otherwise it is a label
    reported for one of the faces, whatever the float operations
    return. *)
Theorem overall_mood_is_an_emotion_label (now : Z)
    (faces : list (face_box * class_probabilities)) :
  exists report,
    analyze_emotions _calculate_overall_mood now faces = Ok report /\
    In (mood (overall_mood report)) emotion_labels /\
    match faces with
    | [] =>
        overall_mood report
        = {| mood := "neutral"; mood_confidence := 0%Q; distribution := None |}
    | _ =>
        Exists
          (fun r => In (mood (overall_mood report))
                      (List.map emotion (emotions r)))
          (report_emotions report)
    end.
Proof.
  unfold analyze_emotions.
  destruct (for_each_face_spec faces) as (detected & -> & Hpost).
  eexists. split; [reflexivity|]. cbn [overall_mood report_emotions].
  assert (Forall (fun r => Forall (fun e => In (emotion e) emotion_labels)
                             (emotions r)) detected) as Hlabels.
  { clear -Hpost. induction Hpost as [|face r faces detected Hr _ IH];
      constructor; [|exact IH].
    destruct Hr as (_ & _ & Hl & _). exact Hl. }
  split.
  - apply (overall_mood_label (fun label => In label emotion_labels));
      [cbn; tauto | exact Hlabels].
  - destruct Hpost as [|face r faces detected Hr Hpost]; [reflexivity|].
    assert (hd_error (emotions r) <> None) as Hhead.
    { destruct Hr as (_ & _ & _ & _ & _ & _ & _ & ->). discriminate. }
    unfold _calculate_overall_mood.
    pose proof (faces_keys
                  (fun label =>
                     Exists (fun r' => In label (List.map emotion (emotions r')))
                       (r :: detected))
                  (r :: detected) ([], 0%Q)) as Hkeys.
    cbv beta in Hkeys.
    assert (Forall
              (fun r0 =>
                 Forall
                   (fun e =>
                      Exists
                        (fun r' => In (emotion e) (List.map emotion (emotions r')))
                        (r :: detected))
                   (emotions r0)) (r :: detected)) as Hall.
    { apply List.Forall_forall. intros r0 Hr0.
      apply List.Forall_forall. intros e He.
      apply List.Exists_exists. exists r0. split; [exact Hr0|].
      apply in_map, He. }
    specialize (Hkeys Hall (List.Forall_nil _)).
    assert (fst (fold_left
                   (fun state face_data =>
                      fold_left add_emotion (emotions face_data) state)
                   (r :: detected) ([], 0%Q)) <> []) as Hnonempty.
    { cbn [fold_left].
      destruct (emotions r) as [|e entries]; [contradiction|].
      cbn [fold_left].
      assert (forall entries state,
                 fst state <> [] ->
                 fst (fold_left add_emotion entries state) <> []) as Hgrow.
      { clear. induction entries as [|e entries IH]; intros [totals total] Hne;
          [exact Hne|].
        cbn [fold_left]. apply IH. unfold add_emotion. cbn [fst].
        apply dict_set_nonempty. }
      assert (forall faces' state,
                 fst state <> [] ->
                 fst (fold_left
                        (fun state face_data =>
                           fold_left add_emotion (emotions face_data) state)
                        faces' state) <> []) as Hgrow'.
      { clear -Hgrow. induction faces' as [|r faces' IH]; intros state Hne;
          [exact Hne|].
        cbn [fold_left]. apply IH, Hgrow, Hne. }
      apply Hgrow', Hgrow. unfold add_emotion. cbn [fst].
      apply dict_set_nonempty. }
    destruct (fold_left _ (r :: detected) ([], 0%Q)) as [totals total].
    cbn [fst] in Hkeys, Hnonempty. cbn [mood].
    set (normalised :=
           if Qlt_bool 0 total
           then List.map (fun item => (fst item, fdiv (snd item) total)) totals
           else totals).
    assert (Forall
              (fun item =>
                 Exists (fun r' => In (fst item) (List.map emotion (emotions r')))
                   (r :: detected)) normalised /\ normalised <> [])
      as [Hnormalised Hne].
    { subst normalised. destruct (Qlt_bool 0 total).
      - split; [apply Forall_map; exact Hkeys|].
        destruct totals; [contradiction | discriminate].
      - split; assumption. }
    destruct normalised as [|first rest]; [contradiction|].
    rewrite List.Forall_forall in Hnormalised.
    apply Hnormalised, max_by_value_in.
Qed.

End overall_mood_facts.

(** The labels [label_scores] pairs the scores with. *)
Lemma label_scores_labels i scores entries :
  label_scores i scores = Ok entries ->
  List.map emotion entries = firstn (length scores) (skipn i emotion_labels).
Proof.
  revert i entries. induction scores as [|score rest IH]; intros i entries.
  - intros [= <-]. reflexivity.
  - cbn [label_scores].
    destruct (nth_error emotion_labels i) as [label|] eqn:Hlabel; [|discriminate].
    destruct (label_scores (S i) rest) as [more|e] eqn:Hmore; [|discriminate].
    intros [= <-]. cbn [List.map emotion length].
    rewrite (IH (S i) more Hmore).
    clear -Hlabel. revert i Hlabel.
    generalize emotion_labels as labels.
    induction labels as [|l labels IH]; intros [|i] Hlabel; try discriminate.
    + injection Hlabel as ->. reflexivity.
    + cbn [skipn]. apply IH, Hlabel.
Qed.

Lemma emotion_labels_NoDup : List.NoDup emotion_labels.
Proof.
  unfold emotion_labels.
  repeat (constructor; [cbn [In]; intuition discriminate|]). constructor.
Qed.

Lemma NoDup_firstn {A} n (l : list A) : List.NoDup l -> List.NoDup (firstn n l).
Proof.
  intros Hl. rewrite <- (firstn_skipn n l) in Hl.
  apply NoDup_app_remove_r in Hl. exact Hl.
Qed.

Lemma NoDup_skipn {A} n (l : list A) : List.NoDup l -> List.NoDup (skipn n l).
Proof.
  intros Hl. rewrite <- (firstn_skipn n l) in Hl.
  apply NoDup_app_remove_l in Hl. exact Hl.
Qed.

(** The entries reported for a face carry distinct labels. *)
Lemma face_result_labels face r :
  face_result face = Ok r -> List.NoDup (List.map emotion (emotions r)).
Proof.
  unfold face_result.
  destruct (label_scores 0 (snd face)) as [entries|e] eqn:Hentries;
    [|discriminate].
  cbn [bind]. pose proof (sort_desc_perm entries) as Hperm.
  destruct (sort_desc entries) as [|best rest]; [discriminate|].
  intros [= <-]. cbn [emotions].
  change (List.NoDup (List.map emotion (firstn 3 (best :: rest)))).
  rewrite <- firstn_map. apply NoDup_firstn.
  apply (Permutation_NoDup (Permutation_map emotion Hperm)).
  rewrite (label_scores_labels 0 (snd face) entries Hentries).
  apply NoDup_firstn, NoDup_skipn, emotion_labels_NoDup.
Qed.

Lemma dict_set_fresh {V} k (v : V) d :
  dict_has k d = false -> dict_set k v d = d ++ [(k, v)].
Proof.
  unfold dict_has. induction d as [|[k' v'] d IH]; cbn; [reflexivity|].
  destruct (String.eqb k' k); cbn; [discriminate|].
  intros H. now rewrite IH.
Qed.

Lemma dict_set_last {V} k (v v' : V) d :
  dict_has k d = false -> dict_set k v (d ++ [(k, v')]) = d ++ [(k, v)].
Proof.
  unfold dict_has. induction d as [|[k0 v0] d IH]; cbn.
  - rewrite String.eqb_refl. reflexivity.
  - destruct (String.eqb k0 k); cbn; [discriminate|].
    intros H. now rewrite IH.
Qed.

Lemma dict_get_last {V} k (v : V) d :
  dict_has k d = false -> dict_get k (d ++ [(k, v)]) = Some v.
Proof.
  unfold dict_has, dict_get. induction d as [|[k0 v0] d IH]; cbn.
  - rewrite String.eqb_refl. reflexivity.
  - destruct (String.eqb k0 k); cbn; [discriminate | exact IH].
Qed.

Lemma dict_has_app {V} k (d d' : list (string * V)) :
  dict_has k (d ++ d') = dict_has k d || dict_has k d'.
Proof. unfold dict_has. apply existsb_app. Qed.

Lemma dict_has_keys {V} k (d : list (string * V)) :
  ~ In k (List.map fst d) -> dict_has k d = false.
Proof.
  unfold dict_has. induction d as [|[k' v'] d IH]; cbn; [reflexivity|].
  intros Hnot. destruct (String.eqb_spec k' k) as [->|_]; [tauto|].
  apply IH. tauto.
Qed.

Lemma max_by_value_first first rest :
  Forall (fun item => (snd item <= snd first)%Q) rest ->
  max_by_value first rest = first.
Proof.
  unfold max_by_value. induction 1 as [|item rest Hitem _ IH]; [reflexivity|].
  cbn [fold_left]. unfold Qlt_bool.
  apply Qle_bool_iff in Hitem. rewrite Hitem. exact IH.
Qed.

Section single_face_facts.
Context {F : FloatOps}.

(** The totals after the entries of one face, whose labels are new. *)
Lemma add_emotions_fresh entries totals total :
  List.NoDup (List.map fst totals ++ List.map emotion entries) ->
  fst (fold_left add_emotion entries (totals, total))
  = totals ++ List.map (fun e => (emotion e, fadd 0 (confidence e))) entries.
Proof.
  revert totals total.
  induction entries as [|e entries IH]; intros totals total Hfresh.
  - cbn. now rewrite app_nil_r.
  - cbn [fold_left List.map]. unfold add_emotion at 2.
    assert (dict_has (emotion e) totals = false) as Hnew.
    { apply dict_has_keys. intros Hin.
      apply NoDup_remove_2 in Hfresh. apply Hfresh, in_or_app. left. exact Hin. }
    rewrite Hnew, (dict_set_fresh (emotion e) 0%Q totals Hnew).
    rewrite (dict_get_last (emotion e) 0%Q totals Hnew).
    rewrite (dict_set_last (emotion e) _ 0%Q totals Hnew).
    cbn [default from_option Datatypes.id].
    rewrite IH.
    + rewrite <- app_assoc. reflexivity.
    + rewrite map_app. cbn [List.map fst]. rewrite <- app_assoc. exact Hfresh.
Qed.

(** X18. With one face in the frame, the overall mood is the dominant
    emotion of that face, as long as adding a float to zero gives the
    float back and dividing by a positive float is monotone (both hold
    of round-to-nearest arithmetic). *)
Theorem single_face_mood {FL : FloatLaws F} (now : Z)
    (face : face_box * class_probabilities) :
  exists report detected,
    analyze_emotions _calculate_overall_mood now [face] = Ok report /\
    report_emotions report = [detected] /\
    mood (overall_mood report) = dominant_emotion detected.
Proof.
  unfold analyze_emotions. cbn [for_each_face].
  destruct (face_result_spec (fst face, scores_of (snd face)))
    as (r & Hr & Hpost).
  { destruct face as [box [[[[[[p0 p1] p2] p3] p4] p5] p6]]. reflexivity. }
  rewrite Hr. cbn [bind]. do 2 eexists.
  split; [reflexivity|]. split; [reflexivity|].
  cbn [overall_mood]. unfold _calculate_overall_mood. cbn [fold_left].
  pose proof (face_result_labels _ r Hr) as Hnodup.
  destruct Hpost as (_ & _ & _ & _ & Hsorted & _ & _ & Hhead).
  pose proof (add_emotions_fresh (emotions r) [] 0%Q Hnodup) as Htotals.
  destruct (fold_left add_emotion (emotions r) ([], 0%Q)) as [totals total].
  cbn [fst app] in Htotals. subst totals.
  destruct (emotions r) as [|best rest]; [discriminate|].
  injection Hhead as Hbest. cbn [List.map mood].
  apply StronglySorted_inv in Hsorted as [_ Hle].
  assert (emotion best = dominant_emotion r) as <- by (rewrite Hbest; reflexivity).
  destruct (Qlt_bool 0 total) eqn:Hpositive; cbn [List.map fst snd].
  - rewrite max_by_value_first; [reflexivity|].
    apply Forall_map, Forall_map. eapply List.Forall_impl; [|exact Hle].
    intros e He. cbn [snd]. unfold conf_ge in He.
    apply fdiv_monotone.
    + rewrite !fadd_0_l. exact He.
    + unfold Qlt_bool in Hpositive. apply Qnot_le_lt. intros Hneg.
      apply Qle_bool_iff in Hneg. rewrite Hneg in Hpositive. discriminate.
  - rewrite max_by_value_first; [reflexivity|].
    apply Forall_map. eapply List.Forall_impl; [|exact Hle].
    intros e He. cbn [snd]. unfold conf_ge in He.
    rewrite !fadd_0_l. exact He.
Qed.

End single_face_facts.

Lemma single_face_mood_witness :
  exists report detected,
    analyze_emotions (_calculate_overall_mood (F := exact_arithmetic)) 0
      [sample_face] = Ok report /\
    report_emotions report = [detected] /\
    mood (overall_mood report) = dominant_emotion detected.
Proof.
  apply (single_face_mood (F := exact_arithmetic) (FL := exact_arithmetic_laws)
           0 sample_face).
Defined.

End ai_service_properties.

(** ** Properties of video_service.py *)
Module video_service_properties.
Import video_service.

Lemma y_at_hand landmarks i :
  hand_landmarks landmarks -> (i < 21)%nat ->
  exists y, y_at landmarks i = Ok y.
Proof.
  intros [Hlen Hpoints] Hi. unfold y_at.
  destruct (nth_error landmarks i) as [point|] eqn:Hpoint.
  2:{ apply nth_error_None in Hpoint. lia. }
  apply nth_error_In in Hpoint.
  rewrite List.Forall_forall in Hpoints. specialize (Hpoints point Hpoint).
  destruct point as [|x [|y point]]; cbn in Hpoints; try lia.
  exists y. reflexivity.
Qed.

Lemma score_no_is_not_yes : score_no <> score_yes.
Proof.
  intros H. apply (f_equal (fun x => PrimFloat.ltb x score_yes)) in H.
  vm_compute in H. discriminate.
Qed.

(** Rewrites every [y_at] of a hand to the coordinate it reads. *)
Ltac read_landmarks H :=
  repeat match goal with
    | |- context [y_at ?l ?i] =>
        let y := fresh "y" in
        let Hy := fresh "Hy" in
        destruct (y_at_hand l i H) as [y Hy]; [lia|];
        rewrite !Hy; clear Hy
    end.

Ltac decide_comparisons :=
  repeat match goal with
    | |- context [PrimFloat.ltb ?a ?b] =>
        is_var a; is_var b; destruct (PrimFloat.ltb a b)
    end.

Lemma heuristics_score landmarks :
  hand_landmarks landmarks ->
  exists b1 b2 b3 b4 b5,
    _is_thumbs_up landmarks = Ok (score b1) /\
    _is_peace_sign landmarks = Ok (score b2) /\
    _is_fist landmarks = Ok (score b3) /\
    _is_open_palm landmarks = Ok (score b4) /\
    _is_pointing landmarks = Ok (score b5).
Proof.
  intros Hhand.
  unfold _is_thumbs_up, _is_peace_sign, _is_fist, _is_open_palm, _is_pointing,
    y_lt, y_gt.
  cbn [all_of Nat.sub].
  read_landmarks Hhand. cbn [bind].
  decide_comparisons; cbn [bind andb];
    do 5 eexists; repeat split; reflexivity.
Qed.

Lemma no_score_yes (l : list (string * float)) n :
  Forall (fun item => snd item <> score_yes) l -> ~ In (n, score_yes) l.
Proof.
  intros Hall Hin. rewrite List.Forall_forall in Hall.
  apply (Hall _ Hin). reflexivity.
Qed.

(** Membership in a list that is written out. *)
Ltac listed := solve [cbn; repeat (first [left; reflexivity | right])].

Lemma best_gesture_classified b1 b2 b3 b4 b5 :
  classified (best_gesture (score b1) (score b2) (score b3) (score b4)
                (score b5)).
Proof.
  unfold classified, best_gesture.
  cbn [name gesture_confidence all_scores].
  destruct b1, b2, b3, b4, b5.
  all: split; [once (repeat constructor)|].
  all: split;
    [eexists; split;
     [cbn; once (repeat (first [left; reflexivity | right]))| reflexivity]|].
  all: match goal with
       | |- ?chosen = _ <-> _ =>
           let v := eval vm_compute in chosen in change chosen with v
       end.
  all: change (score true) with score_yes; change (score false) with score_no.
  all: split.
  all: try (intros Hname; discriminate Hname).
  all: try (intros _; reflexivity).
  all: try (intros _; repeat constructor; exact score_no_is_not_yes).
  all: intros Hall; exfalso.
  all: first [ apply (no_score_yes _ "thumbs_up" Hall); listed
             | apply (no_score_yes _ "peace" Hall); listed
             | apply (no_score_yes _ "fist" Hall); listed
             | apply (no_score_yes _ "open_palm" Hall); listed
             | apply (no_score_yes _ "pointing" Hall); listed ].
Qed.

Lemma score_cases b : score b = score_no \/ score b = score_yes.
Proof. destruct b; [right | left]; reflexivity. Qed.

(** Off the inputs of the caller: [recognize_gestures] passes the 21
    landmarks of a MediaPipe hand. On a shorter list, which it never
    passes, a heuristic raises [IndexError], and so does
    [_classify_gesture]; so does [_is_fist] on the first 20 landmarks of
    a fist, when it reads the missing landmark 20. *)
Lemma heuristics_raise_on_short_list :
  _is_thumbs_up [] = Raise (Exn IndexError "list index out of range") /\
  ~ (_is_thumbs_up [] = Ok score_no \/ _is_thumbs_up [] = Ok score_yes) /\
  _is_fist (firstn 20 fist_hand)
  = Raise (Exn IndexError "list index out of range") /\
  _classify_gesture []
  = Raise (Exn IndexError "list index out of range").
Proof.
  repeat split. intros [Hno | Hyes]; discriminate.
Qed.

(** C8. For every landmark list of a hand, as [recognize_gestures]
    passes it (the 21 landmarks of three coordinates of MediaPipe; the
    statement asks for at least 21 landmarks of at least two
    coordinates each), every hand-gesture heuristic returns
    either 0.2 or 0.8, and [_classify_gesture] returns the five scores,
    as confidence a score that none of them exceeds, and as name the
    name of that maximal score when it exceeds 0.5 and 'unknown'
    otherwise; the name is 'unknown' exactly when no heuristic scores
    0.8. *)
Theorem gesture_heuristics (landmarks : list landmark) :
  hand_landmarks landmarks ->
  Forall (fun heuristic =>
            heuristic landmarks = Ok score_no \/
            heuristic landmarks = Ok score_yes)
    [_is_thumbs_up; _is_peace_sign; _is_fist; _is_open_palm; _is_pointing] /\
  exists thumbs_up peace fist open_palm pointing g,
    _is_thumbs_up landmarks = Ok thumbs_up /\
    _is_peace_sign landmarks = Ok peace /\
    _is_fist landmarks = Ok fist /\
    _is_open_palm landmarks = Ok open_palm /\
    _is_pointing landmarks = Ok pointing /\
    _classify_gesture landmarks = Ok g /\
    all_scores g
    = [("thumbs_up", thumbs_up); ("peace", peace); ("fist", fist);
       ("open_palm", open_palm); ("pointing", pointing)]%string /\
    classified g.
Proof.
  intros Hhand.
  destruct (heuristics_score landmarks Hhand)
    as (b1 & b2 & b3 & b4 & b5 & H1 & H2 & H3 & H4 & H5).
  split.
  - repeat apply List.Forall_cons; try apply List.Forall_nil.
    all: rewrite ?H1, ?H2, ?H3, ?H4, ?H5.
    all: match goal with
         | |- Ok (score ?b) = _ \/ _ =>
             destruct (score_cases b) as [-> | ->]; [left | right]; reflexivity
         end.
  - exists (score b1), (score b2), (score b3), (score b4), (score b5).
    eexists. repeat (split; [assumption|]).
    unfold _classify_gesture. rewrite H1, H2, H3, H4, H5. cbn [bind].
    split; [reflexivity|]. split; [reflexivity|].
    apply best_gesture_classified.
Qed.

(** The heuristics on the fist. *)
Lemma gesture_heuristics_witness :
  Forall (fun heuristic =>
            heuristic fist_hand = Ok score_no \/
            heuristic fist_hand = Ok score_yes)
    [_is_thumbs_up; _is_peace_sign; _is_fist; _is_open_palm; _is_pointing].
Proof.
  apply (gesture_heuristics fist_hand).
  split; [cbn; lia | repeat constructor].
Defined.

Example classify_fist_and_level :
  (name <$> match _classify_gesture fist_hand with
            | Ok g => Some g | Raise _ => None end) = Some "fist"%string /\
  (name <$> match _classify_gesture level_hand with
            | Ok g => Some g | Raise _ => None end) = Some "unknown"%string.
Proof. split; vm_compute; reflexivity. Qed.

(** *** Facts about the comparison of floats *)
Lemma SFcompare_Lt_Gt x y :
  SFcompare x y = Some Lt -> SFcompare y x = Some Gt.
Proof.
  destruct x as [sx | sx | | sx mx ex], y as [sy | sy | | sy my ey];
    cbn; try discriminate;
    try (destruct sx; try discriminate; try reflexivity;
         destruct sy; try discriminate; reflexivity);
    try (destruct sy; try discriminate; reflexivity).
  destruct sx, sy; try discriminate; try reflexivity.
  - rewrite (Z.compare_antisym ex ey).
    destruct (ex ?= ey)%Z eqn:He; cbn; try discriminate; try reflexivity.
    change (PosDef.Pos.compare_cont Eq mx my) with (Pos.compare mx my).
    change (PosDef.Pos.compare_cont Eq my mx) with (Pos.compare my mx).
    rewrite (Pos.compare_antisym mx my).
    destruct (Pos.compare mx my); cbn; try discriminate; reflexivity.
  - rewrite (Z.compare_antisym ex ey).
    destruct (ex ?= ey)%Z eqn:He; cbn; try discriminate; try reflexivity.
    change (PosDef.Pos.compare_cont Eq mx my) with (Pos.compare mx my).
    change (PosDef.Pos.compare_cont Eq my mx) with (Pos.compare my mx).
    rewrite (Pos.compare_antisym mx my).
    destruct (Pos.compare mx my); cbn; try discriminate; reflexivity.
Qed.

(** [a < b] and [b < a] do not both hold. *)
Lemma ltb_asymmetric (a b : float) :
  PrimFloat.ltb a b && PrimFloat.ltb b a = false.
Proof.
  rewrite !ltb_spec. unfold SFltb.
  destruct (SFcompare (Prim2SF a) (Prim2SF b)) as [[| |]|] eqn:Hab;
    try reflexivity.
  rewrite (SFcompare_Lt_Gt _ _ Hab). reflexivity.
Qed.

(** The five scores of a hand, by the comparisons they make: for each
    of the four fingers whether the tip is above ([up]) or below
    ([down]) the joint two landmarks before it, and whether the thumb
    tip is above its joint. No tip is both above and below. *)
Lemma heuristics_conditions landmarks :
  hand_landmarks landmarks ->
  exists thumb up8 down8 up12 down12 up16 down16 up20 down20,
    up8 && down8 = false /\ up12 && down12 = false /\
    up16 && down16 = false /\ up20 && down20 = false /\
    _is_thumbs_up landmarks = Ok (score (thumb && down8)) /\
    _is_peace_sign landmarks = Ok (score (up8 && up12 && down16)) /\
    _is_fist landmarks = Ok (score (down8 && down12 && down16 && down20)) /\
    _is_open_palm landmarks = Ok (score (up8 && up12 && up16 && up20)) /\
    _is_pointing landmarks = Ok (score (up8 && (down12 && down16 && down20))).
Proof.
  intros Hhand.
  unfold _is_thumbs_up, _is_peace_sign, _is_fist, _is_open_palm, _is_pointing,
    y_lt, y_gt.
  cbn [all_of Nat.sub].
  read_landmarks Hhand. cbn [bind].
  match goal with
  | |- context [score (PrimFloat.ltb ?y4 ?y2 && PrimFloat.ltb ?y6 ?y8)] =>
      exists (PrimFloat.ltb y4 y2), (PrimFloat.ltb y8 y6), (PrimFloat.ltb y6 y8)
  end.
  match goal with
  | |- context [score (_ && PrimFloat.ltb ?y12 ?y10 && PrimFloat.ltb ?y14 ?y16)] =>
      exists (PrimFloat.ltb y12 y10), (PrimFloat.ltb y10 y12),
             (PrimFloat.ltb y16 y14), (PrimFloat.ltb y14 y16)
  end.
  match goal with
  | |- context [all_of] => fail
  | |- context [if PrimFloat.ltb ?y18 ?y20 then Ok true else Ok false] =>
      exists (PrimFloat.ltb y20 y18), (PrimFloat.ltb y18 y20)
  end.
  repeat (split; [apply ltb_asymmetric|]).
  split; [reflexivity|]. split; [reflexivity|].
  repeat match goal with
    | |- context [PrimFloat.ltb ?a ?b] =>
        is_var a; is_var b; destruct (PrimFloat.ltb a b)
    end; cbn [bind andb]; repeat split; reflexivity.
Qed.

Lemma score_yes_inv b : score b = score_yes -> b = true.
Proof.
  destruct b; [reflexivity|]. intros H. exfalso.
  apply score_no_is_not_yes. exact H.
Qed.

(** X19. The gestures exclude each other. On a hand of 21 landmarks at
    most one heuristic scores 0.8, except that thumbs-up and fist can
    score 0.8 together; [_classify_gesture] names the heuristic that
    scores 0.8, and thumbs-up when both do, so a fist with the thumb up
    is never named a fist. *)
Theorem gestures_exclude_each_other (landmarks : list landmark) :
  hand_landmarks landmarks ->
  exists g,
    _classify_gesture landmarks = Ok g /\
    (forall a b, fires g a -> fires g b ->
       a = b \/
       (a = "thumbs_up" /\ b = "fist")%string \/
       (a = "fist" /\ b = "thumbs_up")%string) /\
    (forall a, fires g a ->
       name g = a \/ (a = "fist" /\ name g = "thumbs_up")%string) /\
    (fires g "thumbs_up" -> fires g "fist" -> name g = "thumbs_up"%string).
Proof.
  intros Hhand.
  destruct (heuristics_conditions landmarks Hhand)
    as (thumb & up8 & down8 & up12 & down12 & up16 & down16 & up20 & down20
        & H8 & H12 & H16 & H20 & Hthumbs & Hpeace & Hfist & Hpalm & Hpointing).
  unfold _classify_gesture.
  rewrite Hthumbs, Hpeace, Hfist, Hpalm, Hpointing. cbn [bind].
  eexists. split; [reflexivity|].
  assert (forall a b1 b2 b3 b4 b5,
             fires (best_gesture (score b1) (score b2) (score b3) (score b4)
                      (score b5)) a ->
             (a = "thumbs_up"%string /\ b1 = true) \/
             (a = "peace"%string /\ b2 = true) \/
             (a = "fist"%string /\ b3 = true) \/
             (a = "open_palm"%string /\ b4 = true) \/
             (a = "pointing"%string /\ b5 = true)) as Hfires.
  { intros a b1 b2 b3 b4 b5 Ha. unfold fires, best_gesture in Ha.
    cbn [all_scores In] in Ha.
    destruct Ha as [Ha|[Ha|[Ha|[Ha|[Ha|[]]]]]]; injection Ha as <- Hb;
      apply score_yes_inv in Hb; tauto. }
  destruct thumb, up8, down8; try discriminate H8;
    destruct up12, down12; try discriminate H12;
    destruct up16, down16; try discriminate H16;
    destruct up20, down20; try discriminate H20;
    cbn [andb] in *.
  all: split; [intros a b Ha Hb; apply Hfires in Ha; apply Hfires in Hb;
               destruct Ha as [[-> Ha]|[[-> Ha]|[[-> Ha]|[[-> Ha]|[-> Ha]]]]];
               try discriminate Ha;
               destruct Hb as [[-> Hb]|[[-> Hb]|[[-> Hb]|[[-> Hb]|[-> Hb]]]]];
               try discriminate Hb; tauto|].
  all: split; [intros a Ha; apply Hfires in Ha;
               destruct Ha as [[-> Ha]|[[-> Ha]|[[-> Ha]|[[-> Ha]|[-> Ha]]]]];
               try discriminate Ha;
               first [left; vm_compute; reflexivity
                     | right; split; [reflexivity | vm_compute; reflexivity]]|].
  all: intros Ha Hb; apply Hfires in Ha; apply Hfires in Hb;
       destruct Ha as [[_ Ha]|[[Ha _]|[[Ha _]|[[Ha _]|[Ha _]]]]];
       try discriminate Ha;
       destruct Hb as [[Hb _]|[[Hb _]|[[_ Hb]|[[Hb _]|[Hb _]]]]];
       try discriminate Hb; vm_compute; reflexivity.
Qed.

(** Thumbs-up and fist do fire together. *)
Example thumb_up_on_a_fist :
  let hand :=
    List.map
      (fun i => [0.5;
                 if Nat.eqb i 2 || (Nat.eqb (i mod 4) 0 && Nat.leb 8 i)
                 then 0.75 else 0.25;
                 0]%float)
      (seq 0 21) in
  (fun g => (name g, List.map fst
                       (List.filter
                          (fun item => PrimFloat.ltb threshold (snd item))
                          (all_scores g))))
    <$> match _classify_gesture hand with
        | Ok g => Some g | Raise _ => None end
  = Some ("thumbs_up", ["thumbs_up"; "fist"])%string.
Proof. vm_compute. reflexivity. Qed.

Lemma gestures_exclude_each_other_witness :
  exists g,
    _classify_gesture fist_hand = Ok g /\
    (forall a b, fires g a -> fires g b ->
       a = b \/
       (a = "thumbs_up" /\ b = "fist")%string \/
       (a = "fist" /\ b = "thumbs_up")%string) /\
    (forall a, fires g a ->
       name g = a \/ (a = "fist" /\ name g = "thumbs_up")%string) /\
    (fires g "thumbs_up" -> fires g "fist" -> name g = "thumbs_up"%string).
Proof.
  apply (gestures_exclude_each_other fist_hand).
  split; [cbn; lia | repeat constructor].
Defined.

Lemma item_short {A} (l : list A) i :
  (length l <= i)%nat ->
  item l i = Raise (Exn IndexError "list index out of range").
Proof.
  intros Hlen. unfold item.
  apply nth_error_None in Hlen. rewrite Hlen. reflexivity.
Qed.

Lemma item_long {A} (l : list A) i :
  (i < length l)%nat -> exists x, item l i = Ok x.
Proof.
  intros Hlen. unfold item. apply nth_error_Some in Hlen.
  destruct (nth_error l i) as [x|]; [|contradiction]. exists x. reflexivity.
Qed.

(** X20. [_classify_body_gesture] never answers 'waving'. [_is_waving]
    is [_is_raising_hand], which has just returned [False] when it is
    asked, so the result is the raised hand with confidence 0.8 when a
    wrist is above its shoulder, [None] when neither is, and the
    [IndexError] of the landmark list otherwise; a pose of fewer than 17
    landmarks always raises. *)
Theorem body_gesture_is_never_waving (pose_landmarks : list landmark) :
  match _is_raising_hand pose_landmarks with
  | Ok true =>
      _classify_body_gesture pose_landmarks
      = Ok (Some {| body_name := "raising_hand"; body_confidence := score_yes |})
  | Ok false => _classify_body_gesture pose_landmarks = Ok None
  | Raise e => _classify_body_gesture pose_landmarks = Raise e
  end /\
  (forall found,
     _classify_body_gesture pose_landmarks = Ok (Some found) ->
     body_name found <> "waving"%string) /\
  ((length pose_landmarks < 17)%nat ->
   _classify_body_gesture pose_landmarks
   = Raise (Exn IndexError "list index out of range")).
Proof.
  unfold _classify_body_gesture, _is_waving.
  split; [|split].
  - destruct (_is_raising_hand pose_landmarks) as [[|]|e]; reflexivity.
  - intros found.
    destruct (_is_raising_hand pose_landmarks) as [[|]|e];
      cbn [bind]; try discriminate.
    intros [= <-]. discriminate.
  - intros Hshort. unfold _is_raising_hand.
    destruct (Nat.le_gt_cases (length pose_landmarks) 15) as [Hle|Hgt].
    + rewrite (item_short pose_landmarks 15) by exact Hle. reflexivity.
    + destruct (item_long pose_landmarks 15) as [left_wrist ->]; [lia|].
      destruct (item_long pose_landmarks 11) as [left_shoulder ->]; [lia|].
      cbn [bind]. rewrite (item_short pose_landmarks 16) by lia. reflexivity.
Qed.

Example body_gestures :
  _classify_body_gesture (pose_with 0.25%float)
  = Ok (Some {| body_name := "raising_hand"; body_confidence := score_yes |}) /\
  _classify_body_gesture (pose_with 0.75%float) = Ok None.
Proof. split; vm_compute; reflexivity. Qed.

Section process_frame_facts.
Context {operations : FrameOperations}.

(** X21. What [process_frame] returns. When it returns, the response
    holds ['processed_results'] and ['processing_time'], and the
    results hold, in the order enhancement, background_removal,
    gestures, face_analysis, one entry for each option of the frame
    that is true, and no other: the value the operation returned on the
    whole frame. A frame without options gets empty results. *)
Theorem process_frame_results (now : Z) (frame_data response : pyval) :
  process_frame now frame_data = Ok response ->
  exists results,
    response = PDict [("processed_results", PDict results);
                      ("processing_time", PStr (isoformat now))] /\
    List.map fst results
    = List.map snd
        (List.filter (fun option => asked (fst option) frame_data)
           frame_options) /\
    (asked "enhance" frame_data = true ->
     Ok <$> dict_get "enhancement" results = Some (enhance_video frame_data)) /\
    (asked "background_removal" frame_data = true ->
     Ok <$> dict_get "background_removal" results
     = Some (remove_background frame_data)) /\
    (asked "gesture_recognition" frame_data = true ->
     Ok <$> dict_get "gestures" results = Some (recognize_gestures frame_data)) /\
    (asked "face_analysis" frame_data = true ->
     dict_get "face_analysis" results = Some (_analyze_face frame_data)).
Proof.
  unfold process_frame, apply_option, asked, frame_options.
  destruct (py_get "options" frame_data) as [options|e]; [|discriminate].
  cbn [bind List.filter fst snd].
  destruct (py_get "enhance" (default (PDict []) options)) as [q1|e];
    [|discriminate].
  cbn [bind].
  destruct (truthy (default (PBool false) q1));
    [destruct (enhance_video frame_data) as [r1|e]; [|discriminate]|];
    cbn [bind];
    (destruct (py_get "background_removal" (default (PDict []) options))
       as [q2|e]; [|discriminate]);
    cbn [bind];
    (destruct (truthy (default (PBool false) q2));
     [destruct (remove_background frame_data) as [r2|e]; [|discriminate]|]);
    cbn [bind];
    (destruct (py_get "gesture_recognition" (default (PDict []) options))
       as [q3|e]; [|discriminate]);
    cbn [bind];
    (destruct (truthy (default (PBool false) q3));
     [destruct (recognize_gestures frame_data) as [r3|e]; [|discriminate]|]);
    cbn [bind];
    (destruct (py_get "face_analysis" (default (PDict []) options))
       as [q4|e]; [|discriminate]);
    cbn [bind];
    destruct (truthy (default (PBool false) q4));
    cbn [bind]; intros [= <-]; eexists; (split; [reflexivity|]);
    repeat split; try reflexivity; intros; discriminate.
Qed.

End process_frame_facts.

Lemma process_frame_results_witness :
  exists results,
    PDict [("processed_results",
            PDict [("enhancement", PStr "enhanced"); ("face_analysis", PStr "faces")]);
           ("processing_time", PStr "7")]
    = PDict [("processed_results", PDict results);
             ("processing_time", PStr (isoformat (FrameOperations := sample_operations) 7))] /\
    List.map fst results = ["enhancement"; "face_analysis"]%string.
Proof.
  destruct (process_frame_results (operations := sample_operations) 7
              (PDict [("frame", PStr "/9j/4AAQ");
                      ("options", PDict [("enhance", PBool true);
                                         ("face_analysis", PInt 1);
                                         ("gesture_recognition", PInt 0)])])
              (PDict [("processed_results",
                       PDict [("enhancement", PStr "enhanced");
                              ("face_analysis", PStr "faces")]);
                      ("processing_time", PStr "7")]))
    as (results & Hresponse & Hkeys & _).
  - vm_compute. reflexivity.
  - exists results. split; [exact Hresponse | exact Hkeys].
Defined.

End video_service_properties.

(** ** Properties of main.py *)
Module main_properties.
Import main.

(** C5, as stated, is false: a token validation that raises "Token
    expired" is answered with status 401 and the fixed detail "Invalid
    authentication credentials", not with the string of the exception;
    and [/health] has no [try], so an exception of a service's
    [health_check] is no [HTTPException] at all. *)
Lemma token_validation_detail_is_fixed :
  get_current_user (Raise (Exn OtherError "Token expired"))
  = inr (HTTPException 401 "Invalid authentication credentials") /\
  handle transcribe_audio (Raise (Exn OtherError "Token expired"))
    (Ok (PDict []))
  <> HTTPException 401 (exn_str (Exn OtherError "Token expired")) /\
  handle health_check (Ok PNone) (Raise (Exn OtherError "model not loaded"))
  = Unhandled (Exn OtherError "model not loaded") /\
  handle health_check (Ok PNone) (Raise (Exn OtherError "model not loaded"))
  <> HTTPException (claimed_status health_check)
       (exn_str (Exn OtherError "model not loaded")).
Proof. repeat split; discriminate. Qed.

(** C5 (amended). For every REST endpoint other than [/health], once
    the token validation (where the endpoint has one) has passed: if
    the wrapped service call raises an exception the endpoint responds
    with an [HTTPException] of status 500 (401 for login, 400 for
    register) whose detail is the string of the raised exception, and
    if the call succeeds its result is returned unchanged. A token
    validation that raises is answered with status 401 and the fixed
    detail "Invalid authentication credentials". [/health] returns what
    its calls return and lets their exceptions through. *)
Theorem endpoint_error_handling (e : endpoint) (user returned : pyval)
    (x : exn) :
  (e <> health_check ->
   handle e (Ok user) (Raise x) = HTTPException (claimed_status e) (exn_str x)) /\
  handle e (Ok user) (Ok returned) = Returned returned /\
  (depends_on_user e = true ->
   forall call,
     handle e (Raise x) call
     = HTTPException 401 "Invalid authentication credentials") /\
  handle health_check (Ok user) (Raise x) = Unhandled x.
Proof.
  split; [|split; [|split]].
  - intros Hne. destruct e; try reflexivity. contradiction.
  - destruct e; reflexivity.
  - intros Hdep call. destruct e; try discriminate; reflexivity.
  - reflexivity.
Qed.

(** The wrappers at four endpoints. *)
Lemma endpoint_error_handling_witness :
  handle quantum_encrypt (Ok (PStr "ada"))
    (Raise (Exn ValueError "Channel not found or keys expired"))
  = HTTPException 500 "Channel not found or keys expired" /\
  handle login (Ok PNone) (Raise (Exn ValueError "bad password"))
  = HTTPException 401 "bad password" /\
  handle register (Ok PNone) (Raise (Exn ValueError "name taken"))
  = HTTPException 400 "name taken" /\
  handle verify_credential (Raise (Exn ValueError "expired")) (Ok PNone)
  = HTTPException 401 "Invalid authentication credentials".
Proof.
  split; [|split; [|split]].
  - apply (endpoint_error_handling quantum_encrypt (PStr "ada") PNone).
    discriminate.
  - apply (endpoint_error_handling login PNone PNone). discriminate.
  - apply (endpoint_error_handling register PNone PNone). discriminate.
  - apply (endpoint_error_handling verify_credential PNone PNone
             (Exn ValueError "expired")).
    reflexivity.
Defined.

Section websocket_endpoint_facts.
Context {services : Services}.

(** The four branches of the dispatcher on a dictionary. *)
Lemma dispatch_by_type (room_id : string) (items : list (string * pyval)) :
  (forall data processed,
      dict_get "type" items = Some (PStr "video_frame") ->
      dict_get "data" items = Some data ->
      process_frame data = Ok processed ->
      dispatch room_id (PDict items)
      = Ok (room_id,
            PDict [("type", PStr "processed_video"); ("data", processed)])) /\
  (forall data transcription,
      dict_get "type" items = Some (PStr "audio_chunk") ->
      dict_get "data" items = Some data ->
      transcribe_chunk data = Ok transcription ->
      dispatch room_id (PDict items)
      = Ok (room_id,
            PDict [("type", PStr "transcription"); ("data", transcription)])) /\
  (forall data command,
      dict_get "type" items = Some (PStr "neural_signal") ->
      dict_get "data" items = Some data ->
      process_signal data = Ok command ->
      dispatch room_id (PDict items)
      = Ok (room_id,
            PDict [("type", PStr "neural_command"); ("data", command)])) /\
  (dict_get "type" items <> Some (PStr "video_frame") ->
   dict_get "type" items <> Some (PStr "audio_chunk") ->
   dict_get "type" items <> Some (PStr "neural_signal") ->
   dispatch room_id (PDict items) = Ok (room_id, PDict items)).
Proof.
  unfold dispatch. cbn [get_type get_data bind].
  split; [|split; [|split]].
  - intros data processed -> -> Hcall. cbn. rewrite Hcall. reflexivity.
  - intros data transcription -> -> Hcall. cbn. rewrite Hcall. reflexivity.
  - intros data command -> -> Hcall. cbn. rewrite Hcall. reflexivity.
  - intros Hvideo Haudio Hneural.
    assert (forall tag, dict_get "type" items <> Some (PStr tag) ->
                        is_tag tag (dict_get "type" items) = false) as Hother.
    { intros tag Hne. destruct (dict_get "type" items) as [[]|]; try reflexivity.
      cbn. destruct (String.eqb_spec s tag); [subst; contradiction|reflexivity]. }
    rewrite !Hother by assumption. reflexivity.
Qed.

(** C6 (amended). For every text message received on the WebSocket
    endpoint that [json.loads] parses to a JSON object: when its type
    tag is 'video_frame' (or 'audio_chunk', or 'neural_signal'), it
    holds a 'data' field and the video service's [process_frame] (or
    the AI service's [transcribe_chunk], or the neural service's
    [process_signal]) returns on that field, the result is broadcast to
    the room as type 'processed_video' (or 'transcription', or
    'neural_command'); and every JSON object with another or no type
    tag is broadcast to the room unchanged. *)
Theorem websocket_message_routing (room_id data : string)
    (items : list (string * pyval)) :
  json_loads data = Ok (PDict items) ->
  (forall payload processed,
      dict_get "type" items = Some (PStr "video_frame") ->
      dict_get "data" items = Some payload ->
      process_frame payload = Ok processed ->
      on_text room_id data
      = Ok (room_id,
            PDict [("type", PStr "processed_video"); ("data", processed)])) /\
  (forall payload transcription,
      dict_get "type" items = Some (PStr "audio_chunk") ->
      dict_get "data" items = Some payload ->
      transcribe_chunk payload = Ok transcription ->
      on_text room_id data
      = Ok (room_id,
            PDict [("type", PStr "transcription"); ("data", transcription)])) /\
  (forall payload command,
      dict_get "type" items = Some (PStr "neural_signal") ->
      dict_get "data" items = Some payload ->
      process_signal payload = Ok command ->
      on_text room_id data
      = Ok (room_id,
            PDict [("type", PStr "neural_command"); ("data", command)])) /\
  (dict_get "type" items <> Some (PStr "video_frame") ->
   dict_get "type" items <> Some (PStr "audio_chunk") ->
   dict_get "type" items <> Some (PStr "neural_signal") ->
   on_text room_id data = Ok (room_id, PDict items)).
Proof.
  intros Hparsed. unfold on_text. rewrite Hparsed. cbn [bind].
  apply dispatch_by_type.
Qed.

End websocket_endpoint_facts.

(** C6, as stated, is false: the message [{"type": "video_frame"}] has
    the type tag 'video_frame' and is not routed to [process_frame],
    since [message['data']] raises [KeyError]; and the message
    [[1, 2]], which has no type tag, is not broadcast, since a list has
    no [get]. *)
Lemma dispatch_raises_without_data :
  never_broadcast (PDict [("type", PStr "video_frame")]) /\
  never_broadcast (PList [PInt 1; PInt 2]).
Proof.
  split; intros services room_id data Hparsed; unfold on_text;
    rewrite Hparsed; eexists; reflexivity.
Qed.

(** The routing theorem at an audio chunk and at a chat message. *)
Lemma websocket_message_routing_witness :
  on_text (services := echo_services) "room-1" "audio"
  = Ok ("room-1"%string,
        PDict [("type", PStr "transcription");
               ("data", PDict [("by", PStr "ai");
                               ("input", PStr "UklGRg")])]) /\
  on_text (services := echo_services) "room-1" "chat"
  = Ok ("room-1"%string, PDict [("type", PStr "chat"); ("text", PStr "hello")]).
Proof.
  split.
  - destruct (websocket_message_routing (services := echo_services)
                "room-1" "audio"
                [("type", PStr "audio_chunk"); ("data", PStr "UklGRg")]
                eq_refl)
      as (_ & Haudio & _).
    apply (Haudio (PStr "UklGRg")); reflexivity.
  - destruct (websocket_message_routing (services := echo_services)
                "room-1" "chat"
                [("type", PStr "chat"); ("text", PStr "hello")] eq_refl)
      as (_ & _ & _ & Hother).
    apply Hother; discriminate.
Defined.

(** A session: a chat message, a frame, then a text that is no JSON
    object ends the handler; the fourth text is never read. *)
Example websocket_session :
  websocket_endpoint (services := echo_services) "r"
    ["chat"; "frame"; "42"; "chat"]
  = ([("r", PDict [("type", PStr "chat"); ("text", PStr "hello")]);
      ("r", PDict [("type", PStr "processed_video");
                   ("data", PDict [("by", PStr "video"); ("input", PInt 7)])])]%string,
     Some (Exn AttributeError "object has no attribute 'get'")).
Proof. vm_compute. reflexivity. Qed.

Section websocket_session_facts.
Context {services : Services}.

(** Whatever the dispatcher sends, it sends to the room of the
    handler. *)
Lemma on_text_room (room_id data : string) (sent : string * pyval) :
  on_text room_id data = Ok sent -> fst sent = room_id.
Proof.
  unfold on_text, dispatch, broadcast_to_room.
  destruct (json_loads data) as [message|e]; [|discriminate]. cbn [bind].
  destruct (get_type message) as [type|e]; [|discriminate]. cbn [bind].
  repeat match goal with
         | |- context [if ?b then _ else _] => destruct b
         end;
    try (destruct (get_data message) as [payload|e]; [|discriminate];
         cbn [bind];
         match goal with
         | |- context [bind ?call _] => destruct call; [|discriminate]
         end; cbn [bind]);
    intros [= <-]; reflexivity.
Qed.

(** X22. A session of the WebSocket handler. The texts received split
    into those read and the rest: each text read is parsed and
    dispatched without an exception and gives, in order, one broadcast,
    to the handler's own room; the first text of the rest, if there is
    one, raises, which ends the loop, and the texts after it are never
    read. The handler ends without an exception when the client
    disconnects after its last text or the exception raised is
    [WebSocketDisconnect], the one class it catches; any other
    exception leaves the handler. *)
Theorem session_ends_at_the_first_exception (room_id : string)
    (incoming : list string) :
  exists read rest,
    incoming = read ++ rest /\
    List.map (on_text room_id) read
    = List.map Ok (fst (websocket_endpoint room_id incoming)) /\
    List.Forall (fun sent => fst sent = room_id)
      (fst (websocket_endpoint room_id incoming)) /\
    match rest with
    | [] => snd (websocket_endpoint room_id incoming) = None
    | data :: _ =>
        exists e,
          on_text room_id data = Raise e /\
          (exn_cls e = WebSocketDisconnect ->
           snd (websocket_endpoint room_id incoming) = None) /\
          (exn_cls e <> WebSocketDisconnect ->
           snd (websocket_endpoint room_id incoming) = Some e)
    end.
Proof.
  induction incoming as [|data incoming IH].
  - exists [], []. repeat split. constructor.
  - cbn [websocket_endpoint].
    destruct (on_text room_id data) as [sent|e] eqn:Hturn.
    + destruct IH as (read & rest & -> & Hread & Hroom & Hrest).
      destruct (websocket_endpoint room_id (read ++ rest)) as [more ended].
      exists (data :: read), rest. cbn [fst snd] in *.
      split; [reflexivity|]. split; [cbn; rewrite Hturn, Hread; reflexivity|].
      split; [|exact Hrest].
      constructor; [apply (on_text_room room_id data); exact Hturn | exact Hroom].
    + exists [], (data :: incoming). cbn [fst snd].
      split; [reflexivity|]. split; [reflexivity|]. split; [constructor|].
      exists e. split; [exact Hturn|].
      destruct (exn_cls e); split; intros H; congruence.
Qed.

End websocket_session_facts.

End main_properties.
